(** * V4L2 capture and display: buffer life cycle, capture loop and
      device-control state machine of [opengles_capture/capture.c]

    The C program is embedded as state-passing code over a [machine]: the
    memory of the two context structures allocated in [main], the process
    globals ([signal_quit], [errno]) and the log of calls made to the kernel
    and to the display stack.  The kernel, the X server and the GPU are an
    environment that answers the n-th call of a run with a [response]. *)

From Stdlib Require Import ZArith String Ascii List Lia Bool.
From stdpp Require Import base tactics option list.
Import ListNotations.
Local Open Scope Z_scope.

(** ** Constants of the kernel headers and of [capture.h] *)

Module Const.

(* linux/videodev2.h *)
Definition VIDEO_MAX_FRAME : Z := 32.
Definition VIDEO_MAX_PLANES : Z := 8.
Definition V4L2_BUF_TYPE_VIDEO_CAPTURE_MPLANE : Z := 9.
Definition V4L2_MEMORY_MMAP : Z := 1.
Definition V4L2_CAP_VIDEO_CAPTURE_MPLANE : Z := 0x00001000.
Definition V4L2_CAP_STREAMING : Z := 0x04000000.
Definition V4L2_PIX_FMT_NV12M : Z := 0x32314d4e.

(* linux/v4l2-controls.h *)
Definition V4L2_CID_FOCUS_AUTO : Z := 0x009a090c.
Definition V4L2_CID_AUTO_FOCUS_START : Z := 0x009a091c.
Definition V4L2_CID_3A_LOCK : Z := 0x009a091b.
Definition V4L2_LOCK_FOCUS : Z := 4.
Definition V4L2_CID_TEST_PATTERN : Z := 0x009f0903.

(* sys/mman.h: MAP_FAILED is ((void * ) -1); NULL is 0 *)
Definition MAP_FAILED : Z := -1.
Definition NULL : Z := 0.

(* capture.h: the anonymous enum of focus states *)
Definition IDLE_FOCUS : Z := 0.
Definition AUTO_FOCUS_ENABLED : Z := 1.
Definition SINGLE_FOCUS_START : Z := 2.
Definition FOCUS_PAUSE : Z := 3.

End Const.
Import Const.

(** [int] arithmetic: the value of a 32-bit two's complement result. *)
Definition to_int (z : Z) : Z := (z + 2^31) mod 2^32 - 2^31.

(** The value an [int] has once it is stored in a [__u32]. *)
Definition to_u32 (z : Z) : Z := z mod 2^32.

(** ** Data model ([capture.h], [display.h], [options.h]) *)

Record v4l2_plane := { pl_length : Z; pl_mem_offset : Z }.

Record v4l2_buffer := {
  buf_index : Z;
  buf_type : Z;
  buf_memory : Z;
  buf_length : Z
}.

Record v4l2_control := { ctrl_id : Z; ctrl_value : Z }.

(** [struct video_buf_map]: one V4L2 buffer and its planes. *)
Record video_buf_map := {
  length_ : list Z;
  addr : list Z;
  dma_buf_fd : list Z;
  v4l2planes : list v4l2_plane;
  v4l2buf : v4l2_buffer
}.

Record application_state := { focus_st : Z; test_state : Z }.

Record capture_context := {
  buffers : list video_buf_map;
  app : application_state;
  num_buf : Z;
  num_planes : Z;
  type_ : Z;
  memory : Z;
  v4l2_fd : Z;
  v4l2_subdev_fd : Z
}.

(** The functions a [key_event] pointer can hold in this program. *)
Inductive key_callback := cb_do_key_event.

(** [struct display_context], the members the capture code touches. *)
Record display_context := {
  key_event : option key_callback;
  render_num_buffers : Z;
  render_buffers : list Z
}.

Record options := {
  buffer_count : Z;
  dma_export : Z;
  dev_name : string;
  subdev_name : string
}.

(** ** The environment *)

(** Events of the X server queue, as [x11_process_pending_events] sees them:
    a key press carries the text and the count [XLookupString] returns. *)
Inductive xevent :=
| Expose
| KeyPress (text : list ascii) (keys : Z)
| OtherEvent.

(** What the environment answers to one call. Each call reads the fields
    that belong to it. *)
Record response := {
  r_ret : Z;                  (* the int returned (ioctl, open, close, munmap, setup, GL status) *)
  r_errno : Z;                (* errno left behind when the call fails *)
  r_val : Z;                  (* out-value: req.count, buf.index, dma_buf.fd, cap.capabilities *)
  r_addr : Z;                 (* the pointer mmap returns *)
  r_planes : list v4l2_plane; (* plane geometry written by VIDIOC_QUERYBUF *)
  r_xevents : list xevent;    (* the pending X events *)
  r_sigint : bool             (* SIGINT arrives while the call is in progress *)
}.

Inductive request :=
| VIDIOC_QUERYCAP
| VIDIOC_S_FMT (pixelformat planes : Z)
| VIDIOC_REQBUFS (count type memory : Z)
| VIDIOC_QUERYBUF (index length : Z)
| VIDIOC_EXPBUF (index plane : Z)
| VIDIOC_QBUF (index : Z)
| VIDIOC_DQBUF
| VIDIOC_STREAMON
| VIDIOC_STREAMOFF
| VIDIOC_S_CTRL (ctrl : v4l2_control).

(** The steps of [camera_nv12m_setup] whose result the function tests; the
    answer's [r_ret] is the value tested. *)
Inductive display_step :=
| CreateWindow      (* x11_create_window(disp) *)
| EglInit           (* egl_init(disp) *)
| LoadProgram       (* gles_load_program(nv12_vertex_code, nv12_fragment_code) *)
| LumaLocation      (* glGetUniformLocation(disp->program, "s_luma_texture") *)
| ChromaLocation    (* glGetUniformLocation(disp->program, "s_chroma_texture") *)
| LumaTexture       (* the vertex array, then glTexImage2D for the luma plane: glGetError() *)
| ChromaTexture.    (* glTexImage2D for the chroma plane: glGetError() *)

Inductive call :=
| Open (path : string)
| Ioctl (fd : Z) (req : request)
| Mmap (len fd offset : Z)
| Munmap (address len : Z)
| Close (fd : Z)
| Sigaction
| DisplaySetup (step : display_step)
| XPending
| XCloseDisplay
| GlDraw.

(** One entry of the log: the call, the answer, and the application state
    that was in memory when the call was made. *)
Record event := { ev_call : call; ev_resp : response; ev_app : application_state }.

(** ** The machine *)

Record machine := {
  cap : capture_context;
  disp : display_context;
  signal_quit : Z;
  errno : Z;
  sigint_handler : bool;       (* sigaction has installed signal_exit *)
  stack_ctrl : v4l2_control;   (* what an uninitialised local v4l2_control holds *)
  env : nat -> response;
  calls : nat;
  trace : list event
}.

Inductive outcome (A : Type) :=
| Ret (a : A)        (* the function returned a *)
| Exit (code : Z)    (* exit(code) ended the process *)
| Spin.              (* the capture loop was still running when the fuel ran out *)
Arguments Ret {A} a.
Arguments Exit {A} code.
Arguments Spin {A}.

Definition M (A : Type) : Type := machine -> outcome A * machine.

Definition ret {A} (a : A) : M A := fun m => (Ret a, m).

Definition bind {A B} (c : M A) (k : A -> M B) : M B :=
  fun m =>
    match c m with
    | (Ret a, m1) => k a m1
    | (Exit code, m1) => (Exit code, m1)
    | (Spin, m1) => (Spin, m1)
    end.

Notation "x <- c ;; k" := (bind c (fun x => k))
  (at level 100, c at next level, right associativity).
Notation "c ;;; k" := (bind c (fun _ => k))
  (at level 100, right associativity).

Definition exit_ {A} (code : Z) : M A := fun m => (Exit code, m).

(** *** Field updates *)

Definition set_cap (c : capture_context) (m : machine) : machine :=
  {| cap := c; disp := disp m; signal_quit := signal_quit m; errno := errno m;
     sigint_handler := sigint_handler m; stack_ctrl := stack_ctrl m;
     env := env m; calls := calls m; trace := trace m |}.

Definition set_disp (d : display_context) (m : machine) : machine :=
  {| cap := cap m; disp := d; signal_quit := signal_quit m; errno := errno m;
     sigint_handler := sigint_handler m; stack_ctrl := stack_ctrl m;
     env := env m; calls := calls m; trace := trace m |}.

Definition set_signal_quit (v : Z) (m : machine) : machine :=
  {| cap := cap m; disp := disp m; signal_quit := v; errno := errno m;
     sigint_handler := sigint_handler m; stack_ctrl := stack_ctrl m;
     env := env m; calls := calls m; trace := trace m |}.

Definition set_errno (v : Z) (m : machine) : machine :=
  {| cap := cap m; disp := disp m; signal_quit := signal_quit m; errno := v;
     sigint_handler := sigint_handler m; stack_ctrl := stack_ctrl m;
     env := env m; calls := calls m; trace := trace m |}.

Definition set_sigint_handler (v : bool) (m : machine) : machine :=
  {| cap := cap m; disp := disp m; signal_quit := signal_quit m; errno := errno m;
     sigint_handler := v; stack_ctrl := stack_ctrl m;
     env := env m; calls := calls m; trace := trace m |}.

Definition log (e : event) (m : machine) : machine :=
  {| cap := cap m; disp := disp m; signal_quit := signal_quit m; errno := errno m;
     sigint_handler := sigint_handler m; stack_ctrl := stack_ctrl m;
     env := env m; calls := S (calls m); trace := trace m ++ [e] |}.

Definition set_buffers (v : list video_buf_map) (c : capture_context) : capture_context :=
  {| buffers := v; app := app c; num_buf := num_buf c; num_planes := num_planes c;
     type_ := type_ c; memory := memory c; v4l2_fd := v4l2_fd c;
     v4l2_subdev_fd := v4l2_subdev_fd c |}.

Definition set_app (v : application_state) (c : capture_context) : capture_context :=
  {| buffers := buffers c; app := v; num_buf := num_buf c; num_planes := num_planes c;
     type_ := type_ c; memory := memory c; v4l2_fd := v4l2_fd c;
     v4l2_subdev_fd := v4l2_subdev_fd c |}.

Definition set_num_buf (v : Z) (c : capture_context) : capture_context :=
  {| buffers := buffers c; app := app c; num_buf := v; num_planes := num_planes c;
     type_ := type_ c; memory := memory c; v4l2_fd := v4l2_fd c;
     v4l2_subdev_fd := v4l2_subdev_fd c |}.

Definition set_format (ty mem planes : Z) (c : capture_context) : capture_context :=
  {| buffers := buffers c; app := app c; num_buf := num_buf c; num_planes := planes;
     type_ := ty; memory := mem; v4l2_fd := v4l2_fd c;
     v4l2_subdev_fd := v4l2_subdev_fd c |}.

Definition set_v4l2_fd (v : Z) (c : capture_context) : capture_context :=
  {| buffers := buffers c; app := app c; num_buf := num_buf c; num_planes := num_planes c;
     type_ := type_ c; memory := memory c; v4l2_fd := v;
     v4l2_subdev_fd := v4l2_subdev_fd c |}.

Definition set_v4l2_subdev_fd (v : Z) (c : capture_context) : capture_context :=
  {| buffers := buffers c; app := app c; num_buf := num_buf c; num_planes := num_planes c;
     type_ := type_ c; memory := memory c; v4l2_fd := v4l2_fd c;
     v4l2_subdev_fd := v |}.

Definition set_focus_st (v : Z) (a : application_state) : application_state :=
  {| focus_st := v; test_state := test_state a |}.

Definition set_test_state (v : Z) (a : application_state) : application_state :=
  {| focus_st := focus_st a; test_state := v |}.

Definition get_cap : M capture_context := fun m => (Ret (cap m), m).
Definition upd_cap (f : capture_context -> capture_context) : M unit :=
  fun m => (Ret tt, set_cap (f (cap m)) m).
Definition get_disp : M display_context := fun m => (Ret (disp m), m).
Definition upd_disp (f : display_context -> display_context) : M unit :=
  fun m => (Ret tt, set_disp (f (disp m)) m).
Definition get_errno : M Z := fun m => (Ret (errno m), m).
Definition get_signal_quit : M Z := fun m => (Ret (signal_quit m), m).

(** ** Array access

    The C arrays have [VIDEO_MAX_FRAME] buffers of [VIDEO_MAX_PLANES] planes.
    An index outside an array is undefined behaviour in C; here a read there
    yields the zero element and a write is dropped. *)

Definition zero_plane : v4l2_plane := {| pl_length := 0; pl_mem_offset := 0 |}.
Definition zero_v4l2buf : v4l2_buffer :=
  {| buf_index := 0; buf_type := 0; buf_memory := 0; buf_length := 0 |}.
Definition zero_buf : video_buf_map :=
  {| length_ := replicate (Z.to_nat VIDEO_MAX_PLANES) 0;
     addr := replicate (Z.to_nat VIDEO_MAX_PLANES) NULL;
     dma_buf_fd := replicate (Z.to_nat VIDEO_MAX_PLANES) 0;
     v4l2planes := replicate (Z.to_nat VIDEO_MAX_PLANES) zero_plane;
     v4l2buf := zero_v4l2buf |}.

#[global] Instance video_buf_map_inhabited : Inhabited video_buf_map := populate zero_buf.
#[global] Instance v4l2_plane_inhabited : Inhabited v4l2_plane := populate zero_plane.

Definition zget (l : list Z) (i : Z) : Z := l !!! Z.to_nat i.
Definition buf_at (c : capture_context) (i : Z) : video_buf_map :=
  buffers c !!! Z.to_nat i.
Definition plane_at (b : video_buf_map) (p : Z) : v4l2_plane :=
  v4l2planes b !!! Z.to_nat p.

Definition upd_buf (i : Z) (f : video_buf_map -> video_buf_map)
    (c : capture_context) : capture_context :=
  set_buffers (alter f (Z.to_nat i) (buffers c)) c.

Definition set_length (p v : Z) (b : video_buf_map) : video_buf_map :=
  {| length_ := <[Z.to_nat p := v]> (length_ b); addr := addr b;
     dma_buf_fd := dma_buf_fd b; v4l2planes := v4l2planes b; v4l2buf := v4l2buf b |}.

Definition set_addr (p v : Z) (b : video_buf_map) : video_buf_map :=
  {| length_ := length_ b; addr := <[Z.to_nat p := v]> (addr b);
     dma_buf_fd := dma_buf_fd b; v4l2planes := v4l2planes b; v4l2buf := v4l2buf b |}.

Definition set_dma_buf_fd (p v : Z) (b : video_buf_map) : video_buf_map :=
  {| length_ := length_ b; addr := addr b;
     dma_buf_fd := <[Z.to_nat p := v]> (dma_buf_fd b);
     v4l2planes := v4l2planes b; v4l2buf := v4l2buf b |}.

Definition set_v4l2buf (v : v4l2_buffer) (b : video_buf_map) : video_buf_map :=
  {| length_ := length_ b; addr := addr b; dma_buf_fd := dma_buf_fd b;
     v4l2planes := v4l2planes b; v4l2buf := v |}.

(** The kernel writes the plane entries it reports over the array. *)
Definition write_planes (ps : list v4l2_plane) (b : video_buf_map) : video_buf_map :=
  {| length_ := length_ b; addr := addr b; dma_buf_fd := dma_buf_fd b;
     v4l2planes := take (length (v4l2planes b)) (ps ++ drop (length ps) (v4l2planes b));
     v4l2buf := v4l2buf b |}.

(** ** The signal handler and the calls to the environment *)

(** [signal_exit]: [(void)signal; signal_quit = true;] *)
Definition signal_exit (signal : Z) (m : machine) : machine :=
  set_signal_quit 1 m.

Definition SIGINT : Z := 2.

(** A call: the environment's answer to call number [calls m] is logged;
    a SIGINT that arrives during the call runs the installed handler.  (Before
    [sigaction] the signal has its default disposition, which ends the
    process; such runs are outside this model.) *)
Definition sys (c : call) : M response :=
  fun m =>
    let r := env m (calls m) in
    let m1 := log {| ev_call := c; ev_resp := r; ev_app := app (cap m) |} m in
    let m2 := if r_sigint r && sigint_handler m1 then signal_exit SIGINT m1 else m1 in
    (Ret r, m2).

Definition set_errno_if (failed : bool) (r : response) : M unit :=
  fun m => (Ret tt, if failed then set_errno (r_errno r) m else m).

(** Calls that return an int, negative on failure with errno set. *)
Definition sys_int (c : call) : M response :=
  r <- sys c ;;
  set_errno_if (r_ret r <? 0) r ;;;
  ret r.

Definition ioctl (fd : Z) (req : request) : M response := sys_int (Ioctl fd req).
Definition open (path : string) : M Z := r <- sys_int (Open path) ;; ret (r_ret r).
Definition close (fd : Z) : M Z := r <- sys_int (Close fd) ;; ret (r_ret r).
Definition munmap (a len : Z) : M Z := r <- sys_int (Munmap a len) ;; ret (r_ret r).

Definition mmap (len fd offset : Z) : M Z :=
  r <- sys (Mmap len fd offset) ;;
  set_errno_if (r_addr r =? MAP_FAILED) r ;;;
  ret (r_addr r).

Definition sigaction_SIGINT : M unit :=
  _ <- sys Sigaction ;;
  fun m => (Ret tt, set_sigint_handler true m).

(** ** Loops

    The [for] loops of [capture.c] run to a bound held in the capture context
    ([num_buf], [num_planes]) that no loop body writes; the bound is read
    once, on entry.  The [while] loop of [capture_display_yuv] takes fuel,
    one unit per pass. *)

(** [for (int i = start; i < start + n; i++) body(i)], where the body may
    leave the loop (and, for [Some v], does so with the value [v]). *)
Fixpoint for_until {A} (n : nat) (i : Z) (body : Z -> M (option A)) : M (option A) :=
  match n with
  | O => ret None
  | S n' =>
      r <- body i ;;
      match r with
      | Some v => ret (Some v)
      | None => for_until n' (i + 1) body
      end
  end.

(** [for (int i = 0; i < bound; i++) body(i)] without early exit. *)
Fixpoint for_each (n : nat) (i : Z) (body : Z -> M unit) : M unit :=
  match n with
  | O => ret tt
  | S n' => body i ;;; for_each n' (i + 1) body
  end.

(** ** [capture.c] *)

(** One plane of [unmap_buffers]'s inner loop body.  [cap->buffers] is an
    array member, so the test [cap->buffers &&] always passes.  The result of
    [munmap] is stored in [ret], which the final ioctl overwrites. *)
Definition unmap_plane (i p : Z) : M unit :=
  c <- get_cap ;;
  (if 0 <=? zget (dma_buf_fd (buf_at c i)) p then
     close (zget (dma_buf_fd (buf_at c i)) p) ;;;
     upd_cap (upd_buf i (set_dma_buf_fd p (-1)))
   else ret tt) ;;;
  c <- get_cap ;;
  if negb (zget (addr (buf_at c i)) p =? NULL) &&
     negb (zget (addr (buf_at c i)) p =? MAP_FAILED)
  then
    _ <- munmap (zget (addr (buf_at c i)) p) (zget (length_ (buf_at c i)) p) ;;
    ret tt
  else ret tt.

(** The two nested loops of [unmap_buffers]. *)
Definition unmap_all : M unit :=
  c <- get_cap ;;
  for_each (Z.to_nat (num_buf c)) 0 (fun i =>
    c <- get_cap ;;
    for_each (Z.to_nat (num_planes c)) 0 (fun p => unmap_plane i p)).

Definition unmap_buffers : M Z :=
  unmap_all ;;;
  c <- get_cap ;;
  r <- ioctl (v4l2_fd c) (VIDIOC_REQBUFS 0 (type_ c) (memory c)) ;;
  ret (r_ret r).

(** The inner loop body of [map_buffers]; [Some v] is [return v]. *)
Definition map_plane (dma_export : Z) (i p : Z) : M (option Z) :=
  c <- get_cap ;;
  upd_cap (upd_buf i (set_length p (pl_length (plane_at (buf_at c i) p)))) ;;;
  a <- mmap (pl_length (plane_at (buf_at c i) p)) (v4l2_fd c)
            (pl_mem_offset (plane_at (buf_at c i) p)) ;;
  upd_cap (upd_buf i (set_addr p a)) ;;;
  if a =? MAP_FAILED then
    e <- get_errno ;; ret (Some (- e))
  else if negb (dma_export =? 0) then
    r <- ioctl (v4l2_fd c) (VIDIOC_EXPBUF i p) ;;
    if r_ret r <? 0 then
      e <- get_errno ;; ret (Some (- e))
    else
      upd_cap (upd_buf i (set_dma_buf_fd p (r_val r))) ;;;
      ret None
  else ret None.

Definition map_buffer (dma_export : Z) (i : Z) : M (option Z) :=
  c <- get_cap ;;
  upd_cap (upd_buf i (set_v4l2buf
    {| buf_index := i; buf_type := type_ c; buf_memory := memory c;
       buf_length := num_buf c |})) ;;;
  r <- ioctl (v4l2_fd c) (VIDIOC_QUERYBUF i (num_buf c)) ;;
  if r_ret r <? 0 then ret (Some (r_ret r))
  else
    upd_cap (upd_buf i (write_planes (r_planes r))) ;;;
    for_until (Z.to_nat (num_planes c)) 0 (map_plane dma_export i).

Definition map_buffers (dma_export : Z) : M Z :=
  c <- get_cap ;;
  r <- for_until (Z.to_nat (num_buf c)) 0 (map_buffer dma_export) ;;
  match r with
  | Some v => ret v
  | None => ret 0
  end.

(** [queue_buffers(cap->v4l2_fd, cap->num_buf, cap->buffers)]: the loop
    breaks at the first failure; the function returns the last value of its
    local [ret]. *)
Fixpoint queue_loop (n : nat) (i : Z) (fd : Z) (ret_ : Z) : M Z :=
  match n with
  | O => ret ret_
  | S n' =>
      c <- get_cap ;;
      r <- ioctl fd (VIDIOC_QBUF (buf_index (v4l2buf (buf_at c i)))) ;;
      if r_ret r <? 0 then ret (r_ret r)
      else queue_loop n' (i + 1) fd (r_ret r)
  end.

Definition queue_buffers (fd count : Z) : M Z :=
  queue_loop (Z.to_nat count) 0 fd 0.

Definition start_stream (fd : Z) : M Z :=
  r <- ioctl fd VIDIOC_STREAMON ;; ret (r_ret r).

Definition stop_stream (fd : Z) : M Z :=
  r <- ioctl fd VIDIOC_STREAMOFF ;; ret (r_ret r).

Definition capture_shutdown : M Z :=
  c <- get_cap ;;
  _ <- stop_stream (v4l2_fd c) ;;
  unmap_buffers.

(** *** The capture and display loop *)

Definition MAX_RENDER_BUFFERS : Z := 32.

Definition set_render_num_buffers (v : Z) (d : display_context) : display_context :=
  {| key_event := key_event d; render_num_buffers := v;
     render_buffers := render_buffers d |}.

Definition set_render_buffer (i v : Z) (d : display_context) : display_context :=
  {| key_event := key_event d; render_num_buffers := render_num_buffers d;
     render_buffers := <[Z.to_nat i := v]> (render_buffers d) |}.

Definition set_key_event (v : option key_callback) (d : display_context) : display_context :=
  {| key_event := v; render_num_buffers := render_num_buffers d;
     render_buffers := render_buffers d |}.

(** [disp->render_ctx.num_buffers = cap->num_planes;] and the loop that
    copies the plane addresses of buffer [index] into the render context. *)
Definition select_buffer (index : Z) : M unit :=
  c <- get_cap ;;
  upd_disp (set_render_num_buffers (num_planes c)) ;;;
  for_each (Z.to_nat (num_planes c)) 0 (fun i =>
    c <- get_cap ;;
    upd_disp (set_render_buffer i (zget (addr (buf_at c index)) i))).

(** *** Device control *)

Definition new_ctrl (id value : Z) : v4l2_control :=
  {| ctrl_id := id; ctrl_value := value |}.

(** The [switch] of [focus_state]: the application state and the local
    [ctrl] after it.  Where no branch assigns them they keep their value. *)
Definition focus_switch (a : application_state) (new_state : Z) (ctrl : v4l2_control)
    : application_state * v4l2_control :=
  if focus_st a =? IDLE_FOCUS then
    if new_state =? AUTO_FOCUS_ENABLED then
      (set_focus_st AUTO_FOCUS_ENABLED a, new_ctrl V4L2_CID_FOCUS_AUTO 1)
    else if new_state =? SINGLE_FOCUS_START then
      (set_focus_st SINGLE_FOCUS_START a, new_ctrl V4L2_CID_AUTO_FOCUS_START 1)
    else (a, ctrl)
  else if focus_st a =? AUTO_FOCUS_ENABLED then
    if new_state =? AUTO_FOCUS_ENABLED then
      (set_focus_st IDLE_FOCUS a, new_ctrl V4L2_CID_FOCUS_AUTO 0)
    else if new_state =? FOCUS_PAUSE then
      (set_focus_st FOCUS_PAUSE a, new_ctrl V4L2_CID_3A_LOCK V4L2_LOCK_FOCUS)
    else if new_state =? SINGLE_FOCUS_START then
      (set_focus_st SINGLE_FOCUS_START a, new_ctrl V4L2_CID_AUTO_FOCUS_START 1)
    else (a, ctrl)
  else if focus_st a =? SINGLE_FOCUS_START then
    if new_state =? SINGLE_FOCUS_START then
      (set_focus_st SINGLE_FOCUS_START a, new_ctrl V4L2_CID_AUTO_FOCUS_START 1)
    else if new_state =? FOCUS_PAUSE then
      (set_focus_st FOCUS_PAUSE a, new_ctrl V4L2_CID_3A_LOCK V4L2_LOCK_FOCUS)
    else if new_state =? AUTO_FOCUS_ENABLED then
      (set_focus_st AUTO_FOCUS_ENABLED a, new_ctrl V4L2_CID_FOCUS_AUTO 1)
    else (a, ctrl)
  else if focus_st a =? FOCUS_PAUSE then
    if new_state =? AUTO_FOCUS_ENABLED then
      (set_focus_st AUTO_FOCUS_ENABLED a, new_ctrl V4L2_CID_FOCUS_AUTO 1)
    else if new_state =? SINGLE_FOCUS_START then
      (set_focus_st SINGLE_FOCUS_START a, new_ctrl V4L2_CID_AUTO_FOCUS_START 1)
    else (a, ctrl)
  else (set_focus_st IDLE_FOCUS a, ctrl).

(** [focus_state]: the local [ctrl] is declared without initialiser, the
    switch runs, and the ioctl is issued on every path. *)
Definition focus_state (new_state : Z) : M Z :=
  fun m =>
    let ctrl0 := stack_ctrl m in
    (c <- get_cap ;;
     upd_cap (set_app (fst (focus_switch (app c) new_state ctrl0))) ;;;
     c' <- get_cap ;;
     r <- ioctl (v4l2_subdev_fd c')
            (VIDIOC_S_CTRL (snd (focus_switch (app c) new_state ctrl0))) ;;
     ret (r_ret r)) m.

(** The new value of [test_state]: [%] is C's truncating remainder. *)
Definition next_test_state (cur state : Z) : Z :=
  if negb (state =? 0) then
    let t := Z.rem (to_int (cur + 1)) 4 in
    if t =? 0 then 1 else t
  else 0.

Definition test_pattern (state : Z) : M Z :=
  c <- get_cap ;;
  upd_cap (set_app (set_test_state (next_test_state (test_state (app c)) state) (app c))) ;;;
  c' <- get_cap ;;
  r <- ioctl (v4l2_subdev_fd c')
         (VIDIOC_S_CTRL (new_ctrl V4L2_CID_TEST_PATTERN (test_state (app c')))) ;;
  ret (r_ret r).

(** [print_key_functions] only writes to the log stream. *)
Definition print_key_functions : M unit := ret tt.

(** [do_key_event]; [keys[0]] is read only when [num_keys == 1]. *)
Definition do_key_event (keys : list ascii) (num_keys : Z) : M unit :=
  if num_keys =? 1 then
    match hd "000"%char keys with
    | "h"%char => print_key_functions
    | "a"%char => _ <- focus_state AUTO_FOCUS_ENABLED ;; ret tt
    | "f"%char => _ <- focus_state SINGLE_FOCUS_START ;; ret tt
    | "p"%char => _ <- focus_state FOCUS_PAUSE ;; ret tt
    | "t"%char => _ <- test_pattern 1 ;; ret tt
    | "l"%char => _ <- test_pattern 0 ;; ret tt
    | _ => ret tt
    end
  else ret tt.

(** *** The renderer ([display.c]) *)

(** The loop of [x11_process_pending_events] over the events the X server
    hands out; [quit] is its local. *)
Fixpoint process_events (evs : list xevent) (quit : Z) : M Z :=
  match evs with
  | [] => ret quit
  | KeyPress text keys :: rest =>
      d <- get_disp ;;
      match key_event d with
      | Some cb_do_key_event => do_key_event text keys
      | None => ret tt
      end ;;;
      process_events rest
        (if (keys =? 1) && Ascii.eqb (hd "000"%char text) "q"%char then 1 else quit)
  | _ :: rest => process_events rest quit
  end.

Definition x11_process_pending_events : M Z :=
  r <- sys XPending ;;
  process_events (r_xevents r) 0.

(** [render_nv12m_subs_tex], the function [camera_nv12m_setup] stores in
    [disp->render_func].  The GL calls are one call to the environment, whose
    [r_ret] is the error [glGetError] reports after [glUseProgram]. *)
Definition render_nv12m_subs_tex : M Z :=
  quit <- x11_process_pending_events ;;
  if negb (quit =? 0) then
    _ <- sys XCloseDisplay ;; ret 1
  else
    d <- get_disp ;;
    if (render_num_buffers d <? 2) || (zget (render_buffers d) 0 =? NULL)
       || (zget (render_buffers d) 1 =? NULL)
    then ret (-1)
    else
      g <- sys GlDraw ;;
      if negb (r_ret g =? 0) then ret (-1) else ret 0.

(** How one pass through the body of the [while] loop ends. *)
Inductive body_result :=
| BodyReturn (v : Z)   (* return v; *)
| BodyBreak            (* break; *)
| BodyNext (ret_ : Z). (* the end of the body, with the local ret *)

(** The body of the loop of [capture_display_yuv]. *)
Definition yuv_body : M body_result :=
  c <- get_cap ;;
  r <- ioctl (v4l2_fd c) VIDIOC_DQBUF ;;
  if r_ret r <? 0 then e <- get_errno ;; ret (BodyReturn e)
  else
    select_buffer (r_val r) ;;;
    rr <- render_nv12m_subs_tex ;;
    if rr <? 0 then e <- get_errno ;; ret (BodyReturn e)
    else if 0 <? rr then ret BodyBreak
    else
      c <- get_cap ;;
      q <- ioctl (v4l2_fd c) (VIDIOC_QBUF (r_val r)) ;;
      ret (BodyNext (r_ret q)).

(** [while (!ret && !signal_quit) { ... } return 0;] *)
Fixpoint yuv_loop (fuel : nat) (ret_ : Z) : M Z :=
  q <- get_signal_quit ;;
  if (ret_ =? 0) && (q =? 0) then
    match fuel with
    | O => fun m => (Spin, m)
    | S fuel' =>
        b <- yuv_body ;;
        match b with
        | BodyReturn v => ret v
        | BodyBreak => ret 0
        | BodyNext r => yuv_loop fuel' r
        end
    end
  else ret 0.

(** [camera_nv12m_setup] of [display.c].  Each step whose result the
    function tests is one call to the environment; between [egl_init] and
    the loading of the program it handles the pending X events, with the key
    callback [capture_and_display] has installed.  The label [cleanup] is
    [x11_close_display]: it closes the display [x11_create_window] opened,
    and has nothing to close when that step itself failed (the display
    context comes cleared from [main]); the two failures on the chroma plane
    return without it. *)
Definition camera_nv12m_setup : M Z :=
  w <- sys (DisplaySetup CreateWindow) ;;
  if r_ret w <? 0 then ret (-1)
  else
    e <- sys (DisplaySetup EglInit) ;;
    if r_ret e <? 0 then _ <- sys XCloseDisplay ;; ret (-1)
    else
      _ <- x11_process_pending_events ;;
      p <- sys (DisplaySetup LoadProgram) ;;
      if r_ret p =? 0 then _ <- sys XCloseDisplay ;; ret (-1)
      else
        l0 <- sys (DisplaySetup LumaLocation) ;;
        if r_ret l0 =? -1 then _ <- sys XCloseDisplay ;; ret (-1)
        else
          l1 <- sys (DisplaySetup ChromaLocation) ;;
          if r_ret l1 =? -1 then ret (-1)
          else
            t0 <- sys (DisplaySetup LumaTexture) ;;
            if negb (r_ret t0 =? 0) then _ <- sys XCloseDisplay ;; ret (-1)
            else
              t1 <- sys (DisplaySetup ChromaTexture) ;;
              if negb (r_ret t1 =? 0) then ret (-1)
              else ret 0.

Definition capture_display_yuv (fuel : nat) : M Z :=
  select_buffer 0 ;;;
  s <- camera_nv12m_setup ;;
  if negb (s =? 0) then ret (-1)
  else yuv_loop fuel s.

(** *** Devices, setup and the session driver *)

Definition get_subdevice (device : string) : M Z :=
  fd <- open device ;;
  if fd <? 0 then ret (-1) else ret fd.

Definition get_device (device : string) : M Z :=
  fd <- open device ;;
  if fd <? 0 then ret (-1)
  else
    q <- ioctl fd VIDIOC_QUERYCAP ;;
    let fd1 := if Z.land (r_val q) V4L2_CAP_VIDEO_CAPTURE_MPLANE =? 0 then -1 else fd in
    let fd2 := if Z.land (r_val q) V4L2_CAP_STREAMING =? 0 then -1 else fd1 in
    ret fd2.

(** The loops of [capture_setup] that set the DMA descriptors of the
    allocated buffers to the invalid descriptor. *)
Definition invalidate_dma_fds : M unit :=
  c <- get_cap ;;
  for_each (Z.to_nat (num_buf c)) 0 (fun i =>
    for_each (Z.to_nat (num_planes c)) 0 (fun p =>
      upd_cap (upd_buf i (set_dma_buf_fd p (-1))))).

(** [capture_setup] from the point where the granted count is stored:
    invalidate the descriptors, map, queue, start the stream; the label
    [cleanup] is the call of [capture_shutdown]. *)
Definition capture_setup_buffers (dma_export : Z) : M Z :=
  invalidate_dma_fds ;;;
  r <- map_buffers dma_export ;;
  if negb (r =? 0) then capture_shutdown ;;; ret r
  else
    c <- get_cap ;;
    r <- queue_buffers (v4l2_fd c) (num_buf c) ;;
    if negb (r =? 0) then capture_shutdown ;;; ret r
    else
      c <- get_cap ;;
      start_stream (v4l2_fd c).

Definition capture_setup (opt : options) : M Z :=
  upd_cap (set_format V4L2_BUF_TYPE_VIDEO_CAPTURE_MPLANE V4L2_MEMORY_MMAP 2) ;;;
  c <- get_cap ;;
  f <- ioctl (v4l2_fd c) (VIDIOC_S_FMT V4L2_PIX_FMT_NV12M (num_planes c)) ;;
  if r_ret f <? 0 then e <- get_errno ;; exit_ (- e)
  else
    q <- ioctl (v4l2_fd c)
           (VIDIOC_REQBUFS (to_u32 (buffer_count opt)) (type_ c) (memory c)) ;;
    if r_ret q <? 0 then e <- get_errno ;; exit_ (- e)
    else
      upd_cap (set_num_buf (to_int (r_val q))) ;;;
      capture_setup_buffers (dma_export opt).

(** [capture_and_display] once the stream runs: install the handler and
    the callback, run the loop, shut down. *)
Definition capture_session (fuel : nat) : M Z :=
  sigaction_SIGINT ;;;
  upd_disp (set_key_event (Some cb_do_key_event)) ;;;
  r <- capture_display_yuv fuel ;;
  capture_shutdown ;;;
  ret r.

Definition capture_and_display (fuel : nat) (opt : options) : M Z :=
  upd_cap (set_app {| focus_st := AUTO_FOCUS_ENABLED; test_state := 0 |}) ;;;
  fd <- get_device (dev_name opt) ;;
  upd_cap (set_v4l2_fd fd) ;;;
  if fd <? 0 then exit_ 1
  else
    sfd <- get_subdevice (subdev_name opt) ;;
    upd_cap (set_v4l2_subdev_fd sfd) ;;;
    if sfd <? 0 then exit_ 1
    else
      r <- capture_setup opt ;;
      if negb (r =? 0) then capture_shutdown ;;; ret r
      else capture_session fuel.

(** *** [main]: both contexts are cleared with [memset] *)

Definition cap_zero : capture_context :=
  {| buffers := replicate (Z.to_nat VIDEO_MAX_FRAME) zero_buf;
     app := {| focus_st := 0; test_state := 0 |};
     num_buf := 0; num_planes := 0; type_ := 0; memory := 0;
     v4l2_fd := 0; v4l2_subdev_fd := 0 |}.

Definition disp_zero : display_context :=
  {| key_event := None; render_num_buffers := 0;
     render_buffers := replicate (Z.to_nat MAX_RENDER_BUFFERS) NULL |}.

Definition boot (e : nat -> response) (garbage : v4l2_control) : machine :=
  {| cap := cap_zero; disp := disp_zero; signal_quit := 0; errno := 0;
     sigint_handler := false; stack_ctrl := garbage; env := e; calls := 0%nat;
     trace := [] |}.

(** * Specification side *)

(** ** The transition table of the device control state machine

    Written from the table of the design document: current state and command
    give the next state and the control to send, or nothing where the table
    defines no transition. *)

Module Table.

Inductive focus := Idle | AutoFocusEnabled | SingleFocusStart | FocusPause.
Inductive command := RequestAuto | RequestSingle | RequestPause.
Inductive control := EnableContinuousAF | DisableAF | TriggerSingleAF | LockFocus.

Definition transition (s : focus) (c : command) : option (focus * control) :=
  match s, c with
  | Idle, RequestAuto => Some (AutoFocusEnabled, EnableContinuousAF)
  | Idle, RequestSingle => Some (SingleFocusStart, TriggerSingleAF)
  | Idle, RequestPause => None
  | AutoFocusEnabled, RequestAuto => Some (Idle, DisableAF)
  | AutoFocusEnabled, RequestSingle => Some (SingleFocusStart, TriggerSingleAF)
  | AutoFocusEnabled, RequestPause => Some (FocusPause, LockFocus)
  | SingleFocusStart, RequestAuto => Some (AutoFocusEnabled, EnableContinuousAF)
  | SingleFocusStart, RequestSingle => Some (SingleFocusStart, TriggerSingleAF)
  | SingleFocusStart, RequestPause => Some (FocusPause, LockFocus)
  | FocusPause, RequestAuto => Some (AutoFocusEnabled, EnableContinuousAF)
  | FocusPause, RequestSingle => Some (SingleFocusStart, TriggerSingleAF)
  | FocusPause, RequestPause => None
  end.

(** How the program encodes states, commands and controls. *)
Definition focus_code (s : focus) : Z :=
  match s with
  | Idle => IDLE_FOCUS
  | AutoFocusEnabled => AUTO_FOCUS_ENABLED
  | SingleFocusStart => SINGLE_FOCUS_START
  | FocusPause => FOCUS_PAUSE
  end.

(** [do_key_event] passes the command as the state to step into. *)
Definition command_code (c : command) : Z :=
  match c with
  | RequestAuto => AUTO_FOCUS_ENABLED
  | RequestSingle => SINGLE_FOCUS_START
  | RequestPause => FOCUS_PAUSE
  end.

Definition control_request (k : control) : v4l2_control :=
  match k with
  | EnableContinuousAF => new_ctrl V4L2_CID_FOCUS_AUTO 1
  | DisableAF => new_ctrl V4L2_CID_FOCUS_AUTO 0
  | TriggerSingleAF => new_ctrl V4L2_CID_AUTO_FOCUS_START 1
  | LockFocus => new_ctrl V4L2_CID_3A_LOCK V4L2_LOCK_FOCUS
  end.

End Table.

(** ** Observations on a run *)

(** The events a computation adds to the log of [m]. *)
Definition added {A} (c : M A) (m : machine) : list event :=
  drop (length (trace m)) (trace (snd (c m))).

Definition calls_of (tr : list event) : list call := map ev_call tr.

(** The buffer indices queried, the addresses mmap returned, the indices
    queued, the addresses unmapped and the descriptors closed, in the order of
    the log. *)
Definition queried (tr : list event) : list Z :=
  omap (fun e => match ev_call e with
                 | Ioctl _ (VIDIOC_QUERYBUF i _) => Some i
                 | _ => None
                 end) tr.

Definition mapped (tr : list event) : list Z :=
  omap (fun e => match ev_call e with
                 | Mmap _ _ _ => Some (r_addr (ev_resp e))
                 | _ => None
                 end) tr.

Definition queued (tr : list event) : list Z :=
  omap (fun e => match ev_call e with
                 | Ioctl _ (VIDIOC_QBUF i) => Some i
                 | _ => None
                 end) tr.

Definition unmapped (tr : list event) : list Z :=
  omap (fun e => match ev_call e with
                 | Munmap a _ => Some a
                 | _ => None
                 end) tr.

Definition closed (tr : list event) : list Z :=
  omap (fun e => match ev_call e with
                 | Close fd => Some fd
                 | _ => None
                 end) tr.

(** ** What a computation may do

    [behaves md cls c]: from every machine, [c] ends in a way [md] allows,
    leaves a raised stop flag raised, and adds to the log only calls of the
    class [cls]. *)

Inductive mode :=
| Total      (* always returns *)
| MaySpin    (* returns, or is still looping when the fuel ends *)
| MayExit.   (* may also end the process with exit() *)

Definition allowed {A} (md : mode) (o : outcome A) : Prop :=
  match o with
  | Ret _ => True
  | Spin => md <> Total
  | Exit _ => md = MayExit
  end.

Definition behaves {A} (md : mode) (cls : call -> bool) (c : M A) : Prop :=
  forall m,
    allowed md (fst (c m)) /\
    (signal_quit m <> 0 -> signal_quit (snd (c m)) <> 0) /\
    exists ext, trace (snd (c m)) = trace m ++ ext /\
                Forall (fun e => cls (ev_call e) = true) ext.

(** Classes of calls. *)
Definition any_call (k : call) : bool := true.

Definition display_call (k : call) : bool :=
  match k with
  | Ioctl _ (VIDIOC_S_CTRL _) | XPending | XCloseDisplay | GlDraw => true
  | _ => false
  end.

(** The calls made while the X events are handled and the display is
    closed, and those of the display setup. *)
Definition control_call (k : call) : bool :=
  match k with
  | Ioctl _ (VIDIOC_S_CTRL _) | XPending | XCloseDisplay => true
  | _ => false
  end.

Definition window_call (k : call) : bool :=
  match k with
  | Ioctl _ (VIDIOC_S_CTRL _) | XPending | XCloseDisplay | DisplaySetup _ => true
  | _ => false
  end.

Definition teardown_call (k : call) : bool :=
  match k with
  | Ioctl _ VIDIOC_STREAMOFF | Ioctl _ (VIDIOC_REQBUFS _ _ _) | Close _ | Munmap _ _ => true
  | _ => false
  end.

Definition release_call (k : call) : bool :=
  match k with
  | Close _ | Munmap _ _ => true
  | _ => false
  end.

Definition map_call (k : call) : bool :=
  match k with
  | Ioctl _ (VIDIOC_QUERYBUF _ _) | Ioctl _ (VIDIOC_EXPBUF _ _) | Mmap _ _ _ => true
  | _ => false
  end.

(** Opening the devices, setting the format and requesting buffers. *)
Definition setup_call (k : call) : bool :=
  match k with
  | Open _ | Ioctl _ VIDIOC_QUERYCAP | Ioctl _ (VIDIOC_S_FMT _ _)
  | Ioctl _ (VIDIOC_REQBUFS _ _ _) => true
  | _ => false
  end.

Definition is_dqbuf (k : call) : bool :=
  match k with
  | Ioctl _ VIDIOC_DQBUF => true
  | _ => false
  end.

Definition is_qbuf (k : call) : bool :=
  match k with
  | Ioctl _ (VIDIOC_QBUF _) => true
  | _ => false
  end.

Definition not_dqbuf (k : call) : bool := negb (is_dqbuf k).

(** Neither a dequeue nor a queue request. *)
Definition neutral_call (k : call) : bool := negb (is_dqbuf k) && negb (is_qbuf k).

(** The members of the capture context that are fixed once the buffers are
    requested. *)
Definition geometry (c : capture_context) : Z * Z * Z * Z * Z * Z :=
  (num_buf c, num_planes c, type_ c, memory c, v4l2_fd c, v4l2_subdev_fd c).

Definition keeps_geometry {A} (c : M A) : Prop :=
  forall m, geometry (cap (snd (c m))) = geometry (cap m).

(** ** Teardown as it shows in the log: the stream is stopped, then planes
    are closed and unmapped, then zero buffers are requested. *)

Definition teardown_log (tr : list event) : Prop :=
  exists e1 mid e2 fd ty mem,
    tr = [e1] ++ mid ++ [e2] /\
    ev_call e1 = Ioctl fd VIDIOC_STREAMOFF /\
    Forall (fun e => release_call (ev_call e) = true) mid /\
    ev_call e2 = Ioctl fd (VIDIOC_REQBUFS 0 ty mem).

Definition ends_with_teardown (tr : list event) : Prop :=
  exists pre td, tr = pre ++ td /\ teardown_log td.

(** A call of the session that fails once the buffers are requested: a
    buffer not queried, mapped, exported, queued or dequeued, the stream not
    started, a step of the display setup or the draw call failed.  (A failed
    mmap or VIDIOC_EXPBUF is reported to the caller as [-errno]; the entry
    counts as failed when the call left an errno, as a failed call does.) *)
Definition fatal_failure (e : event) : bool :=
  let r := ev_resp e in
  match ev_call e with
  | Ioctl _ (VIDIOC_QUERYBUF _ _) | Ioctl _ (VIDIOC_QBUF _) | Ioctl _ VIDIOC_DQBUF =>
      r_ret r <? 0
  | Ioctl _ (VIDIOC_EXPBUF _ _) => (r_ret r <? 0) && negb (r_errno r =? 0)
  | Mmap _ _ _ => (r_addr r =? MAP_FAILED) && negb (r_errno r =? 0)
  | Ioctl _ VIDIOC_STREAMON => negb (r_ret r =? 0)
  | DisplaySetup CreateWindow | DisplaySetup EglInit => r_ret r <? 0
  | DisplaySetup LoadProgram => r_ret r =? 0
  | DisplaySetup LumaLocation | DisplaySetup ChromaLocation => r_ret r =? -1
  | DisplaySetup LumaTexture | DisplaySetup ChromaTexture => negb (r_ret r =? 0)
  | GlDraw => negb (r_ret r =? 0)
  | _ => false
  end.

Definition unfailed (e : event) : Prop := fatal_failure e = false.

(** A call that fails while the devices are opened and checked, the format
    is set and the buffers are requested. *)
Definition startup_failure (e : event) : bool :=
  let r := ev_resp e in
  match ev_call e with
  | Open _ | Ioctl _ (VIDIOC_S_FMT _ _) | Ioctl _ (VIDIOC_REQBUFS _ _ _) => r_ret r <? 0
  | Ioctl _ VIDIOC_QUERYCAP =>
      (Z.land (r_val r) V4L2_CAP_VIDEO_CAPTURE_MPLANE =? 0) ||
      (Z.land (r_val r) V4L2_CAP_STREAMING =? 0)
  | _ => false
  end.


(** The number of dequeue requests in a log: the passes the capture loop
    has begun. *)
Definition dequeues (tr : list event) : nat :=
  length (List.filter (fun e => is_dqbuf (ev_call e)) tr).

(** The first call of a log is none of those of the startup; a log that
    has gone through the startup without a failure. *)
Definition starts_past_startup (tr : list event) : Prop :=
  exists e rest, tr = e :: rest /\ setup_call (ev_call e) = false.

Definition past_startup (tr : list event) : Prop :=
  exists good rest,
    tr = good ++ rest /\
    Forall (fun x => startup_failure x = false) good /\
    starts_past_startup rest.

(** A loop step returns [None] to go on and [Some v] to return [v]; the
    value 0 is success. *)
Definition went_well (o : option Z) : Prop :=
  match o with
  | Some v => v = 0
  | None => True
  end.

(** The loop condition [!ret && !signal_quit]. *)
Definition loop_condition (ret_ : Z) (m : machine) : bool :=
  (ret_ =? 0) && (signal_quit m =? 0).

(** ** Buffer ownership, read off the log

    A buffer is owned by the application from the VIDIOC_DQBUF that hands it
    out to the VIDIOC_QBUF that gives it back. *)

Fixpoint remove_one (i : Z) (l : list Z) : list Z :=
  match l with
  | [] => []
  | x :: l' => if x =? i then l' else x :: remove_one i l'
  end.

Definition own_step (owned : list Z) (e : event) : list Z :=
  match ev_call e with
  | Ioctl _ VIDIOC_DQBUF =>
      if r_ret (ev_resp e) <? 0 then owned else r_val (ev_resp e) :: owned
  | Ioctl _ (VIDIOC_QBUF i) =>
      if r_ret (ev_resp e) <? 0 then owned else remove_one i owned
  | _ => owned
  end.

Definition owned_from (owned : list Z) (tr : list event) : list Z :=
  fold_left own_step tr owned.

(** The buffers the application owns after the events [tr] of a run. *)
Definition app_owned (tr : list event) : list Z := owned_from [] tr.

(** At every point of [tr], started with [owned], at most one buffer is
    owned by the application. *)
Fixpoint at_most_one (owned : list Z) (tr : list event) : Prop :=
  match tr with
  | [] => (length owned <= 1)%nat
  | e :: tr' => (length owned <= 1)%nat /\ at_most_one (own_step owned e) tr'
  end.

(** ** The buffer pool, read off the context *)

Definition addr_at (c : capture_context) (i p : Z) : Z := zget (addr (buf_at c i)) p.
Definition dma_at (c : capture_context) (i p : Z) : Z := zget (dma_buf_fd (buf_at c i)) p.
Definition index_at (c : capture_context) (i : Z) : Z := buf_index (v4l2buf (buf_at c i)).

(** The arrays have the sizes the C declarations give them. *)
Definition wf_buf (b : video_buf_map) : Prop :=
  length (addr b) = Z.to_nat VIDEO_MAX_PLANES /\
  length (dma_buf_fd b) = Z.to_nat VIDEO_MAX_PLANES.

Definition wf_cap (c : capture_context) : Prop :=
  length (buffers c) = Z.to_nat VIDEO_MAX_FRAME /\ Forall wf_buf (buffers c).

(** [i, i + 1, ..., i + n - 1] *)
Fixpoint indices (n : nat) (i : Z) : list Z :=
  match n with
  | O => []
  | S n' => i :: indices n' (i + 1)
  end.

(** The addresses of the two planes of the buffers [i, ..., i + n - 1]. *)
Definition plane_addrs (c : capture_context) (n : nat) (i : Z) : list Z :=
  flat_map (fun j => [addr_at c j 0; addr_at c j 1]) (indices n i).

Definition valid_address (a : Z) : Prop := a <> NULL /\ a <> MAP_FAILED.

(** A call that succeeds: the int returned is 0 and the pointer returned is
    a mapping. *)
Definition succeeds (r : response) : Prop :=
  r_ret r = 0 /\ r_addr r <> NULL /\ r_addr r <> MAP_FAILED.

(** [c'] differs from [c] at most in buffer [i], and not in its DMA
    descriptors. *)
Definition touches (i : Z) (c c' : capture_context) : Prop :=
  geometry c' = geometry c /\
  (wf_cap c -> wf_cap c') /\
  (forall j q, dma_at c' j q = dma_at c j q) /\
  (forall j, Z.to_nat j <> Z.to_nat i -> buf_at c' j = buf_at c j).

(** ** Key events *)

(** The keys [do_key_event] has a case for. *)
Definition bound_key (k : ascii) : bool :=
  existsb (Ascii.eqb k) ["h"; "a"; "f"; "p"; "t"; "l"]%char.

(** ** Concrete machines and environments *)

(** A response that reports plain success, and a scripted environment. *)
Definition ok_response : response :=
  {| r_ret := 0; r_errno := 0; r_val := 0; r_addr := 4096; r_planes := [];
     r_xevents := []; r_sigint := false |}.

Definition fail_response (e : Z) : response :=
  {| r_ret := -1; r_errno := e; r_val := 0; r_addr := MAP_FAILED; r_planes := [];
     r_xevents := []; r_sigint := false |}.

Definition value_response (ret_ v : Z) : response :=
  {| r_ret := ret_; r_errno := 0; r_val := v; r_addr := 4096; r_planes := [];
     r_xevents := []; r_sigint := false |}.

Definition events_response (evs : list xevent) : response :=
  {| r_ret := 0; r_errno := 0; r_val := 0; r_addr := 4096; r_planes := [];
     r_xevents := evs; r_sigint := false |}.

Definition address_response (a : Z) : response :=
  {| r_ret := 0; r_errno := 0; r_val := 0; r_addr := a;
     r_planes := [ {| pl_length := 2073600; pl_mem_offset := 0 |};
                   {| pl_length := 1036800; pl_mem_offset := 2076672 |} ];
     r_xevents := []; r_sigint := false |}.

Definition script (l : list response) (d : response) : nat -> response :=
  fun n => nth n l d.

Definition garbage : v4l2_control := new_ctrl 0xdead 0xbeef.

Definition default_options : options :=
  {| buffer_count := 4; dma_export := 0;
     dev_name := "/dev/video3"; subdev_name := "/dev/v4l-subdev10" |}.

(** The machine of [main] with the application state set to [a]. *)
Definition machine_with_app (e : nat -> response) (a : application_state) : machine :=
  set_cap (set_app a cap_zero) (boot e garbage).

(** Buffer [i] of a pool that is mapped: plane [p] at page [2 i + p + 1]. *)
Definition mapped_buf (i : Z) : video_buf_map :=
  {| length_ := [2073600; 1036800] ++ replicate 6%nat 0;
     addr := [4096 * (2 * i + 1); 4096 * (2 * i + 2)] ++ replicate 6%nat NULL;
     dma_buf_fd := replicate 8%nat (-1);
     v4l2planes := replicate 8%nat zero_plane;
     v4l2buf := {| buf_index := i; buf_type := V4L2_BUF_TYPE_VIDEO_CAPTURE_MPLANE;
                   buf_memory := V4L2_MEMORY_MMAP; buf_length := 4 |} |}.

(** The capture context once four buffers are mapped and queued. *)
Definition streaming_cap : capture_context :=
  {| buffers := map mapped_buf [0; 1; 2; 3] ++ replicate 28%nat zero_buf;
     app := {| focus_st := AUTO_FOCUS_ENABLED; test_state := 0 |};
     num_buf := 4; num_planes := 2;
     type_ := V4L2_BUF_TYPE_VIDEO_CAPTURE_MPLANE; memory := V4L2_MEMORY_MMAP;
     v4l2_fd := 3; v4l2_subdev_fd := 4 |}.

(** The machine at the head of the capture loop. *)
Definition streaming (e : nat -> response) : machine :=
  {| cap := streaming_cap; disp := set_key_event (Some cb_do_key_event) disp_zero;
     signal_quit := 0; errno := 0; sigint_handler := true; stack_ctrl := garbage;
     env := e; calls := 0%nat; trace := [] |}.

(** A context with one buffer whose two planes are mapped and exported. *)
Definition exported_buf : video_buf_map :=
  {| length_ := [2073600; 1036800] ++ replicate 6%nat 0;
     addr := [0x10000; 0x20000] ++ replicate 6%nat NULL;
     dma_buf_fd := [7; 8] ++ replicate 6%nat (-1);
     v4l2planes := replicate 8%nat zero_plane;
     v4l2buf := {| buf_index := 0; buf_type := V4L2_BUF_TYPE_VIDEO_CAPTURE_MPLANE;
                   buf_memory := V4L2_MEMORY_MMAP; buf_length := 1 |} |}.

Definition exported_machine : machine :=
  set_cap (set_buffers (exported_buf :: replicate 31%nat zero_buf)
             (set_num_buf 1 streaming_cap))
          (boot (fun _ => ok_response) garbage).

(** Buffer 2 is dequeued and the user presses q. *)
Definition env_quit : nat -> response :=
  script [value_response 0 2; events_response [KeyPress ["q"%char] 1]] ok_response.

(** Buffer 2 is dequeued and drawn, no key is pressed. *)
Definition env_continue : nat -> response :=
  script [value_response 0 2] ok_response.

(** SIGINT arrives while the loop waits for buffer 1. *)
Definition env_sigint : nat -> response :=
  script [ {| r_ret := 0; r_errno := 0; r_val := 1; r_addr := 0; r_planes := [];
              r_xevents := []; r_sigint := true |} ] ok_response.





(** Four buffers are granted; the planes of buffers 0 and 1 are mapped, and
    mmap fails with ENOMEM on the first plane of buffer 2. *)
Definition env_map_fails : nat -> response :=
  script [ value_response 3 0;
           value_response 0 (Z.lor V4L2_CAP_VIDEO_CAPTURE_MPLANE V4L2_CAP_STREAMING);
           value_response 4 0;
           ok_response;
           value_response 0 4;
           address_response 0; address_response 0x10000; address_response 0x20000;
           address_response 0; address_response 0x30000; address_response 0x40000;
           address_response 0; fail_response 12 ] ok_response.

(** The device grants [granted] buffers and every call succeeds. *)
Definition env_grants (granted : Z) : nat -> response :=
  fun n => if (n =? 1)%nat then value_response 0 granted else address_response 0x10000.

(** * Proofs *)

(** ** Running single steps *)

Lemma added_snoc {A} (c : M A) (m : machine) (ext : list event) :
  trace (snd (c m)) = trace m ++ ext -> added c m = ext.
Proof. intros H. unfold added. rewrite H. apply drop_app_length. Qed.

(** The machine after the call [k] was answered. *)
Lemma sys_run (k : call) (m : machine) :
  exists m', sys k m = (Ret (env m (calls m)), m') /\
    cap m' = cap m /\ disp m' = disp m /\ env m' = env m /\
    stack_ctrl m' = stack_ctrl m /\ calls m' = S (calls m) /\
    sigint_handler m' = sigint_handler m /\
    trace m' = trace m ++
      [{| ev_call := k; ev_resp := env m (calls m); ev_app := app (cap m) |}] /\
    signal_quit m' =
      (if r_sigint (env m (calls m)) && sigint_handler m then 1 else signal_quit m).
Proof.
  unfold sys. eexists; split; [reflexivity|].
  cbn [sigint_handler log].
  destruct (r_sigint _ && _); simpl; auto 10.
Qed.

Lemma ioctl_run (fd : Z) (q : request) (m : machine) :
  exists m', ioctl fd q m = (Ret (env m (calls m)), m') /\
    cap m' = cap m /\ disp m' = disp m /\ env m' = env m /\
    stack_ctrl m' = stack_ctrl m /\ calls m' = S (calls m) /\
    sigint_handler m' = sigint_handler m /\
    trace m' = trace m ++
      [{| ev_call := Ioctl fd q; ev_resp := env m (calls m); ev_app := app (cap m) |}] /\
    signal_quit m' =
      (if r_sigint (env m (calls m)) && sigint_handler m then 1 else signal_quit m).
Proof.
  unfold ioctl, sys_int, bind.
  destruct (sys_run (Ioctl fd q) m) as (m1 & -> & Hc & Hd & He & Hs & Hn & Hh & Ht & Hq).
  unfold set_errno_if, ret. eexists; split; [reflexivity|].
  destruct (r_ret _ <? 0); simpl; auto 10.
Qed.

(** ** The focus state machine *)

(** What [focus_state] does in full: the state after the switch is stored,
    then one control request is issued with whatever [ctrl] holds. *)
Lemma focus_state_run (new_state : Z) (m : machine) :
  exists m',
    focus_state new_state m = (Ret (r_ret (env m (calls m))), m') /\
    app (cap m') = fst (focus_switch (app (cap m)) new_state (stack_ctrl m)) /\
    v4l2_subdev_fd (cap m') = v4l2_subdev_fd (cap m) /\
    buffers (cap m') = buffers (cap m) /\
    trace m' = trace m ++
      [{| ev_call := Ioctl (v4l2_subdev_fd (cap m))
            (VIDIOC_S_CTRL (snd (focus_switch (app (cap m)) new_state (stack_ctrl m))));
          ev_resp := env m (calls m);
          ev_app := fst (focus_switch (app (cap m)) new_state (stack_ctrl m)) |}].
Proof.
  unfold focus_state, bind, get_cap, upd_cap. cbn [fst snd].
  match goal with |- context [ioctl ?fd ?q ?m0] =>
    destruct (ioctl_run fd q m0) as (m1 & -> & Hc & _ & _ & _ & _ & _ & Ht & _) end.
  unfold ret. eexists; split; [reflexivity|].
  rewrite Hc, Ht. simpl. auto.
Qed.

(** C1.  On every pair of the table that defines a transition, [focus_state]
    stores the next state of the table and sends exactly the control of the
    table.  On the two pairs without a transition (Idle or FocusPause with
    RequestPause) the state stays as it is, and yet a control request is
    sent to the subdevice: it carries the content of the uninitialised local
    [ctrl]. *)
Theorem focus_state_table_and_stray_request
    (s : Table.focus) (c : Table.command) (m : machine) :
  focus_st (app (cap m)) = Table.focus_code s ->
  fst (focus_state (Table.command_code c) m) = Ret (r_ret (env m (calls m))) /\
  match Table.transition s c with
  | Some (s', k) =>
      focus_st (app (cap (snd (focus_state (Table.command_code c) m)))) =
        Table.focus_code s' /\
      calls_of (added (focus_state (Table.command_code c)) m) =
        [Ioctl (v4l2_subdev_fd (cap m)) (VIDIOC_S_CTRL (Table.control_request k))]
  | None =>
      app (cap (snd (focus_state (Table.command_code c) m))) = app (cap m) /\
      calls_of (added (focus_state (Table.command_code c)) m) =
        [Ioctl (v4l2_subdev_fd (cap m)) (VIDIOC_S_CTRL (stack_ctrl m))]
  end.
Proof.
  intros Hs.
  destruct (focus_state_run (Table.command_code c) m) as (m' & Hrun & Happ & _ & _ & Ht).
  rewrite (added_snoc _ _ _ (eq_trans (f_equal (fun x => trace (snd x)) Hrun) Ht)).
  rewrite Hrun. cbn [fst snd]. rewrite Happ. split; [reflexivity|].
  unfold focus_switch. rewrite Hs.
  destruct s, c; simpl; auto.
Qed.

(** The pair Idle, RequestPause on the machine of [main]. *)
Lemma focus_state_table_and_stray_request_witness :
  calls_of (added (focus_state FOCUS_PAUSE)
              (machine_with_app (fun _ => ok_response)
                 {| focus_st := IDLE_FOCUS; test_state := 0 |})) =
    [Ioctl 0 (VIDIOC_S_CTRL garbage)].
Proof.
  exact (proj2 (proj2 (focus_state_table_and_stray_request Table.Idle Table.RequestPause
    (machine_with_app (fun _ => ok_response) {| focus_st := IDLE_FOCUS; test_state := 0 |})
    eq_refl))).
Defined.

(** ** The test pattern counter *)

Lemma test_pattern_run (state : Z) (m : machine) :
  exists m',
    test_pattern state m = (Ret (r_ret (env m (calls m))), m') /\
    app (cap m') =
      set_test_state (next_test_state (test_state (app (cap m))) state) (app (cap m)) /\
    v4l2_subdev_fd (cap m') = v4l2_subdev_fd (cap m) /\
    buffers (cap m') = buffers (cap m) /\
    trace m' = trace m ++
      [{| ev_call := Ioctl (v4l2_subdev_fd (cap m))
            (VIDIOC_S_CTRL (new_ctrl V4L2_CID_TEST_PATTERN
               (next_test_state (test_state (app (cap m))) state)));
          ev_resp := env m (calls m);
          ev_app := set_test_state (next_test_state (test_state (app (cap m))) state)
                      (app (cap m)) |}].
Proof.
  unfold test_pattern, bind, get_cap, upd_cap. cbn [fst snd].
  match goal with |- context [ioctl ?fd ?q ?m0] =>
    destruct (ioctl_run fd q m0) as (m1 & -> & Hc & _ & _ & _ & _ & _ & Ht & _) end.
  unfold ret. eexists; split; [reflexivity|].
  rewrite Hc, Ht. simpl. auto.
Qed.

Lemma test_state_after_test_pattern (state : Z) (m : machine) :
  test_state (app (cap (snd (test_pattern state m)))) =
    next_test_state (test_state (app (cap m))) state.
Proof.
  destruct (test_pattern_run state m) as (m' & -> & Happ & _).
  cbn [snd]. rewrite Happ. reflexivity.
Qed.

Lemma next_test_state_cycle_nonzero (cur state : Z) :
  state <> 0 -> next_test_state cur state <> 0.
Proof.
  intros Hs. unfold next_test_state.
  destruct (Z.eqb_spec state 0) as [|_]; [contradiction|]. cbn [negb].
  destruct (Z.eqb_spec (Z.rem (to_int (cur + 1)) 4) 0); lia.
Qed.

(** C8.  From live view (0), cycle requests set the test pattern state to
    1, 2, 3 and then to 1 again; a cycle request never leaves the state at 0,
    whatever it was; a live request sets it to 0 from any state. *)
Theorem test_pattern_cycles_1_2_3 :
  (forall (m : machine) (s1 s2 s3 s4 : Z),
     test_state (app (cap m)) = 0 ->
     s1 <> 0 -> s2 <> 0 -> s3 <> 0 -> s4 <> 0 ->
     let m1 := snd (test_pattern s1 m) in
     let m2 := snd (test_pattern s2 m1) in
     let m3 := snd (test_pattern s3 m2) in
     let m4 := snd (test_pattern s4 m3) in
     test_state (app (cap m1)) = 1 /\ test_state (app (cap m2)) = 2 /\
     test_state (app (cap m3)) = 3 /\ test_state (app (cap m4)) = 1) /\
  (forall (m : machine) (s : Z),
     s <> 0 -> test_state (app (cap (snd (test_pattern s m)))) <> 0) /\
  (forall (m : machine),
     test_state (app (cap (snd (test_pattern 0 m)))) = 0).
Proof.
  split; [|split].
  - intros m s1 s2 s3 s4 H0 H1 H2 H3 H4. cbn zeta.
    rewrite !test_state_after_test_pattern, H0.
    unfold next_test_state.
    destruct (Z.eqb_spec s1 0) as [|_]; [contradiction|].
    destruct (Z.eqb_spec s2 0) as [|_]; [contradiction|].
    destruct (Z.eqb_spec s3 0) as [|_]; [contradiction|].
    destruct (Z.eqb_spec s4 0) as [|_]; [contradiction|].
    repeat split; reflexivity.
  - intros m s Hs. rewrite test_state_after_test_pattern.
    now apply next_test_state_cycle_nonzero.
  - intros m. rewrite test_state_after_test_pattern. reflexivity.
Qed.

(** Four presses of [t] after start-up, each request rejected by the device. *)
Lemma test_pattern_cycles_1_2_3_witness :
  let m := boot (fun _ => fail_response 22) garbage in
  let m1 := snd (test_pattern 1 m) in
  let m2 := snd (test_pattern 1 m1) in
  let m3 := snd (test_pattern 1 m2) in
  let m4 := snd (test_pattern 1 m3) in
  test_state (app (cap m1)) = 1 /\ test_state (app (cap m2)) = 2 /\
  test_state (app (cap m3)) = 3 /\ test_state (app (cap m4)) = 1.
Proof.
  apply (proj1 test_pattern_cycles_1_2_3
           (boot (fun _ => fail_response 22) garbage) 1 1 1 1); [reflexivity | lia ..].
Defined.

(** ** Commit before request *)

(** C7.  A defined focus transition stores the next state and then issues
    its one control request: the application state in memory at the time of
    the request already holds the next state, and the state after the call is
    that same state whatever the request returns, a failure included.  The
    same holds for every test pattern request. *)
Theorem control_state_committed_before_request :
  (forall (s s' : Table.focus) (c : Table.command) (k : Table.control) (m : machine),
     focus_st (app (cap m)) = Table.focus_code s ->
     Table.transition s c = Some (s', k) ->
     let run := focus_state (Table.command_code c) m in
     fst run = Ret (r_ret (env m (calls m))) /\
     added (focus_state (Table.command_code c)) m =
       [{| ev_call := Ioctl (v4l2_subdev_fd (cap m))
                        (VIDIOC_S_CTRL (Table.control_request k));
           ev_resp := env m (calls m);
           ev_app := app (cap (snd run)) |}] /\
     focus_st (app (cap (snd run))) = Table.focus_code s' /\
     test_state (app (cap (snd run))) = test_state (app (cap m))) /\
  (forall (state : Z) (m : machine),
     let run := test_pattern state m in
     fst run = Ret (r_ret (env m (calls m))) /\
     added (test_pattern state) m =
       [{| ev_call := Ioctl (v4l2_subdev_fd (cap m))
                        (VIDIOC_S_CTRL (new_ctrl V4L2_CID_TEST_PATTERN
                           (test_state (app (cap (snd run))))));
           ev_resp := env m (calls m);
           ev_app := app (cap (snd run)) |}] /\
     test_state (app (cap (snd run))) =
       next_test_state (test_state (app (cap m))) state /\
     focus_st (app (cap (snd run))) = focus_st (app (cap m))).
Proof.
  split.
  - intros s s' c k m Hs Htab. cbn zeta.
    destruct (focus_state_run (Table.command_code c) m) as (m' & Hrun & Happ & _ & _ & Ht).
    rewrite (added_snoc _ _ _ (eq_trans (f_equal (fun x => trace (snd x)) Hrun) Ht)).
    rewrite Hrun. cbn [fst snd]. rewrite Happ.
    unfold focus_switch. rewrite Hs.
    destruct s, c; simpl in Htab; inversion Htab; subst; simpl; auto.
  - intros state m. cbn zeta.
    destruct (test_pattern_run state m) as (m' & Hrun & Happ & _ & _ & Ht).
    rewrite (added_snoc _ _ _ (eq_trans (f_equal (fun x => trace (snd x)) Hrun) Ht)).
    rewrite Hrun. cbn [fst snd]. rewrite Happ. simpl. auto.
Qed.

(** Idle with RequestAuto while the device rejects the request with EINVAL:
    the call returns -1 and the state is AutoFocusEnabled. *)
Lemma control_state_committed_before_request_witness :
  let m := machine_with_app (fun _ => fail_response 22)
             {| focus_st := IDLE_FOCUS; test_state := 0 |} in
  fst (focus_state AUTO_FOCUS_ENABLED m) = Ret (-1) /\
  focus_st (app (cap (snd (focus_state AUTO_FOCUS_ENABLED m)))) = AUTO_FOCUS_ENABLED.
Proof.
  pose proof (proj1 control_state_committed_before_request
    Table.Idle Table.AutoFocusEnabled Table.RequestAuto Table.EnableContinuousAF
    (machine_with_app (fun _ => fail_response 22)
       {| focus_st := IDLE_FOCUS; test_state := 0 |}) eq_refl eq_refl) as H.
  cbn zeta in *. split; [exact (proj1 H) | exact (proj1 (proj2 (proj2 H)))].
Defined.

(** ** Key events *)

(** C10.  [do_key_event] does nothing at all (no state change, no call)
    unless the event holds exactly one key and that key is one of h, a, f, p,
    t, l. *)
Theorem do_key_event_ignores_other_events
    (keys : list ascii) (num_keys : Z) (m : machine) :
  num_keys <> 1 \/ bound_key (hd "000"%char keys) = false ->
  do_key_event keys num_keys m = (Ret tt, m).
Proof.
  intros H. unfold do_key_event.
  destruct (Z.eqb_spec num_keys 1) as [Heq|Hne]; [|reflexivity].
  destruct H as [H|H]; [contradiction|].
  destruct (hd "000"%char keys) as [b0 b1 b2 b3 b4 b5 b6 b7].
  destruct b0, b1, b2, b3, b4, b5, b6, b7;
    first [discriminate H | reflexivity].
Qed.

(** Two keys at once, and the single key [x]. *)
Lemma do_key_event_ignores_other_events_witness :
  let m := boot (fun _ => ok_response) garbage in
  do_key_event ["a"; "f"]%char 2 m = (Ret tt, m) /\
  do_key_event ["x"]%char 1 m = (Ret tt, m).
Proof.
  split.
  - apply do_key_event_ignores_other_events. left. lia.
  - apply do_key_event_ignores_other_events. right. reflexivity.
Defined.

(** ** Composition rules for [behaves] *)

Lemma allowed_weaken {A} (md md' : mode) (o : outcome A) :
  (md = Total \/ md' = MayExit \/ md = md') -> allowed md o -> allowed md' o.
Proof.
  intros H Ha. destruct o; simpl in *; auto;
    destruct H as [->|[->| ->]]; auto; congruence.
Qed.

Lemma behaves_weaken {A} (md md' : mode) (cls cls' : call -> bool) (c : M A) :
  (md = Total \/ md' = MayExit \/ md = md') ->
  (forall k, cls k = true -> cls' k = true) ->
  behaves md cls c -> behaves md' cls' c.
Proof.
  intros Hm Hc H m. destruct (H m) as (Ha & Hq & ext & Ht & Hf). split; [|split].
  - eapply allowed_weaken; eauto.
  - exact Hq.
  - exists ext. split; [exact Ht|]. eapply Forall_impl; [exact Hf|]. simpl. auto.
Qed.

Lemma behaves_ret {A} md cls (a : A) : behaves md cls (ret a).
Proof.
  intros m. split; [exact I|]. split; [auto|].
  exists []. simpl. rewrite app_nil_r. auto.
Qed.

Lemma behaves_bind {A B} md cls (c : M A) (k : A -> M B) :
  behaves md cls c -> (forall a, behaves md cls (k a)) -> behaves md cls (bind c k).
Proof.
  intros Hc Hk m. unfold bind.
  destruct (Hc m) as (Ha & Hq & ext & Ht & Hf).
  destruct (c m) as [[a|code|] m1]; simpl in *.
  - destruct (Hk a m1) as (Ha' & Hq' & ext' & Ht' & Hf'). split; [exact Ha'|].
    split; [auto|].
    exists (ext ++ ext'). rewrite Ht', Ht, app_assoc. split; [reflexivity|].
    apply Forall_app; auto.
  - split; [exact Ha|]. split; [exact Hq|]. exists ext. auto.
  - split; [exact Ha|]. split; [exact Hq|]. exists ext. auto.
Qed.

(** A step that returns and leaves the log and the stop flag alone. *)
Lemma behaves_silent {A} md cls (c : M A) :
  (forall m, exists a m', c m = (Ret a, m') /\ trace m' = trace m /\
                          signal_quit m' = signal_quit m) ->
  behaves md cls c.
Proof.
  intros H m. destruct (H m) as (a & m' & -> & Ht & Hq). split; [exact I|].
  split; [simpl; congruence|].
  exists []. simpl. rewrite app_nil_r. auto.
Qed.

Lemma behaves_get_cap md cls : behaves md cls get_cap.
Proof. apply behaves_silent. intros m. eexists _, _. repeat split. Qed.

Lemma behaves_upd_cap md cls f : behaves md cls (upd_cap f).
Proof. apply behaves_silent. intros m. eexists _, _. repeat split. Qed.

Lemma behaves_get_disp md cls : behaves md cls get_disp.
Proof. apply behaves_silent. intros m. eexists _, _. repeat split. Qed.

Lemma behaves_upd_disp md cls f : behaves md cls (upd_disp f).
Proof. apply behaves_silent. intros m. eexists _, _. repeat split. Qed.

Lemma behaves_get_errno md cls : behaves md cls get_errno.
Proof. apply behaves_silent. intros m. eexists _, _. repeat split. Qed.

Lemma behaves_get_signal_quit md cls : behaves md cls get_signal_quit.
Proof. apply behaves_silent. intros m. eexists _, _. repeat split. Qed.

Lemma behaves_set_errno_if md cls b r : behaves md cls (set_errno_if b r).
Proof.
  apply behaves_silent. intros m. unfold set_errno_if.
  eexists _, _. split; [reflexivity|]. destruct b; split; reflexivity.
Qed.

Lemma behaves_sys md (cls : call -> bool) (k : call) :
  cls k = true -> behaves md cls (sys k).
Proof.
  intros Hk m. destruct (sys_run k m) as (m' & -> & _ & _ & _ & _ & _ & _ & Ht & Hq).
  split; [exact I|]. split.
  - simpl. rewrite Hq. destruct (_ && _); [discriminate | auto].
  - eexists. split; [exact Ht|]. repeat constructor. exact Hk.
Qed.

Create HintDb behaves.

#[local] Hint Resolve behaves_ret behaves_get_cap behaves_upd_cap behaves_get_disp
  behaves_upd_disp behaves_get_errno behaves_get_signal_quit behaves_set_errno_if
  behaves_sys : behaves.

(** Walks through a computation built from binds, conditionals and the
    steps in the hint database. *)
Ltac behaves_walk :=
  repeat first
    [ progress intros
    | solve [auto with behaves]
    | apply behaves_bind
    | match goal with
      | |- behaves _ _ (if ?b then _ else _) => destruct b
      | |- behaves _ _ (match ?x with _ => _ end) => destruct x
      end ].

Lemma behaves_sys_int md (cls : call -> bool) (k : call) :
  cls k = true -> behaves md cls (sys_int k).
Proof. intros Hk. unfold sys_int. behaves_walk. Qed.

Lemma behaves_ioctl md (cls : call -> bool) fd q :
  cls (Ioctl fd q) = true -> behaves md cls (ioctl fd q).
Proof. intros Hk. unfold ioctl. now apply behaves_sys_int. Qed.

Lemma behaves_open md (cls : call -> bool) p :
  cls (Open p) = true -> behaves md cls (open p).
Proof. intros Hk. unfold open. pose proof (behaves_sys_int md cls _ Hk). behaves_walk. Qed.

Lemma behaves_close md (cls : call -> bool) fd :
  cls (Close fd) = true -> behaves md cls (close fd).
Proof. intros Hk. unfold close. pose proof (behaves_sys_int md cls _ Hk). behaves_walk. Qed.

Lemma behaves_munmap md (cls : call -> bool) a len :
  cls (Munmap a len) = true -> behaves md cls (munmap a len).
Proof. intros Hk. unfold munmap. pose proof (behaves_sys_int md cls _ Hk). behaves_walk. Qed.

Lemma behaves_mmap md (cls : call -> bool) len fd off :
  cls (Mmap len fd off) = true -> behaves md cls (mmap len fd off).
Proof. intros Hk. unfold mmap. behaves_walk. Qed.

#[local] Hint Resolve behaves_ioctl behaves_open behaves_close behaves_munmap
  behaves_mmap : behaves.

Lemma behaves_for_each md cls (body : Z -> M unit) :
  (forall i, behaves md cls (body i)) ->
  forall n i, behaves md cls (for_each n i body).
Proof.
  intros Hb n. induction n as [|n IH]; intros i; simpl.
  - apply behaves_ret.
  - apply behaves_bind; auto.
Qed.

Lemma behaves_for_until {A} md cls (body : Z -> M (option A)) :
  (forall i, behaves md cls (body i)) ->
  forall n i, behaves md cls (for_until n i body).
Proof.
  intros Hb n. induction n as [|n IH]; intros i; simpl.
  - apply behaves_ret.
  - apply behaves_bind; auto. intros [v|]; auto. apply behaves_ret.
Qed.

(** ** What each function of [capture.c] may do *)

Lemma behaves_unmap_plane i p : behaves Total release_call (unmap_plane i p).
Proof. unfold unmap_plane. behaves_walk. Qed.

Lemma behaves_unmap_all : behaves Total release_call unmap_all.
Proof.
  unfold unmap_all. apply behaves_bind; [auto with behaves|]. intros c.
  apply behaves_for_each. intros i. apply behaves_bind; [auto with behaves|].
  intros c'. apply behaves_for_each. intros p. apply behaves_unmap_plane.
Qed.

Lemma behaves_map_plane d i p : behaves Total map_call (map_plane d i p).
Proof. unfold map_plane. behaves_walk. Qed.

Lemma behaves_map_buffer d i : behaves Total map_call (map_buffer d i).
Proof.
  unfold map_buffer. behaves_walk.
  apply behaves_for_until. intros p. apply behaves_map_plane.
Qed.

Lemma behaves_map_buffers d : behaves Total map_call (map_buffers d).
Proof.
  unfold map_buffers. apply behaves_bind; [auto with behaves|]. intros c.
  apply behaves_bind.
  - apply behaves_for_until. intros i. apply behaves_map_buffer.
  - behaves_walk.
Qed.

Lemma behaves_queue_loop fd n : forall i r, behaves Total is_qbuf (queue_loop n i fd r).
Proof.
  induction n as [|n IH]; intros i r; simpl.
  - apply behaves_ret.
  - behaves_walk.
Qed.

Lemma behaves_queue_buffers fd count : behaves Total is_qbuf (queue_buffers fd count).
Proof. apply behaves_queue_loop. Qed.

Lemma behaves_focus_state s : behaves Total display_call (focus_state s).
Proof.
  intros m. unfold focus_state.
  match goal with |- context [bind ?c ?k] => assert (H : behaves Total display_call (bind c k)) end.
  { behaves_walk. }
  apply H.
Qed.

Lemma behaves_test_pattern s : behaves Total display_call (test_pattern s).
Proof. unfold test_pattern. behaves_walk. Qed.

Lemma behaves_do_key_event keys n : behaves Total display_call (do_key_event keys n).
Proof.
  unfold do_key_event, print_key_functions.
  destruct (n =? 1); [|apply behaves_ret].
  pose proof behaves_focus_state. pose proof behaves_test_pattern.
  destruct (hd "000"%char keys) as [b0 b1 b2 b3 b4 b5 b6 b7].
  destruct b0, b1, b2, b3, b4, b5, b6, b7; cbv beta iota; behaves_walk.
Qed.

Lemma behaves_process_events evs :
  forall quit, behaves Total display_call (process_events evs quit).
Proof.
  induction evs as [|ev evs IH]; intros quit; simpl.
  - apply behaves_ret.
  - pose proof behaves_do_key_event. destruct ev; behaves_walk.
Qed.

Lemma behaves_render : behaves Total display_call render_nv12m_subs_tex.
Proof.
  unfold render_nv12m_subs_tex, x11_process_pending_events.
  pose proof behaves_process_events. behaves_walk.
Qed.

(** ** The capture loop, one pass at a time *)

(** [select_buffer] only writes the render context. *)
Lemma select_buffer_run (index : Z) (m : machine) :
  exists d, select_buffer index m = (Ret tt, set_disp d m).
Proof.
  unfold select_buffer, bind, get_cap, upd_disp. cbn [fst snd].
  generalize (set_render_num_buffers (num_planes (cap m)) (disp m)).
  generalize 0. generalize (Z.to_nat (num_planes (cap m))).
  intros n. induction n as [|n IH]; intros i d; simpl.
  - exists d. reflexivity.
  - unfold bind. simpl. destruct (IH (i + 1) (set_render_buffer i
      (zget (addr (buf_at (cap m) index)) i) d)) as (d' & Hd').
    exists d'. exact Hd'.
Qed.

(** Total functions return. *)
Lemma total_returns {A} cls (c : M A) (m : machine) :
  behaves Total cls c -> exists a, fst (c m) = Ret a.
Proof.
  intros H. destruct (H m) as (Ha & _). destruct (fst (c m)); simpl in Ha.
  - eauto.
  - discriminate.
  - congruence.
Qed.

Lemma render_run (m : machine) :
  exists rr m' ext,
    render_nv12m_subs_tex m = (Ret rr, m') /\
    trace m' = trace m ++ ext /\
    Forall (fun e => display_call (ev_call e) = true) ext /\
    (signal_quit m <> 0 -> signal_quit m' <> 0).
Proof.
  destruct (total_returns _ _ m behaves_render) as (rr & Hr).
  destruct (behaves_render m) as (_ & Hq & ext & Ht & Hf).
  destruct (render_nv12m_subs_tex m) as [o m']. simpl in *. subst o.
  exists rr, m', ext. auto.
Qed.

(** The ways through the body of the loop. *)
Lemma yuv_body_cases (m : machine) :
  let r := env m (calls m) in
  let dq := {| ev_call := Ioctl (v4l2_fd (cap m)) VIDIOC_DQBUF; ev_resp := r;
               ev_app := app (cap m) |} in
  exists m0,
    ioctl (v4l2_fd (cap m)) VIDIOC_DQBUF m = (Ret r, m0) /\
    trace m0 = trace m ++ [dq] /\
    ((r_ret r < 0 /\ yuv_body m = (Ret (BodyReturn (errno m0)), m0)) \/
     (0 <= r_ret r /\
      exists m1 rr m2 ext,
        select_buffer (r_val r) m0 = (Ret tt, m1) /\
        render_nv12m_subs_tex m1 = (Ret rr, m2) /\
        trace m2 = trace m ++ [dq] ++ ext /\
        Forall (fun e => display_call (ev_call e) = true) ext /\
        ((rr < 0 /\ yuv_body m = (Ret (BodyReturn (errno m2)), m2)) \/
         (0 < rr /\ yuv_body m = (Ret BodyBreak, m2)) \/
         (rr = 0 /\
          exists m3,
            ioctl (v4l2_fd (cap m2)) (VIDIOC_QBUF (r_val r)) m2 =
              (Ret (env m2 (calls m2)), m3) /\
            trace m3 = trace m2 ++
              [{| ev_call := Ioctl (v4l2_fd (cap m2)) (VIDIOC_QBUF (r_val r));
                  ev_resp := env m2 (calls m2); ev_app := app (cap m2) |}] /\
            yuv_body m = (Ret (BodyNext (r_ret (env m2 (calls m2)))), m3))))).
Proof.
  intros r dq. unfold yuv_body, bind, get_cap. cbn [fst snd].
  destruct (ioctl_run (v4l2_fd (cap m)) VIDIOC_DQBUF m)
    as (m0 & Hio & Hc0 & _ & _ & _ & _ & _ & Ht0 & _).
  exists m0. rewrite Hio. fold r. split; [reflexivity|]. split; [exact Ht0|].
  destruct (Z.ltb_spec (r_ret r) 0) as [Hneg|Hpos].
  - left. split; [exact Hneg|]. reflexivity.
  - right. split; [exact Hpos|].
    destruct (select_buffer_run (r_val r) m0) as (d & Hsel).
    destruct (render_run (set_disp d m0)) as (rr & m2 & ext & Hren & Ht2 & Hf & _).
    exists (set_disp d m0), rr, m2, ext.
    rewrite Hsel, Hren. split; [reflexivity|]. split; [reflexivity|].
    split; [rewrite Ht2; simpl; rewrite Ht0, <- app_assoc; reflexivity|].
    split; [exact Hf|].
    destruct (Z.ltb_spec rr 0) as [Hrn|Hrp].
    + left. split; [exact Hrn|]. reflexivity.
    + destruct (Z.ltb_spec 0 rr) as [Hgt|Hle].
      * right. left. split; [exact Hgt|]. reflexivity.
      * right. right. split; [lia|].
        destruct (ioctl_run (v4l2_fd (cap m2)) (VIDIOC_QBUF (r_val r)) m2)
          as (m3 & Hq & _ & _ & _ & _ & _ & _ & Ht3 & _).
        exists m3. rewrite Hq. unfold ret. auto.
Qed.

(** Unfolding the loop by one pass. *)
Lemma yuv_loop_stop (fuel : nat) (ret_ : Z) (m : machine) :
  loop_condition ret_ m = false -> yuv_loop fuel ret_ m = (Ret 0, m).
Proof.
  unfold loop_condition. intros H.
  destruct fuel; simpl; unfold bind, get_signal_quit; rewrite H; reflexivity.
Qed.

Lemma yuv_loop_step (fuel : nat) (ret_ : Z) (m : machine) :
  loop_condition ret_ m = true ->
  yuv_loop (S fuel) ret_ m =
    (b <- yuv_body ;;
     match b with
     | BodyReturn v => ret v
     | BodyBreak => ret 0
     | BodyNext r => yuv_loop fuel r
     end) m.
Proof.
  unfold loop_condition. intros H.
  simpl. unfold bind at 1. unfold get_signal_quit. rewrite H. reflexivity.
Qed.

(** C5.  In a pass of the capture loop in which a buffer was dequeued and
    drawn: when the draw call returns a positive value (Exit), no queue
    request is made, the loop returns 0 at once and the teardown of the caller
    starts from the state the renderer left; when it returns zero (Continue),
    the buffer index that was just dequeued is queued again and the loop goes
    on from its head. *)
Theorem render_result_decides_requeue
    (fuel : nat) (m m0 m1 m2 : machine) (r : response) (rr : Z) :
  loop_condition 0 m = true ->
  ioctl (v4l2_fd (cap m)) VIDIOC_DQBUF m = (Ret r, m0) ->
  0 <= r_ret r ->
  select_buffer (r_val r) m0 = (Ret tt, m1) ->
  render_nv12m_subs_tex m1 = (Ret rr, m2) ->
  (0 < rr ->
     yuv_loop (S fuel) 0 m = (Ret 0, m2) /\
     Forall (fun e => is_qbuf (ev_call e) = false) (added (yuv_loop (S fuel) 0) m) /\
     (yuv_loop (S fuel) 0 ;;; capture_shutdown) m = capture_shutdown m2) /\
  (rr = 0 ->
     exists m3,
       ioctl (v4l2_fd (cap m2)) (VIDIOC_QBUF (r_val r)) m2 =
         (Ret (env m2 (calls m2)), m3) /\
       trace m3 = trace m2 ++
         [{| ev_call := Ioctl (v4l2_fd (cap m2)) (VIDIOC_QBUF (r_val r));
             ev_resp := env m2 (calls m2); ev_app := app (cap m2) |}] /\
       yuv_loop (S fuel) 0 m = yuv_loop fuel (r_ret (env m2 (calls m2))) m3).
Proof.
  intros Hcond Hdq Hok Hsel Hren.
  destruct (yuv_body_cases m) as (m0' & Hdq' & Ht0 & Hcases). cbn zeta in *.
  rewrite Hdq in Hdq'. injection Hdq' as Hr Hm0. subst m0'. rewrite <- Hr in *.
  destruct Hcases as [[Hneg _]|(_ & m1' & rr' & m2' & ext & Hsel' & Hren' & Ht2 & Hf & Hcases)];
    [lia|].
  rewrite Hsel in Hsel'. injection Hsel' as <-.
  rewrite Hren in Hren'. injection Hren' as <- <-.
  split.
  - intros Hgt.
    destruct Hcases as [[Hlt _]|[[_ Hbody]|[Hz _]]]; [lia| |lia].
    assert (Hloop : yuv_loop (S fuel) 0 m = (Ret 0, m2)).
    { rewrite yuv_loop_step by exact Hcond. unfold bind. rewrite Hbody. reflexivity. }
    split; [exact Hloop|]. split.
    + rewrite (added_snoc _ _ ([{| ev_call := Ioctl (v4l2_fd (cap m)) VIDIOC_DQBUF;
          ev_resp := r; ev_app := app (cap m) |}] ++ ext)).
      * apply Forall_app. split; [repeat constructor|].
        eapply Forall_impl; [exact Hf|]. simpl. intros e He.
        destruct (ev_call e) as [| ? []| | | | | | | |]; simpl in *; congruence.
      * rewrite Hloop. exact Ht2.
    + unfold bind. rewrite Hloop. reflexivity.
  - intros Hz.
    destruct Hcases as [[Hlt _]|[[Hgt _]|(_ & m3 & Hq & Ht3 & Hbody)]]; [lia|lia|].
    exists m3. split; [exact Hq|]. split; [exact Ht3|].
    rewrite yuv_loop_step by exact Hcond. unfold bind. rewrite Hbody. reflexivity.
Qed.

(** C6.  The stop flag is read at the head of the loop, before the
    dequeue: with the flag raised the loop returns 0 at once, whatever the
    fuel and the local [ret], makes no call, and the teardown of the caller
    runs from that very state.  A SIGINT that arrives while the handler is
    installed and the loop waits in the dequeue ends the loop after that pass.
    The handler itself raises the flag and does nothing else. *)
Theorem stop_flag_polled_before_dequeue :
  (forall (fuel : nat) (ret_ : Z) (m : machine),
     signal_quit m <> 0 ->
     yuv_loop fuel ret_ m = (Ret 0, m) /\
     added (yuv_loop fuel ret_) m = [] /\
     (yuv_loop fuel ret_ ;;; capture_shutdown) m = capture_shutdown m) /\
  (forall (fuel : nat) (m : machine),
     loop_condition 0 m = true ->
     sigint_handler m = true -> r_sigint (env m (calls m)) = true ->
     exists v, yuv_loop (S fuel) 0 m = (Ret v, snd (yuv_body m)) /\
       length (filter (fun e => is_dqbuf (ev_call e)) (added (yuv_loop (S fuel) 0) m)) = 1%nat) /\
  (forall (s : Z) (m : machine),
     signal_exit s m = set_signal_quit 1 m /\
     cap (signal_exit s m) = cap m /\ disp (signal_exit s m) = disp m /\
     errno (signal_exit s m) = errno m /\ calls (signal_exit s m) = calls m /\
     trace (signal_exit s m) = trace m).
Proof.
  split; [|split].
  - intros fuel ret_ m Hq.
    assert (Hloop : yuv_loop fuel ret_ m = (Ret 0, m)).
    { apply yuv_loop_stop. unfold loop_condition.
      destruct (Z.eqb_spec (signal_quit m) 0); [contradiction|].
      apply andb_false_r. }
    split; [exact Hloop|]. split.
    + apply added_snoc. rewrite Hloop. simpl. now rewrite app_nil_r.
    + unfold bind. rewrite Hloop. reflexivity.
  - intros fuel m Hcond Hh Hsig.
    destruct (yuv_body_cases m) as (m0 & Hdq & Ht0 & Hcases). cbn zeta in *.
    destruct (ioctl_run (v4l2_fd (cap m)) VIDIOC_DQBUF m)
      as (m0' & Hdq' & _ & _ & _ & _ & _ & _ & _ & Hq0).
    rewrite Hdq in Hdq'. injection Hdq' as <-.
    rewrite Hsig, Hh in Hq0. simpl in Hq0.
    rewrite yuv_loop_step by exact Hcond. unfold bind.
    assert (Hcount : forall ext,
      Forall (fun e => display_call (ev_call e) = true) ext ->
      filter (fun e => is_dqbuf (ev_call e)) ext = []).
    { intros ext Hf. induction Hf as [|e ext He _ IH]; [reflexivity|].
      rewrite filter_cons. rewrite IH.
      destruct (ev_call e) as [| ? []| | | | | | | |]; simpl in *; congruence. }
    destruct Hcases as [[_ Hbody]|(_ & m1 & rr & m2 & ext & Hsel & Hren & Ht2 & Hf & Hcases)].
    + rewrite Hbody. cbn [snd]. eexists. split; [reflexivity|].
      erewrite added_snoc; [|rewrite yuv_loop_step by exact Hcond; unfold bind;
                              rewrite Hbody; exact Ht0].
      reflexivity.
    + assert (Hq2 : signal_quit m2 <> 0).
      { destruct (select_buffer_run (r_val (env m (calls m))) m0) as (d & Hsel').
        rewrite Hsel in Hsel'. injection Hsel' as ->.
        destruct (render_run (set_disp d m0)) as (rr' & m2' & _ & Hren' & _ & _ & Hkeep).
        rewrite Hren in Hren'. injection Hren' as _ <-.
        apply Hkeep. simpl. rewrite Hq0. discriminate. }
      destruct Hcases as [[_ Hbody]|[[_ Hbody]|(_ & m3 & Hq & Ht3 & Hbody)]].
      * rewrite Hbody. cbn [snd]. eexists. split; [reflexivity|].
        erewrite added_snoc; [|rewrite yuv_loop_step by exact Hcond; unfold bind;
                                rewrite Hbody; exact Ht2].
        rewrite filter_app, (Hcount _ Hf). reflexivity.
      * rewrite Hbody. cbn [snd]. eexists. split; [reflexivity|].
        erewrite added_snoc; [|rewrite yuv_loop_step by exact Hcond; unfold bind;
                                rewrite Hbody; exact Ht2].
        rewrite filter_app, (Hcount _ Hf). reflexivity.
      * rewrite Hbody. cbn [snd].
        assert (Hq3 : signal_quit m3 <> 0).
        { destruct (ioctl_run (v4l2_fd (cap m2)) (VIDIOC_QBUF (r_val (env m (calls m)))) m2)
            as (m3' & Hq' & _ & _ & _ & _ & _ & _ & _ & Hq3).
          rewrite Hq in Hq'. injection Hq' as <-. rewrite Hq3.
          destruct (_ && _); [discriminate | exact Hq2]. }
        assert (Hstop : yuv_loop fuel (r_ret (env m2 (calls m2))) m3 = (Ret 0, m3)).
        { apply yuv_loop_stop. unfold loop_condition.
          destruct (Z.eqb_spec (signal_quit m3) 0); [contradiction|]. apply andb_false_r. }
        exists 0. split; [exact Hstop|].
        erewrite added_snoc; [|rewrite yuv_loop_step by exact Hcond; unfold bind;
                                rewrite Hbody, Hstop; cbn [snd]; rewrite Ht3, Ht2;
                                rewrite <- app_assoc; reflexivity].
        rewrite !filter_app, (Hcount _ Hf). reflexivity.
  - intros s m. repeat split.
Qed.

(** Buffer 2 is dequeued, the user presses q: the loop returns 0 after the
    calls DQBUF, XPending, XCloseDisplay. *)
Lemma render_result_decides_requeue_witness :
  fst (yuv_loop 5 0 (streaming env_quit)) = Ret 0 /\
  calls_of (added (yuv_loop 5 0) (streaming env_quit)) =
    [Ioctl 3 VIDIOC_DQBUF; XPending; XCloseDisplay].
Proof.
  edestruct (render_result_decides_requeue 4 (streaming env_quit)) as [Hexit _];
    [reflexivity | reflexivity | simpl; lia | reflexivity | reflexivity |].
  destruct (Hexit ltac:(lia)) as (Hloop & _ & _).
  split.
  - rewrite Hloop. reflexivity.
  - reflexivity.
Defined.

(** The flag is up at the head of the loop: nothing is dequeued.  SIGINT
    arrives during the first dequeue: the loop returns after that pass. *)
Lemma stop_flag_polled_before_dequeue_witness :
  yuv_loop 5 0 (set_signal_quit 1 (streaming env_continue)) =
    (Ret 0, set_signal_quit 1 (streaming env_continue)) /\
  exists v, yuv_loop 5 0 (streaming env_sigint) = (Ret v, snd (yuv_body (streaming env_sigint))).
Proof.
  split.
  - apply (proj1 stop_flag_polled_before_dequeue 5%nat 0
             (set_signal_quit 1 (streaming env_continue))).
    simpl. lia.
  - destruct (proj1 (proj2 stop_flag_polled_before_dequeue) 4%nat (streaming env_sigint))
      as (v & Hv & _); [reflexivity | reflexivity | reflexivity |].
    exists v. exact Hv.
Defined.

(** ** What stays fixed *)

Lemma keeps_ret {A} (a : A) : keeps_geometry (ret a).
Proof. intros m. reflexivity. Qed.

Lemma keeps_bind {A B} (c : M A) (k : A -> M B) :
  keeps_geometry c -> (forall a, keeps_geometry (k a)) -> keeps_geometry (bind c k).
Proof.
  intros Hc Hk m. unfold bind. specialize (Hc m).
  destruct (c m) as [[a|code|] m1]; simpl in *; auto.
  rewrite <- Hc. apply Hk.
Qed.

Lemma keeps_get_cap : keeps_geometry get_cap.
Proof. intros m. reflexivity. Qed.

Lemma keeps_get_errno : keeps_geometry get_errno.
Proof. intros m. reflexivity. Qed.

Lemma keeps_upd_buf i f : keeps_geometry (upd_cap (upd_buf i f)).
Proof. intros m. reflexivity. Qed.

Lemma keeps_set_errno_if b r : keeps_geometry (set_errno_if b r).
Proof. intros m. unfold set_errno_if. destruct b; reflexivity. Qed.

Lemma keeps_sys k : keeps_geometry (sys k).
Proof.
  intros m. destruct (sys_run k m) as (m' & -> & Hc & _). simpl. now rewrite Hc.
Qed.

Create HintDb keeps.

#[local] Hint Resolve keeps_ret keeps_get_cap keeps_get_errno keeps_upd_buf
  keeps_set_errno_if keeps_sys : keeps.

Ltac keeps_walk :=
  repeat first
    [ progress intros
    | solve [auto with keeps]
    | apply keeps_bind
    | match goal with
      | |- keeps_geometry (if ?b then _ else _) => destruct b
      | |- keeps_geometry (match ?x with _ => _ end) => destruct x
      end ].

Lemma keeps_ioctl fd q : keeps_geometry (ioctl fd q).
Proof. unfold ioctl, sys_int. keeps_walk. Qed.

Lemma keeps_close fd : keeps_geometry (close fd).
Proof. unfold close, sys_int. keeps_walk. Qed.

Lemma keeps_munmap a len : keeps_geometry (munmap a len).
Proof. unfold munmap, sys_int. keeps_walk. Qed.

Lemma keeps_mmap len fd off : keeps_geometry (mmap len fd off).
Proof. unfold mmap. keeps_walk. Qed.

#[local] Hint Resolve keeps_ioctl keeps_close keeps_munmap keeps_mmap : keeps.

Lemma keeps_for_each (body : Z -> M unit) :
  (forall i, keeps_geometry (body i)) ->
  forall n i, keeps_geometry (for_each n i body).
Proof.
  intros Hb n. induction n as [|n IH]; intros i; simpl.
  - apply keeps_ret.
  - apply keeps_bind; auto.
Qed.

Lemma keeps_unmap_plane i p : keeps_geometry (unmap_plane i p).
Proof. unfold unmap_plane. keeps_walk. Qed.

Lemma keeps_unmap_all : keeps_geometry unmap_all.
Proof.
  unfold unmap_all. apply keeps_bind; [auto with keeps|]. intros c.
  apply keeps_for_each. intros i. apply keeps_bind; [auto with keeps|].
  intros c'. apply keeps_for_each. intros p. apply keeps_unmap_plane.
Qed.

(** ** Teardown *)

(** A run of a computation, with what [behaves] says about it. *)
Lemma behaves_run {A} md cls (c : M A) (m : machine) :
  behaves md cls c ->
  exists o m' ext,
    c m = (o, m') /\ allowed md o /\ trace m' = trace m ++ ext /\
    Forall (fun e => cls (ev_call e) = true) ext.
Proof.
  intros H. destruct (H m) as (Ha & _ & ext & Ht & Hf).
  destruct (c m) as [o m']. exists o, m', ext. auto.
Qed.

Lemma total_run {A} cls (c : M A) (m : machine) :
  behaves Total cls c ->
  exists a m' ext,
    c m = (Ret a, m') /\ trace m' = trace m ++ ext /\
    Forall (fun e => cls (ev_call e) = true) ext.
Proof.
  intros H. destruct (behaves_run _ _ _ m H) as (o & m' & ext & Hr & Ha & Ht & Hf).
  destruct o as [a|code|]; simpl in Ha; [|discriminate|congruence].
  exists a, m', ext. auto.
Qed.

(** [capture_shutdown] always returns, and what it adds to the log is a
    teardown: stream off, releases, zero-buffer request. *)
Lemma capture_shutdown_log (m : machine) :
  exists v m' td,
    capture_shutdown m = (Ret v, m') /\ trace m' = trace m ++ td /\ teardown_log td.
Proof.
  unfold capture_shutdown, stop_stream, unmap_buffers, bind, get_cap. cbn [fst snd].
  destruct (ioctl_run (v4l2_fd (cap m)) VIDIOC_STREAMOFF m)
    as (m1 & -> & Hc1 & _ & _ & _ & _ & _ & Ht1 & _).
  unfold ret at 1.
  pose proof (keeps_unmap_all m1) as Hg.
  destruct (total_run _ _ m1 behaves_unmap_all) as ([] & m2 & mid & Hrun & Ht2 & Hmid).
  rewrite Hrun in Hg |- *. cbn [snd] in Hg.
  destruct (ioctl_run (v4l2_fd (cap m2)) (VIDIOC_REQBUFS 0 (type_ (cap m2)) (memory (cap m2))) m2)
    as (m3 & -> & _ & _ & _ & _ & _ & _ & Ht3 & _).
  unfold ret. eexists _, m3, _. split; [reflexivity|]. split.
  - rewrite Ht3, Ht2, Ht1, <- !app_assoc. reflexivity.
  - eexists _, mid, _, (v4l2_fd (cap m)), _, _. split; [reflexivity|].
    split; [reflexivity|]. split; [exact Hmid|]. simpl.
    unfold geometry in Hg. rewrite Hc1 in Hg. injection Hg as _ _ _ _ -> _. reflexivity.
Qed.

(** ** Runs of the session driver *)

Lemma bind_ret_run {A B} (c : M A) (k : A -> M B) (m m1 : machine) (a : A) :
  c m = (Ret a, m1) -> bind c k m = k a m1.
Proof. intros H. unfold bind. now rewrite H. Qed.

Lemma bind_exit_run {A B} (c : M A) (k : A -> M B) (m m1 : machine) (code : Z) :
  c m = (Exit code, m1) -> bind c k m = (Exit code, m1).
Proof. intros H. unfold bind. now rewrite H. Qed.

Lemma bind_spin_run {A B} (c : M A) (k : A -> M B) (m m1 : machine) :
  c m = (Spin, m1) -> bind c k m = (Spin, m1).
Proof. intros H. unfold bind. now rewrite H. Qed.

(** Inclusions and exclusions between classes of calls, by cases on the call. *)
Ltac class_incl :=
  let k := fresh "k" in
  intros k; destruct k as [| ? []| | | | | | | |]; simpl; auto; discriminate.

Lemma behaves_sub {A} md (cls cls' : call -> bool) (c : M A) :
  behaves Total cls c -> (forall k, cls k = true -> cls' k = true) ->
  behaves md cls' c.
Proof. intros H Hi. eapply behaves_weaken; [left; reflexivity | exact Hi | exact H]. Qed.

Lemma behaves_stop_stream fd : behaves Total teardown_call (stop_stream fd).
Proof. unfold stop_stream. behaves_walk. Qed.

Lemma behaves_unmap_buffers : behaves Total teardown_call unmap_buffers.
Proof.
  unfold unmap_buffers.
  pose proof (behaves_sub Total release_call teardown_call _ behaves_unmap_all
                ltac:(class_incl)).
  behaves_walk.
Qed.

Lemma behaves_capture_shutdown : behaves Total teardown_call capture_shutdown.
Proof.
  unfold capture_shutdown.
  pose proof behaves_stop_stream. pose proof behaves_unmap_buffers. behaves_walk.
Qed.

Lemma behaves_invalidate_dma_fds md cls : behaves md cls invalidate_dma_fds.
Proof.
  unfold invalidate_dma_fds. apply behaves_bind; [auto with behaves|]. intros c.
  apply behaves_for_each. intros i. apply behaves_for_each. intros p.
  auto with behaves.
Qed.

Lemma behaves_start_stream fd : behaves Total not_dqbuf (start_stream fd).
Proof. unfold start_stream. behaves_walk. Qed.

Lemma behaves_capture_setup_buffers d :
  behaves Total not_dqbuf (capture_setup_buffers d).
Proof.
  unfold capture_setup_buffers.
  pose proof (behaves_invalidate_dma_fds Total not_dqbuf).
  pose proof (behaves_sub Total map_call not_dqbuf _ (behaves_map_buffers d)
                ltac:(class_incl)).
  pose proof (fun fd n => behaves_sub Total is_qbuf not_dqbuf _
                (behaves_queue_buffers fd n) ltac:(class_incl)).
  pose proof (behaves_sub Total teardown_call not_dqbuf _ behaves_capture_shutdown
                ltac:(class_incl)).
  pose proof behaves_start_stream.
  behaves_walk.
Qed.

Lemma behaves_capture_setup opt : behaves MayExit not_dqbuf (capture_setup opt).
Proof.
  unfold capture_setup.
  pose proof (behaves_sub MayExit not_dqbuf not_dqbuf _
                (behaves_capture_setup_buffers (dma_export opt)) (fun _ H => H)).
  assert (forall code, behaves MayExit not_dqbuf (@exit_ Z code)).
  { intros code m. split; [reflexivity|]. split; [auto|].
    exists []. simpl. now rewrite app_nil_r. }
  behaves_walk.
Qed.

Lemma behaves_get_device p : behaves Total setup_call (get_device p).
Proof. unfold get_device. behaves_walk. Qed.

Lemma behaves_get_subdevice p : behaves Total setup_call (get_subdevice p).
Proof. unfold get_subdevice. behaves_walk. Qed.

Lemma behaves_sigaction md (cls : call -> bool) :
  cls Sigaction = true -> behaves md cls sigaction_SIGINT.
Proof.
  intros Hk. unfold sigaction_SIGINT. apply behaves_bind; [auto with behaves|].
  intros _. apply behaves_silent. intros m. eexists _, _. repeat split.
Qed.

(** ** Failures along a log *)

(** Calls whose failure the session does not take for fatal. *)
Lemma other_calls_unfailed (cls : call -> bool) (ext : list event) :
  (forall e, cls (ev_call e) = true -> fatal_failure e = false) ->
  Forall (fun e => cls (ev_call e) = true) ext -> Forall unfailed ext.
Proof. intros Hi Hf. eapply Forall_impl; [exact Hf|]. exact Hi. Qed.

Ltac class_unfailed :=
  let e := fresh "e" in
  intros e; unfold fatal_failure; destruct (ev_call e) as [| ? []| | | | | [] | | |];
  simpl; auto; discriminate.

Lemma no_calls (ext : list event) :
  Forall (fun e => (fun _ : call => false) (ev_call e) = true) ext -> ext = [].
Proof. destruct 1 as [|e ext H _]; [reflexivity | discriminate H]. Qed.

(** [errno] after a call that failed. *)
Lemma ioctl_errno_run (fd : Z) (q : request) (m : machine) :
  exists m', ioctl fd q m = (Ret (env m (calls m)), m') /\
    trace m' = trace m ++
      [{| ev_call := Ioctl fd q; ev_resp := env m (calls m); ev_app := app (cap m) |}] /\
    (r_ret (env m (calls m)) < 0 -> errno m' = r_errno (env m (calls m))).
Proof.
  unfold ioctl, sys_int, bind.
  destruct (sys_run (Ioctl fd q) m) as (m1 & -> & _ & _ & _ & _ & _ & _ & Ht & _).
  unfold set_errno_if, ret. eexists; split; [reflexivity|].
  destruct (Z.ltb_spec (r_ret (env m (calls m))) 0); simpl; split; auto; lia.
Qed.

Lemma mmap_errno_run (len fd off : Z) (m : machine) :
  exists m', mmap len fd off m = (Ret (r_addr (env m (calls m))), m') /\
    trace m' = trace m ++
      [{| ev_call := Mmap len fd off; ev_resp := env m (calls m); ev_app := app (cap m) |}] /\
    (r_addr (env m (calls m)) = MAP_FAILED -> errno m' = r_errno (env m (calls m))).
Proof.
  unfold mmap, bind.
  destruct (sys_run (Mmap len fd off) m) as (m1 & -> & _ & _ & _ & _ & _ & _ & Ht & _).
  unfold set_errno_if, ret. eexists; split; [reflexivity|].
  destruct (Z.eqb_spec (r_addr (env m (calls m))) MAP_FAILED); simpl; split; auto;
    contradiction.
Qed.

Lemma for_until_clean (body : Z -> M (option Z)) :
  (forall i m, exists o m' ext,
      body i m = (Ret o, m') /\ trace m' = trace m ++ ext /\
      (went_well o -> Forall unfailed ext)) ->
  forall n i m, exists o m' ext,
      for_until n i body m = (Ret o, m') /\ trace m' = trace m ++ ext /\
      (went_well o -> Forall unfailed ext).
Proof.
  intros Hb. induction n as [|n IH]; intros i m; simpl.
  - exists None, m, []. rewrite app_nil_r. auto.
  - destruct (Hb i m) as (o & m1 & e1 & Hr1 & Ht1 & Hc1).
    erewrite bind_ret_run by exact Hr1.
    destruct o as [v|].
    + exists (Some v), m1, e1. auto.
    + destruct (IH (i + 1) m1) as (o & m2 & e2 & Hr2 & Ht2 & Hc2).
      exists o, m2, (e1 ++ e2). split; [exact Hr2|].
      split; [rewrite Ht2, Ht1, <- app_assoc; reflexivity|].
      intros Hw. apply Forall_app_2; [apply Hc1; exact I | auto].
Qed.

(** When a plane is mapped (and exported), or the function returns 0,
    neither mmap nor VIDIOC_EXPBUF failed. *)
Lemma map_plane_clean (d i p : Z) (m : machine) :
  exists o m' ext,
    map_plane d i p m = (Ret o, m') /\ trace m' = trace m ++ ext /\
    (went_well o -> Forall unfailed ext).
Proof.
  unfold map_plane, bind at 1 2, get_cap, upd_cap. cbn [fst snd].
  match goal with |- context [bind (mmap ?l ?f ?o) _ ?m0] =>
    destruct (mmap_errno_run l f o m0) as (m1 & Hr1 & Ht1 & He1) end.
  erewrite bind_ret_run by exact Hr1. simpl trace in Ht1. cbn [env calls set_cap] in *.
  unfold bind at 1. cbn [fst snd].
  destruct (Z.eqb_spec (r_addr (env m (calls m))) MAP_FAILED) as [Hf|Hf].
  - unfold bind, get_errno, ret. cbn [fst snd errno set_cap].
    eexists _, _, _. split; [reflexivity|]. split; [exact Ht1|].
    simpl. intros Hz. repeat constructor. unfold unfailed, fatal_failure. simpl.
    rewrite (He1 Hf) in Hz.
    replace (r_errno (env m (calls m))) with 0 by lia.
    apply andb_false_r.
  - assert (Hu1 : unfailed {| ev_call := Mmap (pl_length (plane_at (buf_at (cap m) i) p))
                                (v4l2_fd (cap m))
                                (pl_mem_offset (plane_at (buf_at (cap m) i) p));
                              ev_resp := env m (calls m); ev_app := app (cap m) |}).
    { unfold unfailed, fatal_failure. simpl.
      destruct (Z.eqb_spec (r_addr (env m (calls m))) MAP_FAILED); [contradiction|].
      reflexivity. }
    destruct (negb (d =? 0)).
    + match goal with |- context [bind (ioctl ?f ?q) _ ?m0] =>
        destruct (ioctl_errno_run f q m0) as (m2 & Hr2 & Ht2 & He2) end.
      erewrite bind_ret_run by exact Hr2. simpl trace in Ht2.
      cbn [env calls set_cap] in *.
      destruct (Z.ltb_spec (r_ret (env m1 (calls m1))) 0) as [Hn|Hn].
      * unfold bind, get_errno, ret. cbn [fst snd].
        eexists _, m2, _. split; [reflexivity|].
        split; [rewrite Ht2, Ht1, <- app_assoc; reflexivity|].
        simpl. intros Hz. constructor; [exact Hu1|]. repeat constructor.
        unfold unfailed, fatal_failure. simpl.
        rewrite (He2 Hn) in Hz.
        replace (r_errno (env m1 (calls m1))) with 0 by lia.
        apply andb_false_r.
      * unfold bind, upd_cap, ret. cbn [fst snd].
        eexists _, _, _. split; [reflexivity|].
        split; [simpl; rewrite Ht2, Ht1, <- app_assoc; reflexivity|].
        intros _. constructor; [exact Hu1|]. repeat constructor.
        unfold unfailed, fatal_failure. simpl.
        destruct (Z.ltb_spec (r_ret (env m1 (calls m1))) 0); [lia | reflexivity].
    + unfold ret. eexists _, _, _. split; [reflexivity|]. split; [exact Ht1|].
      intros _. repeat constructor. exact Hu1.
Qed.

Lemma map_buffer_clean (d i : Z) (m : machine) :
  exists o m' ext,
    map_buffer d i m = (Ret o, m') /\ trace m' = trace m ++ ext /\
    (went_well o -> Forall unfailed ext).
Proof.
  unfold map_buffer, bind at 1 2, get_cap, upd_cap. cbn [fst snd].
  match goal with |- context [bind (ioctl ?f ?q) _ ?m0] =>
    destruct (ioctl_errno_run f q m0) as (m1 & Hr1 & Ht1 & _) end.
  erewrite bind_ret_run by exact Hr1. simpl trace in Ht1. cbn [env calls set_cap] in *.
  destruct (Z.ltb_spec (r_ret (env m (calls m))) 0) as [Hn|Hn].
  - unfold ret. eexists _, m1, _. split; [reflexivity|]. split; [exact Ht1|].
    simpl. lia.
  - unfold bind at 1, upd_cap. cbn [fst snd].
    match goal with |- context [for_until ?n ?j ?b ?m0] =>
      destruct (for_until_clean b (map_plane_clean d i) n j m0)
        as (o & m2 & e2 & Hr2 & Ht2 & Hc2) end.
    eexists o, m2, (_ :: e2). split; [exact Hr2|].
    split; [rewrite Ht2; simpl trace; rewrite Ht1, <- app_assoc; reflexivity|].
    intros Hw. constructor; [|auto].
    unfold unfailed, fatal_failure. simpl.
    destruct (Z.ltb_spec (r_ret (env m (calls m))) 0); [lia | reflexivity].
Qed.

(** When [map_buffers] returns 0, no query, mapping or export failed. *)
Lemma map_buffers_clean (d : Z) (m : machine) :
  exists v m' ext,
    map_buffers d m = (Ret v, m') /\ trace m' = trace m ++ ext /\
    (v = 0 -> Forall unfailed ext).
Proof.
  unfold map_buffers, bind at 1, get_cap. cbn [fst snd].
  match goal with |- context [bind (for_until ?n ?j ?b) _ m] =>
    destruct (for_until_clean b (map_buffer_clean d) n j m)
      as (o & m1 & e1 & Hr1 & Ht1 & Hc1) end.
  erewrite bind_ret_run by exact Hr1.
  destruct o as [v|]; unfold ret.
  - exists v, m1, e1. auto.
  - exists 0, m1, e1. split; [reflexivity|]. split; [exact Ht1|].
    intros _. apply Hc1. exact I.
Qed.

(** When [queue_buffers] returns 0, none of its requests failed. *)
Lemma queue_loop_clean (fd : Z) (n : nat) :
  forall (i r0 : Z) (m : machine),
  exists v m' ext,
    queue_loop n i fd r0 m = (Ret v, m') /\ trace m' = trace m ++ ext /\
    (v = 0 -> Forall unfailed ext).
Proof.
  induction n as [|n IH]; intros i r0 m; simpl.
  - exists r0, m, []. rewrite app_nil_r. auto.
  - unfold bind at 1. unfold get_cap. cbn [fst snd].
    match goal with |- context [bind (ioctl ?f ?q) _ m] =>
      destruct (ioctl_run f q m) as (m1 & Hio & _ & _ & _ & _ & _ & _ & Ht1 & _) end.
    erewrite bind_ret_run by exact Hio.
    destruct (Z.ltb_spec (r_ret (env m (calls m))) 0) as [Hneg|Hpos].
    + eexists _, m1, _. split; [reflexivity|]. split; [exact Ht1|]. lia.
    + destruct (IH (i + 1) (r_ret (env m (calls m))) m1) as (v & m' & ext & Hrun & Ht & Hok).
      eexists v, m', (_ :: ext). split; [exact Hrun|]. split.
      * rewrite Ht, Ht1, <- app_assoc. reflexivity.
      * intros Hv. constructor; [|auto].
        unfold unfailed, fatal_failure. simpl.
        destruct (Z.ltb_spec (r_ret (env m (calls m))) 0); [lia | reflexivity].
Qed.

Lemma starts_past_startup_app (t1 t2 : list event) :
  starts_past_startup t1 -> starts_past_startup (t1 ++ t2).
Proof. intros (e & rest & -> & He). exists e, (rest ++ t2). auto. Qed.

Lemma class_starts_past_startup (cls : call -> bool) (ext : list event) :
  (forall k, cls k = true -> setup_call k = false) ->
  Forall (fun e => cls (ev_call e) = true) ext ->
  ext = [] \/ starts_past_startup ext.
Proof.
  intros Hi [|e rest He _]; [left; reflexivity|].
  right. exists e, rest. auto.
Qed.

Lemma teardown_starts_past_startup (td : list event) :
  teardown_log td -> starts_past_startup td.
Proof.
  intros (e1 & mid & e2 & fd & ty & mem & -> & H1 & _).
  exists e1, (mid ++ [e2]). split; [reflexivity|]. now rewrite H1.
Qed.

(** The second half of [capture_setup] makes a call, the first of them
    is none of those of the startup, and when it returns 0 no call of it
    failed. *)
Lemma capture_setup_buffers_clean (d : Z) (m : machine) :
  exists v m' ext,
    capture_setup_buffers d m = (Ret v, m') /\ trace m' = trace m ++ ext /\
    starts_past_startup ext /\
    (v = 0 -> Forall unfailed ext).
Proof.
  unfold capture_setup_buffers.
  destruct (total_run _ _ m (behaves_invalidate_dma_fds Total (fun _ => false)))
    as ([] & m1 & e1 & Hr1 & Ht1 & Hf1).
  apply no_calls in Hf1. subst e1. rewrite app_nil_r in Ht1.
  erewrite bind_ret_run by exact Hr1.
  destruct (map_buffers_clean d m1) as (r & m2 & e2 & Hr2 & Ht2 & Hc2).
  assert (Hs2 : e2 = [] \/ starts_past_startup e2).
  { destruct (total_run _ _ m1 (behaves_map_buffers d)) as (r' & m2' & e2' & Hr2' & Ht2' & Hf2).
    rewrite Hr2 in Hr2'. injection Hr2' as <- <-.
    rewrite Ht2 in Ht2'. apply app_inv_head in Ht2'. subst e2'.
    eapply class_starts_past_startup; [|exact Hf2]. class_incl. }
  erewrite bind_ret_run by exact Hr2.
  destruct (Z.eqb_spec r 0) as [->|Hr]; cbn [negb].
  - unfold bind at 1, get_cap. cbn [fst snd].
    destruct (queue_loop_clean (v4l2_fd (cap m2)) (Z.to_nat (num_buf (cap m2))) 0 0 m2)
      as (q & m3 & e3 & Hr3 & Ht3 & Hok3).
    assert (Hs3 : e3 = [] \/ starts_past_startup e3).
    { destruct (total_run _ _ m2
                  (behaves_queue_buffers (v4l2_fd (cap m2)) (num_buf (cap m2))))
        as (q' & m3' & e3' & Hr3' & Ht3' & Hf3).
      unfold queue_buffers in Hr3'. rewrite Hr3 in Hr3'. injection Hr3' as <- <-.
      rewrite Ht3 in Ht3'. apply app_inv_head in Ht3'. subst e3'.
      eapply class_starts_past_startup; [|exact Hf3]. class_incl. }
    unfold queue_buffers. erewrite bind_ret_run by exact Hr3.
    destruct (Z.eqb_spec q 0) as [->|Hq]; cbn [negb].
    + unfold start_stream, bind, get_cap. cbn [fst snd].
      match goal with |- context [ioctl ?f ?k m3] =>
        destruct (ioctl_run f k m3) as (m4 & -> & _ & _ & _ & _ & _ & _ & Ht4 & _) end.
      unfold bind, ret. eexists _, m4, ((e2 ++ e3) ++ [_]). split; [reflexivity|]. split.
      * rewrite Ht4, Ht3, Ht2, Ht1, <- !app_assoc. reflexivity.
      * split.
        -- destruct Hs2 as [->|Hs2]; [|rewrite <- app_assoc; now apply starts_past_startup_app].
           destruct Hs3 as [->|Hs3]; [|now apply starts_past_startup_app].
           eexists _, []. split; reflexivity.
        -- intros Hv. repeat apply Forall_app_2; auto.
           repeat constructor. unfold unfailed, fatal_failure. simpl.
           rewrite Hv. reflexivity.
    + destruct (capture_shutdown_log m3) as (v & m4 & e4 & Hr4 & Ht4 & Htd).
      erewrite bind_ret_run by exact Hr4. unfold ret.
      eexists q, m4, ((e2 ++ e3) ++ e4). split; [reflexivity|]. split.
      * rewrite Ht4, Ht3, Ht2, Ht1, <- !app_assoc. reflexivity.
      * split; [|intros Hv; contradiction].
        destruct Hs2 as [->|Hs2]; [|rewrite <- app_assoc; now apply starts_past_startup_app].
        destruct Hs3 as [->|Hs3]; [|now apply starts_past_startup_app].
        now apply teardown_starts_past_startup.
  - destruct (capture_shutdown_log m2) as (v & m3 & e3 & Hr3 & Ht3 & Htd).
    erewrite bind_ret_run by exact Hr3. unfold ret.
    eexists r, m3, (e2 ++ e3). split; [reflexivity|]. split.
    + rewrite Ht3, Ht2, Ht1, <- !app_assoc. reflexivity.
    + split; [|intros Hv; contradiction].
      destruct Hs2 as [->|Hs2]; [|now apply starts_past_startup_app].
      now apply teardown_starts_past_startup.
Qed.

(** The ways [capture_setup] ends: with exit() when the format or the
    buffer request fails, or by returning once both went through; a return
    of 0 means that no call failed. *)
Lemma capture_setup_paths (opt : options) (m : machine) :
  exists o m' ext,
    capture_setup opt m = (o, m') /\ trace m' = trace m ++ ext /\
    match o with
    | Ret v =>
        (v = 0 -> Forall unfailed ext) /\
        exists e1 e2 rest,
          ext = e1 :: e2 :: rest /\
          startup_failure e1 = false /\ startup_failure e2 = false /\
          starts_past_startup rest
    | Exit _ =>
        Forall (fun e => setup_call (ev_call e) = true) ext /\
        exists pre e,
          ext = pre ++ [e] /\ Forall (fun x => startup_failure x = false) pre /\
          startup_failure e = true
    | Spin => False
    end.
Proof.
  unfold capture_setup, bind at 1 2, upd_cap, get_cap. cbn [fst snd].
  match goal with |- context [bind (ioctl ?f ?k) _ ?m0] =>
    destruct (ioctl_run f k m0) as (m1 & Hio1 & _ & _ & _ & _ & _ & _ & Ht1 & _) end.
  erewrite bind_ret_run by exact Hio1. simpl trace in Ht1. cbn [env calls set_cap] in *.
  destruct (r_ret (env m (calls m)) <? 0) eqn:E1.
  { unfold bind, get_errno, exit_. eexists _, m1, _. split; [reflexivity|].
    split; [exact Ht1|]. split; [repeat constructor|].
    eexists [], _. split; [reflexivity|]. split; [constructor|]. exact E1. }
  match goal with |- context [bind (ioctl ?f ?k) _ m1] =>
    destruct (ioctl_run f k m1) as (m2 & Hio2 & _ & _ & _ & _ & _ & _ & Ht2 & _) end.
  erewrite bind_ret_run by exact Hio2.
  destruct (r_ret (env m1 (calls m1)) <? 0) eqn:E2.
  { unfold bind, get_errno, exit_. eexists _, m2, _. split; [reflexivity|].
    split; [rewrite Ht2, Ht1, <- app_assoc; reflexivity|].
    split; [repeat constructor|].
    eexists [_], _. split; [reflexivity|]. split; [repeat constructor; exact E1|].
    exact E2. }
  unfold bind at 1. cbn [fst snd].
  match goal with |- context [capture_setup_buffers ?d ?m0] =>
    destruct (capture_setup_buffers_clean d m0) as (v & m3 & e3 & Hr3 & Ht3 & Hs3 & Hok) end.
  rewrite Hr3. eexists _, m3, (_ :: _ :: e3). split; [reflexivity|]. split.
  - rewrite Ht3. simpl trace. rewrite Ht2, Ht1, <- !app_assoc. reflexivity.
  - split.
    + intros Hv. repeat constructor; auto.
    + eexists _, _, e3. split; [reflexivity|]. auto.
Qed.

Lemma capture_setup_cases (opt : options) (m : machine) :
  exists o m' ext,
    capture_setup opt m = (o, m') /\ trace m' = trace m ++ ext /\
    Forall (fun e => not_dqbuf (ev_call e) = true) ext /\
    match o with
    | Ret v =>
        (v = 0 -> Forall unfailed ext) /\
        exists e1 e2 rest,
          ext = e1 :: e2 :: rest /\
          startup_failure e1 = false /\ startup_failure e2 = false /\
          starts_past_startup rest
    | Exit _ =>
        Forall (fun e => setup_call (ev_call e) = true) ext /\
        exists pre e,
          ext = pre ++ [e] /\ Forall (fun x => startup_failure x = false) pre /\
          startup_failure e = true
    | Spin => False
    end.
Proof.
  destruct (capture_setup_paths opt m) as (o & m' & ext & Hrun & Ht & Ho).
  destruct (behaves_run _ _ _ m (behaves_capture_setup opt))
    as (o' & m'' & ext' & Hrun' & _ & Ht' & Hf).
  rewrite Hrun in Hrun'. injection Hrun' as <- <-.
  rewrite Ht in Ht'. apply app_inv_head in Ht'. subst ext'.
  exists o, m', ext. auto.
Qed.

(** ** Ownership along a log *)

Lemma owned_from_app (o : list Z) (t1 t2 : list event) :
  owned_from o (t1 ++ t2) = owned_from (owned_from o t1) t2.
Proof. unfold owned_from. apply fold_left_app. Qed.

Lemma at_most_one_app (o : list Z) (t1 t2 : list event) :
  at_most_one o (t1 ++ t2) <-> at_most_one o t1 /\ at_most_one (owned_from o t1) t2.
Proof.
  revert o. induction t1 as [|e t1 IH]; intros o; simpl.
  - split; [intros H; split; [|exact H] | intros [_ H]; exact H].
    destruct t2; simpl in H; tauto.
  - rewrite IH. unfold owned_from. simpl. tauto.
Qed.

Lemma remove_one_length (i : Z) (l : list Z) :
  (length (remove_one i l) <= length l)%nat.
Proof.
  induction l as [|x l IH]; simpl; [lia|].
  destruct (x =? i); simpl; lia.
Qed.

(** Calls other than a dequeue never add a buffer to the application. *)
Lemma not_dqbuf_owned (ext : list event) :
  Forall (fun e => not_dqbuf (ev_call e) = true) ext ->
  forall o, (length o <= 1)%nat ->
    at_most_one o ext /\ (length (owned_from o ext) <= length o)%nat.
Proof.
  induction 1 as [|e ext He _ IH]; intros o Ho; simpl.
  - split; [exact Ho | unfold owned_from; simpl; lia].
  - assert (Hs : (length (own_step o e) <= length o)%nat).
    { unfold own_step.
      destruct (ev_call e) as [| ? []| | | | | | | |]; simpl in *; try lia; try discriminate.
      destruct (r_ret (ev_resp e) <? 0); [lia | apply remove_one_length]. }
    destruct (IH (own_step o e) ltac:(lia)) as [H1 H2].
    split; [split; [exact Ho | exact H1]|].
    unfold owned_from in *. simpl. lia.
Qed.

Lemma not_dqbuf_at_most_one (ext : list event) (o : list Z) :
  Forall (fun e => not_dqbuf (ev_call e) = true) ext ->
  (length o <= 1)%nat -> at_most_one o ext.
Proof. intros Hf Ho. now apply not_dqbuf_owned. Qed.

(** Calls that neither dequeue nor queue leave the ownership as it is. *)
Lemma neutral_owned (ext : list event) :
  Forall (fun e => neutral_call (ev_call e) = true) ext ->
  forall o, (length o <= 1)%nat -> at_most_one o ext /\ owned_from o ext = o.
Proof.
  induction 1 as [|e ext He _ IH]; intros o Ho; simpl.
  - split; [exact Ho | reflexivity].
  - assert (Hs : own_step o e = o).
    { unfold own_step.
      destruct (ev_call e) as [| ? []| | | | | | | |]; simpl in *; auto; discriminate. }
    unfold owned_from. simpl. rewrite Hs. destruct (IH o Ho) as [H1 H2].
    split; [split; [exact Ho | exact H1] | exact H2].
Qed.

Lemma class_weaken (cls cls' : call -> bool) (ext : list event) :
  (forall k, cls k = true -> cls' k = true) ->
  Forall (fun e => cls (ev_call e) = true) ext ->
  Forall (fun e => cls' (ev_call e) = true) ext.
Proof. intros Hi Hf. eapply Forall_impl; [exact Hf|]. simpl. auto. Qed.

Lemma at_most_one_end (o : list Z) (tr : list event) :
  at_most_one o tr -> (length (owned_from o tr) <= 1)%nat.
Proof.
  revert o. induction tr as [|e tr IH]; intros o; simpl; [auto|].
  intros [_ H]. apply (IH _ H).
Qed.

(** A dequeue that succeeds, followed by the calls of the renderer: the
    application owns the buffer that was handed out, and only that one. *)
Lemma owned_pass (fd : Z) (r : response) (a : application_state) (ext : list event) :
  0 <= r_ret r ->
  Forall (fun e => display_call (ev_call e) = true) ext ->
  at_most_one [] ([{| ev_call := Ioctl fd VIDIOC_DQBUF; ev_resp := r; ev_app := a |}] ++ ext) /\
  owned_from [] ([{| ev_call := Ioctl fd VIDIOC_DQBUF; ev_resp := r; ev_app := a |}] ++ ext)
    = [r_val r].
Proof.
  intros Hr Hf.
  assert (Hn : Forall (fun e => neutral_call (ev_call e) = true) ext).
  { eapply class_weaken; [|exact Hf]. class_incl. }
  destruct (neutral_owned ext Hn [r_val r] ltac:(simpl; lia)) as [H1 H2].
  assert (Hs : own_step [] {| ev_call := Ioctl fd VIDIOC_DQBUF; ev_resp := r; ev_app := a |}
               = [r_val r]).
  { unfold own_step. simpl. destruct (Z.ltb_spec (r_ret r) 0); [lia | reflexivity]. }
  split.
  - simpl. rewrite Hs. split; [lia | exact H1].
  - rewrite owned_from_app. unfold owned_from at 2. simpl. rewrite Hs. exact H2.
Qed.

(** Queueing the buffer the application owns. *)
Lemma owned_requeue (fd i : Z) (r : response) (a : application_state) :
  at_most_one [i] [{| ev_call := Ioctl fd (VIDIOC_QBUF i); ev_resp := r; ev_app := a |}] /\
  (0 <= r_ret r ->
   owned_from [i] [{| ev_call := Ioctl fd (VIDIOC_QBUF i); ev_resp := r; ev_app := a |}] = []).
Proof.
  assert (Hs : own_step [i]
                 {| ev_call := Ioctl fd (VIDIOC_QBUF i); ev_resp := r; ev_app := a |}
               = if r_ret r <? 0 then [i] else []).
  { unfold own_step. simpl. now rewrite Z.eqb_refl. }
  unfold owned_from. simpl. rewrite Hs.
  destruct (Z.ltb_spec (r_ret r) 0); simpl; repeat split; intros; try lia; auto.
Qed.
(** ** The display code, failure by failure *)

Lemma behaves_focus_state_control s : behaves Total control_call (focus_state s).
Proof.
  intros m. unfold focus_state.
  match goal with |- context [bind ?c ?k] => assert (H : behaves Total control_call (bind c k)) end.
  { behaves_walk. }
  apply H.
Qed.

Lemma behaves_test_pattern_control s : behaves Total control_call (test_pattern s).
Proof. unfold test_pattern. behaves_walk. Qed.

Lemma behaves_do_key_event_control keys n :
  behaves Total control_call (do_key_event keys n).
Proof.
  unfold do_key_event, print_key_functions.
  destruct (n =? 1); [|apply behaves_ret].
  pose proof behaves_focus_state_control. pose proof behaves_test_pattern_control.
  destruct (hd "000"%char keys) as [b0 b1 b2 b3 b4 b5 b6 b7].
  destruct b0, b1, b2, b3, b4, b5, b6, b7; cbv beta iota; behaves_walk.
Qed.

Lemma behaves_process_events_control evs :
  forall quit, behaves Total control_call (process_events evs quit).
Proof.
  induction evs as [|ev evs IH]; intros quit; simpl.
  - apply behaves_ret.
  - pose proof behaves_do_key_event_control. destruct ev; behaves_walk.
Qed.

(** Handling the pending X events asks for the events and sends control
    requests, nothing else. *)
Lemma behaves_pending_events : behaves Total control_call x11_process_pending_events.
Proof.
  unfold x11_process_pending_events.
  pose proof behaves_process_events_control. behaves_walk.
Qed.

(** When the renderer does not report an error, the draw call did not
    fail. *)
Lemma render_clean (m : machine) :
  exists rr m' ext,
    render_nv12m_subs_tex m = (Ret rr, m') /\ trace m' = trace m ++ ext /\
    (0 <= rr -> Forall unfailed ext).
Proof.
  unfold render_nv12m_subs_tex.
  destruct (total_run _ _ m behaves_pending_events) as (quit & m1 & e1 & Hr1 & Ht1 & Hf1).
  erewrite bind_ret_run by exact Hr1.
  assert (Hu1 : Forall unfailed e1).
  { eapply other_calls_unfailed; [|exact Hf1]. class_unfailed. }
  destruct (negb (quit =? 0)).
  - destruct (sys_run XCloseDisplay m1) as (m2 & Hr2 & _ & _ & _ & _ & _ & _ & Ht2 & _).
    erewrite bind_ret_run by exact Hr2. unfold ret.
    eexists 1, m2, (e1 ++ [_]). split; [reflexivity|].
    split; [rewrite Ht2, Ht1, <- app_assoc; reflexivity|].
    intros _. apply Forall_app_2; [exact Hu1|]. repeat constructor.
  - unfold bind at 1, get_disp. cbn [fst snd].
    destruct ((render_num_buffers (disp m1) <? 2) || _ || _).
    + unfold ret. exists (-1), m1, e1. split; [reflexivity|]. split; [exact Ht1|]. lia.
    + destruct (sys_run GlDraw m1) as (m2 & Hr2 & _ & _ & _ & _ & _ & _ & Ht2 & _).
      erewrite bind_ret_run by exact Hr2. unfold ret.
      destruct (negb (r_ret (env m1 (calls m1)) =? 0)) eqn:E.
      * eexists (-1), m2, _. split; [reflexivity|].
        split; [rewrite Ht2, Ht1, <- app_assoc; reflexivity|]. lia.
      * eexists 0, m2, (e1 ++ [_]). split; [reflexivity|].
        split; [rewrite Ht2, Ht1, <- app_assoc; reflexivity|].
        intros _. apply Forall_app_2; [exact Hu1|]. repeat constructor. exact E.
Qed.

Lemma behaves_camera_nv12m_setup : behaves Total window_call camera_nv12m_setup.
Proof.
  unfold camera_nv12m_setup.
  pose proof (behaves_sub Total control_call window_call _ behaves_pending_events
                ltac:(class_incl)).
  behaves_walk.
Qed.

(** One step of the display setup. *)
Lemma setup_step_run (s : display_step) (m : machine) :
  exists m',
    sys (DisplaySetup s) m = (Ret (env m (calls m)), m') /\
    trace m' = trace m ++
      [{| ev_call := DisplaySetup s; ev_resp := env m (calls m); ev_app := app (cap m) |}].
Proof.
  destruct (sys_run (DisplaySetup s) m) as (m' & Hr & _ & _ & _ & _ & _ & _ & Ht & _).
  eauto.
Qed.

Lemma close_display_run (v : Z) (m : machine) :
  exists m',
    (_ <- sys XCloseDisplay ;; ret v) m = (Ret v, m') /\
    trace m' = trace m ++
      [{| ev_call := XCloseDisplay; ev_resp := env m (calls m); ev_app := app (cap m) |}].
Proof.
  destruct (sys_run XCloseDisplay m) as (m' & Hr & _ & _ & _ & _ & _ & _ & Ht & _).
  exists m'. erewrite bind_ret_run by exact Hr. auto.
Qed.

(** The display setup returns, 0 or -1; it makes no request for a buffer;
    when it returns 0 none of its steps failed. *)
Lemma camera_nv12m_setup_cases (m : machine) :
  exists v m' ext,
    camera_nv12m_setup m = (Ret v, m') /\ trace m' = trace m ++ ext /\
    Forall (fun e => window_call (ev_call e) = true) ext /\
    (v = 0 \/ v = -1) /\
    (v = 0 -> Forall unfailed ext).
Proof.
  destruct (total_run _ _ m behaves_camera_nv12m_setup) as (v & m' & ext & Hrun & Ht & Hf).
  exists v, m', ext. split; [exact Hrun|]. split; [exact Ht|]. split; [exact Hf|].
  revert Hrun. unfold camera_nv12m_setup.
  destruct (setup_step_run CreateWindow m) as (m1 & Hr1 & Ht1).
  erewrite bind_ret_run by exact Hr1.
  destruct (r_ret (env m (calls m)) <? 0) eqn:E1.
  { unfold ret. intros [= <- <-]. split; [auto|]. discriminate. }
  destruct (setup_step_run EglInit m1) as (m2 & Hr2 & Ht2).
  erewrite bind_ret_run by exact Hr2.
  destruct (r_ret (env m1 (calls m1)) <? 0) eqn:E2.
  { destruct (close_display_run (-1) m2) as (m3 & -> & _).
    intros [= <- <-]. split; [auto|]. discriminate. }
  destruct (total_run _ _ m2 behaves_pending_events) as (q & m3 & e3 & Hr3 & Ht3 & Hf3).
  erewrite bind_ret_run by exact Hr3.
  assert (Hu3 : Forall unfailed e3).
  { eapply other_calls_unfailed; [|exact Hf3]. class_unfailed. }
  destruct (setup_step_run LoadProgram m3) as (m4 & Hr4 & Ht4).
  erewrite bind_ret_run by exact Hr4.
  destruct (r_ret (env m3 (calls m3)) =? 0) eqn:E4.
  { destruct (close_display_run (-1) m4) as (m5 & -> & _).
    intros [= <- <-]. split; [auto|]. discriminate. }
  destruct (setup_step_run LumaLocation m4) as (m5 & Hr5 & Ht5).
  erewrite bind_ret_run by exact Hr5.
  destruct (r_ret (env m4 (calls m4)) =? -1) eqn:E5.
  { destruct (close_display_run (-1) m5) as (m6 & -> & _).
    intros [= <- <-]. split; [auto|]. discriminate. }
  destruct (setup_step_run ChromaLocation m5) as (m6 & Hr6 & Ht6).
  erewrite bind_ret_run by exact Hr6.
  destruct (r_ret (env m5 (calls m5)) =? -1) eqn:E6.
  { unfold ret. intros [= <- <-]. split; [auto|]. discriminate. }
  destruct (setup_step_run LumaTexture m6) as (m7 & Hr7 & Ht7).
  erewrite bind_ret_run by exact Hr7.
  destruct (negb (r_ret (env m6 (calls m6)) =? 0)) eqn:E7.
  { destruct (close_display_run (-1) m7) as (m8 & -> & _).
    intros [= <- <-]. split; [auto|]. discriminate. }
  destruct (setup_step_run ChromaTexture m7) as (m8 & Hr8 & Ht8).
  erewrite bind_ret_run by exact Hr8.
  destruct (negb (r_ret (env m7 (calls m7)) =? 0)) eqn:E8.
  { unfold ret. intros [= <- <-]. split; [auto|]. discriminate. }
  unfold ret. intros [= <- <-]. split; [auto|]. intros _.
  rewrite Ht8, Ht7, Ht6, Ht5, Ht4, Ht3, Ht2, Ht1, <- !app_assoc in Ht.
  apply app_inv_head in Ht. subst ext.
  repeat (apply Forall_app_2 || apply Forall_cons_2 || apply Forall_nil_2);
    try assumption; unfold unfailed, fatal_failure; simpl; assumption.
Qed.

(** ** The capture loop and the session, case by case *)

Lemma dequeues_app (t1 t2 : list event) :
  dequeues (t1 ++ t2) = (dequeues t1 + dequeues t2)%nat.
Proof. unfold dequeues. rewrite List.filter_app. apply length_app. Qed.

Lemma not_dqbuf_dequeues (ext : list event) :
  Forall (fun e => not_dqbuf (ev_call e) = true) ext -> dequeues ext = 0%nat.
Proof.
  unfold dequeues, not_dqbuf. induction 1 as [|e ext He _ IH]; [reflexivity|].
  simpl. apply negb_true_iff in He. rewrite He. exact IH.
Qed.

(** The loop never calls exit(); at every point of its log the
    application owns at most one buffer; if it is still running when the fuel
    ends, it has made one pass for each unit of fuel and no call has failed in
    it so far. *)
Lemma yuv_loop_cases (fuel : nat) :
  forall (r : Z) (m : machine),
  exists o m' ext,
    yuv_loop fuel r m = (o, m') /\ trace m' = trace m ++ ext /\
    at_most_one [] ext /\
    match o with
    | Ret _ => True
    | Exit _ => False
    | Spin => Forall unfailed ext /\ dequeues ext = fuel
    end.
Proof.
  induction fuel as [|fuel IH]; intros r m.
  - destruct (loop_condition r m) eqn:Hc.
    + exists Spin, m, []. split.
      * simpl. unfold bind, get_signal_quit. unfold loop_condition in Hc. now rewrite Hc.
      * rewrite app_nil_r. simpl. auto.
    + exists (Ret 0), m, []. rewrite yuv_loop_stop by exact Hc.
      rewrite app_nil_r. simpl. auto.
  - destruct (loop_condition r m) eqn:Hc.
    2:{ exists (Ret 0), m, []. rewrite yuv_loop_stop by exact Hc.
        rewrite app_nil_r. simpl. auto. }
    rewrite yuv_loop_step by exact Hc.
    destruct (yuv_body_cases m) as (m0 & _ & Ht0 & Hcases). cbn zeta in *.
    destruct Hcases as [[Hneg Hb]|(Hpos & m1 & rr & m2 & ext & Hsel & Hren & Ht2 & Hf & Hcases)].
    { erewrite bind_ret_run by exact Hb. eexists _, m0, _.
      split; [reflexivity|]. split; [exact Ht0|]. split; [|exact I].
      simpl. unfold own_step. simpl.
      destruct (Z.ltb_spec (r_ret (env m (calls m))) 0); simpl; lia. }
    destruct (owned_pass (v4l2_fd (cap m)) (env m (calls m)) (app (cap m)) ext Hpos Hf)
      as [Hone Hown].
    assert (Hclean : rr = 0 -> Forall unfailed ext).
    { intros Hrr.
      destruct (render_clean m1) as (rr' & m2' & ext' & Hren' & Ht' & Hu).
      rewrite Hren in Hren'. injection Hren' as <- <-.
      destruct (select_buffer_run (r_val (env m (calls m))) m0) as (d & Hsel').
      rewrite Hsel in Hsel'. injection Hsel' as ->.
      simpl trace in Ht'. rewrite Ht0, Ht2, <- app_assoc in Ht'.
      apply app_inv_head in Ht'. injection Ht' as ->.
      apply Hu. lia. }
    destruct Hcases as [[_ Hb]|[[_ Hb]|(Hrr & m3 & _ & Ht3 & Hb)]].
    + erewrite bind_ret_run by exact Hb. eexists _, m2, _.
      split; [reflexivity|]. split; [exact Ht2|]. split; [exact Hone | exact I].
    + erewrite bind_ret_run by exact Hb. eexists _, m2, _.
      split; [reflexivity|]. split; [exact Ht2|]. split; [exact Hone | exact I].
    + erewrite bind_ret_run by exact Hb.
      destruct (owned_requeue (v4l2_fd (cap m2)) (r_val (env m (calls m)))
                  (env m2 (calls m2)) (app (cap m2))) as [Hq1 Hq2].
      destruct (Z.eqb_spec (r_ret (env m2 (calls m2))) 0) as [Hz|Hnz].
      * destruct (IH (r_ret (env m2 (calls m2))) m3)
          as (o & m' & ext' & Hrun & Ht & Hone' & Ho).
        eexists o, m', (([_] ++ ext) ++ [_] ++ ext'). split; [exact Hrun|]. split.
        { rewrite Ht, Ht3, Ht2, <- !app_assoc. reflexivity. }
        split.
        { apply at_most_one_app. split; [exact Hone|]. rewrite Hown.
          apply at_most_one_app. split; [exact Hq1|].
          rewrite Hq2 by lia. exact Hone'. }
        destruct o; auto. destruct Ho as [Hu Hd]. split.
        -- repeat apply Forall_app_2; auto.
           ++ repeat constructor. unfold unfailed, fatal_failure. simpl.
              destruct (Z.ltb_spec (r_ret (env m (calls m))) 0); [lia | reflexivity].
           ++ repeat constructor. unfold unfailed, fatal_failure. simpl.
              rewrite Hz. reflexivity.
        -- rewrite !dequeues_app, Hd.
           rewrite (not_dqbuf_dequeues ext)
             by (eapply class_weaken; [|exact Hf]; class_incl).
           reflexivity.
      * rewrite yuv_loop_stop.
        2:{ unfold loop_condition. destruct (Z.eqb_spec (r_ret (env m2 (calls m2))) 0);
              [contradiction | reflexivity]. }
        eexists _, m3, (([_] ++ ext) ++ [_]). split; [reflexivity|]. split.
        { rewrite Ht3, Ht2, <- !app_assoc. reflexivity. }
        split; [|exact I].
        apply at_most_one_app. split; [exact Hone|]. rewrite Hown. exact Hq1.
Qed.

Lemma teardown_log_not_dqbuf (td : list event) :
  teardown_log td -> Forall (fun e => not_dqbuf (ev_call e) = true) td.
Proof.
  intros (e1 & mid & e2 & fd & ty & mem & -> & H1 & Hmid & H2).
  repeat apply Forall_app_2.
  - repeat constructor. now rewrite H1.
  - eapply class_weaken; [|exact Hmid]. class_incl.
  - repeat constructor. now rewrite H2.
Qed.

Lemma ends_with_teardown_app (pre td : list event) :
  teardown_log td -> ends_with_teardown (pre ++ td).
Proof. intros H. exists pre, td. auto. Qed.

(** The display setup begins with the creation of the window. *)
Lemma camera_nv12m_setup_first (m : machine) :
  exists rest,
    trace (snd (camera_nv12m_setup m)) =
      trace m ++
      {| ev_call := DisplaySetup CreateWindow; ev_resp := env m (calls m);
         ev_app := app (cap m) |} :: rest.
Proof.
  unfold camera_nv12m_setup.
  match goal with |- context [bind (sys ?c) ?k] =>
    assert (Hk : forall w, behaves Total window_call (k w)) end.
  { intros w.
    pose proof (behaves_sub Total control_call window_call _ behaves_pending_events
                  ltac:(class_incl)).
    behaves_walk. }
  destruct (setup_step_run CreateWindow m) as (m1 & Hr1 & Ht1).
  erewrite bind_ret_run by exact Hr1.
  destruct (Hk (env m (calls m)) m1) as (_ & _ & ext & Ht & _).
  cbv beta in Ht. exists ext. rewrite Ht, Ht1, <- app_assoc. reflexivity.
Qed.

(** [capture_display_yuv]: the display setup, and the loop when the setup
    went through. *)
Lemma capture_display_yuv_cases (fuel : nat) (m : machine) :
  exists o m' ext,
    capture_display_yuv fuel m = (o, m') /\ trace m' = trace m ++ ext /\
    at_most_one [] ext /\
    starts_past_startup ext /\
    match o with
    | Ret _ => True
    | Exit _ => False
    | Spin => Forall unfailed ext /\ dequeues ext = fuel
    end.
Proof.
  unfold capture_display_yuv.
  destruct (select_buffer_run 0 m) as (d & Hsel).
  erewrite bind_ret_run by exact Hsel.
  destruct (camera_nv12m_setup_cases (set_disp d m))
    as (v & m2 & e2 & Hr2 & Ht2 & Hf2 & Hv & Hu2).
  erewrite bind_ret_run by exact Hr2. simpl trace in Ht2.
  assert (Hn2 : Forall (fun e => neutral_call (ev_call e) = true) e2).
  { eapply class_weaken; [|exact Hf2]. class_incl. }
  destruct (neutral_owned e2 Hn2 [] ltac:(simpl; lia)) as [Hone2 Hown2].
  assert (Hs2 : starts_past_startup e2).
  { destruct (camera_nv12m_setup_first (set_disp d m)) as (rest & Hfirst).
    rewrite Hr2 in Hfirst. cbn [snd] in Hfirst. simpl trace in Hfirst.
    rewrite Ht2 in Hfirst. apply app_inv_head in Hfirst. subst e2.
    eexists _, rest. split; reflexivity. }
  destruct Hv as [-> | ->]; cbn [negb Z.eqb].
  - destruct (yuv_loop_cases fuel 0 m2) as (o & m3 & e3 & Hr3 & Ht3 & Hone & Ho).
    eexists o, m3, (e2 ++ e3). split; [exact Hr3|]. split.
    + rewrite Ht3, Ht2, <- !app_assoc. reflexivity.
    + split; [apply at_most_one_app; rewrite Hown2; auto|].
      split; [now apply starts_past_startup_app|].
      destruct o; auto. destruct Ho as [Hu Hd].
      split; [apply Forall_app_2; auto|].
      rewrite dequeues_app, Hd.
      rewrite (not_dqbuf_dequeues e2)
        by (eapply class_weaken; [|exact Hf2]; class_incl).
      reflexivity.
  - unfold ret. eexists _, m2, e2. split; [reflexivity|]. split; [exact Ht2|].
    split; [exact Hone2|]. split; [exact Hs2 | exact I].
Qed.

(** The session after a successful setup: whenever the loop returns, the
    shutdown runs. *)
Lemma capture_session_cases (fuel : nat) (m : machine) :
  exists o m' ext,
    capture_session fuel m = (o, m') /\ trace m' = trace m ++ ext /\
    at_most_one [] ext /\
    match o with
    | Ret _ => ends_with_teardown ext
    | Exit _ => False
    | Spin => Forall unfailed ext /\ dequeues ext = fuel
    end.
Proof.
  unfold capture_session.
  destruct (total_run _ _ m (behaves_sigaction Total neutral_call eq_refl))
    as ([] & m1 & e1 & Hr1 & Ht1 & Hf1).
  erewrite bind_ret_run by exact Hr1.
  unfold bind at 1, upd_disp. cbn [fst snd].
  assert (Hclean1 : Forall unfailed e1).
  { destruct (total_run _ _ m (behaves_sigaction Total
                (fun k => match k with Sigaction => true | _ => false end) eq_refl))
      as ([] & m1' & e1' & Hr1' & Ht1' & Hf1').
    rewrite Hr1 in Hr1'. injection Hr1' as <-.
    rewrite Ht1 in Ht1'. apply app_inv_head in Ht1'. subst e1'.
    eapply Forall_impl; [exact Hf1'|]. intros e He. cbv beta in He.
    unfold unfailed, fatal_failure. destruct (ev_call e); try discriminate He.
    reflexivity. }
  destruct (capture_display_yuv_cases fuel
              (set_disp (set_key_event (Some cb_do_key_event) (disp m1)) m1))
    as (o & m2 & e2 & Hr2 & Ht2 & Hone2 & _ & Ho).
  simpl trace in Ht2.
  destruct (neutral_owned e1 Hf1 [] ltac:(simpl; lia)) as [Hone1 Hown1].
  assert (Hone12 : at_most_one [] (e1 ++ e2)).
  { apply at_most_one_app. rewrite Hown1. auto. }
  destruct o as [v|code|]; [|contradiction|].
  - erewrite bind_ret_run by exact Hr2.
    destruct (capture_shutdown_log m2) as (v' & m3 & td & Hr3 & Ht3 & Htd).
    erewrite bind_ret_run by exact Hr3.
    exists (Ret v), m3, ((e1 ++ e2) ++ td). split; [reflexivity|].
    split; [rewrite Ht3, Ht2, Ht1, <- !app_assoc; reflexivity|].
    split; [|now apply ends_with_teardown_app].
    apply at_most_one_app. split; [exact Hone12|].
    apply not_dqbuf_at_most_one; [now apply teardown_log_not_dqbuf | now apply at_most_one_end].
  - erewrite bind_spin_run by exact Hr2.
    exists Spin, m2, (e1 ++ e2). split; [reflexivity|].
    split; [rewrite Ht2, Ht1, <- !app_assoc; reflexivity|].
    split; [exact Hone12|]. destruct Ho as [Hu Hd].
    split; [apply Forall_app_2; auto|].
    rewrite dequeues_app, Hd.
    rewrite (not_dqbuf_dequeues e1)
      by (eapply class_weaken; [|exact Hf1]; class_incl).
    reflexivity.
Qed.

(** ** The startup *)

Lemma open_startup (p : string) (m : machine) :
  exists m', open p m = (Ret (r_ret (env m (calls m))), m') /\
    env m' = env m /\ calls m' = S (calls m) /\
    trace m' = trace m ++
      [{| ev_call := Open p; ev_resp := env m (calls m); ev_app := app (cap m) |}].
Proof.
  unfold open, sys_int, bind.
  destruct (sys_run (Open p) m) as (m1 & -> & _ & _ & He & _ & Hn & _ & Ht & _).
  unfold set_errno_if, ret. eexists; split; [reflexivity|].
  destruct (r_ret _ <? 0); simpl; auto.
Qed.

(** Opening the capture device: the descriptor is negative exactly when
    the last call made, the opening or the query of the capabilities, is a
    failure of the startup. *)
Lemma get_device_startup (p : string) (m : machine) :
  exists fd m' ext,
    get_device p m = (Ret fd, m') /\ trace m' = trace m ++ ext /\
    Forall (fun e => setup_call (ev_call e) = true) ext /\
    ((fd < 0 /\
      exists pre e,
        ext = pre ++ [e] /\ Forall (fun x => startup_failure x = false) pre /\
        startup_failure e = true) \/
     (0 <= fd /\ Forall (fun x => startup_failure x = false) ext)).
Proof.
  destruct (total_run _ _ m (behaves_get_device p)) as (fd & m' & ext & Hrun & Ht & Hf).
  exists fd, m', ext. split; [exact Hrun|]. split; [exact Ht|]. split; [exact Hf|].
  revert Hrun. unfold get_device.
  destruct (open_startup p m) as (m1 & Hr1 & _ & _ & Ht1).
  erewrite bind_ret_run by exact Hr1.
  destruct (Z.ltb_spec (r_ret (env m (calls m))) 0) as [Hn|Hn].
  - unfold ret. intros [= <- <-]. left. split; [lia|].
    rewrite Ht1 in Ht. apply app_inv_head in Ht. subst ext.
    eexists [], _. split; [reflexivity|]. split; [constructor|].
    unfold startup_failure. simpl. now apply Z.ltb_lt.
  - destruct (ioctl_run (r_ret (env m (calls m))) VIDIOC_QUERYCAP m1)
      as (m2 & Hr2 & _ & _ & _ & _ & _ & _ & Ht2 & _).
    erewrite bind_ret_run by exact Hr2. cbv zeta. unfold ret. intros [= <- <-].
    rewrite Ht2, Ht1, <- app_assoc in Ht. apply app_inv_head in Ht. subst ext.
    set (m1' := m1) in *.
    assert (Ho : startup_failure
                   {| ev_call := Open p; ev_resp := env m (calls m);
                      ev_app := app (cap m) |} = false).
    { unfold startup_failure. simpl. now apply Z.ltb_ge. }
    destruct (Z.land (r_val (env m1' (calls m1'))) V4L2_CAP_VIDEO_CAPTURE_MPLANE =? 0) eqn:E1;
      destruct (Z.land (r_val (env m1' (calls m1'))) V4L2_CAP_STREAMING =? 0) eqn:E2.
    4:{ right. split; [exact Hn|]. repeat constructor; [exact Ho|].
        unfold startup_failure. simpl. rewrite E1, E2. reflexivity. }
    all: left; split; [lia|]; eexists [_], _; split; [reflexivity|];
      split; [repeat constructor; exact Ho|];
      unfold startup_failure; simpl; rewrite E1, E2; reflexivity.
Qed.

Lemma get_subdevice_startup (p : string) (m : machine) :
  exists fd m' ext,
    get_subdevice p m = (Ret fd, m') /\ trace m' = trace m ++ ext /\
    Forall (fun e => setup_call (ev_call e) = true) ext /\
    ((fd < 0 /\
      exists pre e,
        ext = pre ++ [e] /\ Forall (fun x => startup_failure x = false) pre /\
        startup_failure e = true) \/
     (0 <= fd /\ Forall (fun x => startup_failure x = false) ext)).
Proof.
  destruct (total_run _ _ m (behaves_get_subdevice p)) as (fd & m' & ext & Hrun & Ht & Hf).
  exists fd, m', ext. split; [exact Hrun|]. split; [exact Ht|]. split; [exact Hf|].
  revert Hrun. unfold get_subdevice.
  destruct (open_startup p m) as (m1 & Hr1 & _ & _ & Ht1).
  erewrite bind_ret_run by exact Hr1.
  destruct (Z.ltb_spec (r_ret (env m (calls m))) 0) as [Hn|Hn];
    unfold ret; intros [= <- <-];
    rewrite Ht1 in Ht; apply app_inv_head in Ht; subst ext.
  - left. split; [lia|].
    eexists [], _. split; [reflexivity|]. split; [constructor|].
    unfold startup_failure. simpl. now apply Z.ltb_lt.
  - right. split; [exact Hn|]. repeat constructor.
    unfold startup_failure. simpl. now apply Z.ltb_ge.
Qed.




(** The session driver: it ends with exit() exactly when a call of the
    startup fails, and has then made only calls of the startup; otherwise it
    has gone through the startup; whenever it returns, the last thing it did
    is the teardown; while it runs, no call has failed and the loop has made
    its passes. *)
Lemma capture_and_display_cases (fuel : nat) (opt : options) (m : machine) :
  exists o m' ext,
    capture_and_display fuel opt m = (o, m') /\ trace m' = trace m ++ ext /\
    at_most_one [] ext /\
    match o with
    | Ret _ => ends_with_teardown ext /\ past_startup ext
    | Exit _ =>
        Forall (fun e => setup_call (ev_call e) = true) ext /\
        exists pre e, ext = pre ++ [e] /\ startup_failure e = true
    | Spin => Forall unfailed ext /\ past_startup ext /\ dequeues ext = fuel
    end.
Proof.
  unfold capture_and_display.
  unfold bind at 1, upd_cap. cbn [fst snd].
  match goal with |- context [bind (get_device ?p) _ ?m0] =>
    destruct (get_device_startup p m0) as (fd & m1 & e1 & Hr1 & Ht1 & Hf1 & Hs1) end.
  erewrite bind_ret_run by exact Hr1. simpl trace in Ht1.
  unfold bind at 1. cbn [fst snd].
  assert (Hn1 : Forall (fun e => not_dqbuf (ev_call e) = true) e1).
  { eapply class_weaken; [|exact Hf1]. class_incl. }
  destruct Hs1 as [(Hfd & pre & e & -> & _ & He)|(Hfd & Hg1)].
  { destruct (Z.ltb_spec fd 0); [|lia].
    eexists _, _, (pre ++ [e]). split; [reflexivity|]. split; [exact Ht1|].
    split; [apply not_dqbuf_at_most_one; [exact Hn1 | simpl; lia]|].
    split; [exact Hf1|]. eauto. }
  destruct (Z.ltb_spec fd 0); [lia|].
  match goal with |- context [bind (get_subdevice ?p) _ ?m0] =>
    destruct (get_subdevice_startup p m0) as (sfd & m2 & e2 & Hr2 & Ht2 & Hf2 & Hs2) end.
  erewrite bind_ret_run by exact Hr2. simpl trace in Ht2.
  unfold bind at 1, upd_cap. cbn [fst snd].
  assert (Hn2 : Forall (fun e => not_dqbuf (ev_call e) = true) e2).
  { eapply class_weaken; [|exact Hf2]. class_incl. }
  destruct Hs2 as [(Hsfd & pre & e & -> & _ & He)|(Hsfd & Hg2)].
  { destruct (Z.ltb_spec sfd 0); [|lia].
    eexists _, _, (e1 ++ pre ++ [e]). split; [reflexivity|].
    split; [simpl; rewrite Ht2, Ht1, <- app_assoc; reflexivity|].
    split; [apply not_dqbuf_at_most_one; [apply Forall_app_2; auto | simpl; lia]|].
    split; [apply Forall_app_2; auto|].
    exists (e1 ++ pre), e. rewrite <- app_assoc. auto. }
  destruct (Z.ltb_spec sfd 0); [lia|].
  assert (Hc1 : Forall unfailed e1).
  { eapply other_calls_unfailed; [|exact Hf1]. class_unfailed. }
  assert (Hc2 : Forall unfailed e2).
  { eapply other_calls_unfailed; [|exact Hf2]. class_unfailed. }
  match goal with |- context [bind (capture_setup opt) _ ?m0] =>
    destruct (capture_setup_cases opt m0) as (o & m3 & e3 & Hr3 & Ht3 & Hn3 & Ho) end.
  simpl trace in Ht3.
  assert (Hn : Forall (fun e => not_dqbuf (ev_call e) = true) ((e1 ++ e2) ++ e3)).
  { repeat apply Forall_app_2; auto. }
  destruct (not_dqbuf_owned _ Hn [] ltac:(simpl; lia)) as [Hone Hlen].
  assert (Hown : owned_from [] ((e1 ++ e2) ++ e3) = []).
  { destruct (owned_from [] ((e1 ++ e2) ++ e3)); [reflexivity | simpl in Hlen; lia]. }
  destruct o as [v|code|]; [| |contradiction].
  - destruct Ho as (Hclean & x1 & x2 & rest & -> & Hx1 & Hx2 & Hrest).
    assert (Hpast : forall tail,
               past_startup ((((e1 ++ e2) ++ x1 :: x2 :: rest) ++ tail))).
    { intros tail. exists (e1 ++ e2 ++ [x1; x2]), (rest ++ tail).
      split; [rewrite <- !app_assoc; reflexivity|].
      split; [repeat apply Forall_app_2; auto|].
      now apply starts_past_startup_app. }
    erewrite bind_ret_run by exact Hr3.
    destruct (Z.eqb_spec v 0) as [->|Hv]; cbn [negb].
    + destruct (capture_session_cases fuel m3) as (o & m4 & e4 & Hr4 & Ht4 & Hone4 & Ho4).
      exists o, m4, (((e1 ++ e2) ++ x1 :: x2 :: rest) ++ e4). split; [exact Hr4|].
      split; [rewrite Ht4, Ht3, Ht2, Ht1, <- !app_assoc; reflexivity|].
      split; [apply at_most_one_app; rewrite Hown; auto|].
      destruct o as [v|code|]; [|contradiction|].
      * split; [|apply Hpast].
        destruct Ho4 as (pre & td & -> & Htd).
        rewrite app_assoc. now apply ends_with_teardown_app.
      * destruct Ho4 as [Hu4 Hd4].
        split; [repeat apply Forall_app_2; auto|]. split; [apply Hpast|].
        rewrite dequeues_app, Hd4, (not_dqbuf_dequeues _ Hn). reflexivity.
    + destruct (capture_shutdown_log m3) as (v' & m4 & td & Hr4 & Ht4 & Htd).
      erewrite bind_ret_run by exact Hr4.
      exists (Ret v), m4, (((e1 ++ e2) ++ x1 :: x2 :: rest) ++ td). split; [reflexivity|].
      split; [rewrite Ht4, Ht3, Ht2, Ht1, <- !app_assoc; reflexivity|].
      split; [|split; [now apply ends_with_teardown_app | apply Hpast]].
      apply at_most_one_app. split; [exact Hone|]. rewrite Hown.
      apply not_dqbuf_at_most_one; [now apply teardown_log_not_dqbuf | simpl; lia].
  - destruct Ho as (Hsetup & pre & e & -> & _ & He).
    erewrite bind_exit_run by exact Hr3.
    exists (Exit code), m3, ((e1 ++ e2) ++ pre ++ [e]). split; [reflexivity|].
    split; [rewrite Ht3, Ht2, Ht1, <- !app_assoc; reflexivity|].
    split; [exact Hone|].
    split; [apply Forall_app_2; [apply Forall_app_2; auto | exact Hsetup]|].
    exists ((e1 ++ e2) ++ pre), e. rewrite <- !app_assoc. auto.
Qed.






(** ** The single-consumer invariant *)

Lemma at_most_one_prefix (tr p : list event) :
  at_most_one [] tr -> p `prefix_of` tr -> (length (app_owned p) <= 1)%nat.
Proof.
  intros H [k ->]. apply at_most_one_app in H as [H _].
  now apply at_most_one_end.
Qed.

(** C9.  At every point of a run of the capture loop, and of the whole
    session around it, the application owns at most one buffer: after every
    prefix of the calls made, the buffers handed out by VIDIOC_DQBUF and not
    yet given back by VIDIOC_QBUF are at most one.  So no second buffer is
    dequeued while one is held. *)
Theorem single_consumer_invariant :
  (forall (fuel : nat) (r : Z) (m : machine) (p : list event),
     p `prefix_of` added (yuv_loop fuel r) m -> (length (app_owned p) <= 1)%nat) /\
  (forall (fuel : nat) (opt : options) (m : machine) (p : list event),
     p `prefix_of` added (capture_and_display fuel opt) m ->
     (length (app_owned p) <= 1)%nat).
Proof.
  split.
  - intros fuel r m p Hp.
    destruct (yuv_loop_cases fuel r m) as (o & m' & ext & Hrun & Ht & Hone & _).
    rewrite (added_snoc _ _ ext) in Hp by (rewrite Hrun; exact Ht).
    eapply at_most_one_prefix; eauto.
  - intros fuel opt m p Hp.
    destruct (capture_and_display_cases fuel opt m) as (o & m' & ext & Hrun & Ht & Hone & _).
    rewrite (added_snoc _ _ ext) in Hp by (rewrite Hrun; exact Ht).
    eapply at_most_one_prefix; eauto.
Qed.

(** The loop runs two passes: after the second dequeue one buffer is held. *)
Lemma single_consumer_invariant_witness :
  (length (app_owned (take 5 (added (yuv_loop 2 0) (streaming env_continue)))) <= 1)%nat.
Proof.
  apply (proj1 single_consumer_invariant 2%nat 0 (streaming env_continue)).
  exists (drop 5 (added (yuv_loop 2 0) (streaming env_continue))).
  symmetry. apply take_drop.
Defined.

(** ** Teardown twice *)

(** C2, evaluated.  On a context with one buffer whose planes are mapped
    and exported, the first [unmap_buffers] closes both descriptors and
    unmaps both planes; the second closes nothing (the descriptors were set to
    -1) but unmaps both addresses again, because [addr] is never reset.  In
    the program itself this happens when mapping fails on buffer 2 of 4: the
    teardown runs in [capture_setup] and again in [capture_and_display]; each
    time it unmaps exactly the planes of buffers 0 and 1 and skips those of
    buffers 2 and 3, so the four mappings are unmapped twice. *)
Theorem unmap_buffers_twice_unmaps_again :
  calls_of (added (unmap_buffers ;;; unmap_buffers) exported_machine) =
    [ Close 7; Munmap 0x10000 2073600; Close 8; Munmap 0x20000 1036800;
      Ioctl 3 (VIDIOC_REQBUFS 0 9 1);
      Munmap 0x10000 2073600; Munmap 0x20000 1036800;
      Ioctl 3 (VIDIOC_REQBUFS 0 9 1) ] /\
  fst (capture_and_display 1 default_options (boot env_map_fails garbage)) = Ret (-12) /\
  drop 13 (calls_of (trace (snd
    (capture_and_display 1 default_options (boot env_map_fails garbage))))) =
    [ Ioctl 3 VIDIOC_STREAMOFF;
      Munmap 0x10000 2073600; Munmap 0x20000 1036800;
      Munmap 0x30000 2073600; Munmap 0x40000 1036800;
      Ioctl 3 (VIDIOC_REQBUFS 0 9 1);
      Ioctl 3 VIDIOC_STREAMOFF;
      Munmap 0x10000 2073600; Munmap 0x20000 1036800;
      Munmap 0x30000 2073600; Munmap 0x40000 1036800;
      Ioctl 3 (VIDIOC_REQBUFS 0 9 1) ].
Proof. repeat split; vm_compute; reflexivity. Qed.

(** ** The buffer pool *)

Lemma buf_at_upd_eq (i : Z) (f : video_buf_map -> video_buf_map) (c : capture_context) :
  (Z.to_nat i < length (buffers c))%nat ->
  buf_at (upd_buf i f c) i = f (buf_at c i).
Proof. intros H. unfold buf_at, upd_buf. simpl. now apply list_lookup_total_alter_eq. Qed.

Lemma buf_at_upd_ne (i j : Z) (f : video_buf_map -> video_buf_map) (c : capture_context) :
  Z.to_nat i <> Z.to_nat j -> buf_at (upd_buf i f c) j = buf_at c j.
Proof. intros H. unfold buf_at, upd_buf. simpl. now apply list_lookup_total_alter_ne. Qed.

(** A part of a buffer that the update leaves alone is left alone in the pool. *)
Lemma buf_at_upd_proj {X} (g : video_buf_map -> X) (i j : Z)
    (f : video_buf_map -> video_buf_map) (c : capture_context) :
  (forall b, g (f b) = g b) -> g (buf_at (upd_buf i f c) j) = g (buf_at c j).
Proof.
  intros H. unfold buf_at, upd_buf. simpl. rewrite list_lookup_total_alter.
  case_decide as Hd; [|reflexivity]. destruct Hd as [-> _]. apply H.
Qed.

Lemma wf_cap_upd (i : Z) (f : video_buf_map -> video_buf_map) (c : capture_context) :
  (forall b, wf_buf b -> wf_buf (f b)) -> wf_cap c -> wf_cap (upd_buf i f c).
Proof.
  intros Hf [Hl Hb]. split; simpl.
  - now rewrite length_alter.
  - apply Forall_alter; [exact Hb|]. intros b _. apply Hf.
Qed.

Lemma mmap_run (len fd off : Z) (m : machine) :
  exists m', mmap len fd off m = (Ret (r_addr (env m (calls m))), m') /\
    cap m' = cap m /\ env m' = env m /\ calls m' = S (calls m) /\
    trace m' = trace m ++
      [{| ev_call := Mmap len fd off; ev_resp := env m (calls m); ev_app := app (cap m) |}].
Proof.
  unfold mmap, bind.
  destruct (sys_run (Mmap len fd off) m) as (m1 & -> & Hc & _ & He & _ & Hn & _ & Ht & _).
  unfold set_errno_if, ret. eexists; split; [reflexivity|].
  destruct (r_addr _ =? MAP_FAILED); simpl; auto.
Qed.

Lemma munmap_run (a len : Z) (m : machine) :
  exists m', munmap a len m = (Ret (r_ret (env m (calls m))), m') /\
    cap m' = cap m /\ env m' = env m /\ calls m' = S (calls m) /\
    trace m' = trace m ++
      [{| ev_call := Munmap a len; ev_resp := env m (calls m); ev_app := app (cap m) |}].
Proof.
  unfold munmap, sys_int, bind.
  destruct (sys_run (Munmap a len) m) as (m1 & -> & Hc & _ & He & _ & Hn & _ & Ht & _).
  unfold set_errno_if, ret. eexists; split; [reflexivity|].
  destruct (r_ret _ <? 0); simpl; auto.
Qed.

(** *** Invalidating the descriptors *)

Lemma dma_at_invalidate_eq (i p : Z) (c : capture_context) :
  wf_cap c -> 0 <= i < VIDEO_MAX_FRAME -> 0 <= p < VIDEO_MAX_PLANES ->
  dma_at (upd_buf i (set_dma_buf_fd p (-1)) c) i p = -1.
Proof.
  intros [Hl Hb] Hi Hp. unfold dma_at, zget.
  rewrite buf_at_upd_eq by (rewrite Hl; unfold VIDEO_MAX_FRAME in *; lia).
  simpl. apply list_lookup_total_insert_eq.
  assert (Hw : wf_buf (buf_at c i)).
  { unfold buf_at. apply Forall_lookup_total_1; [exact Hb|].
    rewrite Hl. unfold VIDEO_MAX_FRAME in *. lia. }
  destruct Hw as [_ ->]. unfold VIDEO_MAX_PLANES in *. lia.
Qed.

Lemma dma_at_invalidate_keep (i p j q : Z) (c : capture_context) :
  dma_at c j q = -1 -> dma_at (upd_buf i (set_dma_buf_fd p (-1)) c) j q = -1.
Proof.
  intros H. unfold dma_at, zget, buf_at, upd_buf in *. simpl.
  rewrite list_lookup_total_alter. case_decide as Hd; [|exact H].
  destruct Hd as [Hij _]. rewrite Hij. simpl.
  rewrite list_lookup_total_insert. case_decide; [reflexivity | exact H].
Qed.

Lemma wf_buf_set_dma (p v : Z) (b : video_buf_map) :
  wf_buf b -> wf_buf (set_dma_buf_fd p v b).
Proof. intros [H1 H2]. split; simpl; [exact H1 | now rewrite length_insert]. Qed.

Lemma invalidate_planes_ok (i : Z) (n : nat) :
  forall (p0 : Z) (m : machine),
  wf_cap (cap m) -> 0 <= i < VIDEO_MAX_FRAME -> 0 <= p0 ->
  p0 + Z.of_nat n <= VIDEO_MAX_PLANES ->
  exists c',
    for_each n p0 (fun p => upd_cap (upd_buf i (set_dma_buf_fd p (-1)))) m =
      (Ret tt, set_cap c' m) /\
    geometry c' = geometry (cap m) /\ wf_cap c' /\
    (forall p, p0 <= p < p0 + Z.of_nat n -> dma_at c' i p = -1) /\
    (forall j q, dma_at (cap m) j q = -1 -> dma_at c' j q = -1).
Proof.
  induction n as [|n IH]; intros p0 m Hwf Hi Hp0 Hn.
  - exists (cap m). split; [destruct m; reflexivity|]. split; [reflexivity|].
    split; [exact Hwf|]. split; [intros p Hp; lia | auto].
  - simpl. unfold bind at 1, upd_cap at 1. cbn [fst snd].
    destruct (IH (p0 + 1) (set_cap (upd_buf i (set_dma_buf_fd p0 (-1)) (cap m)) m))
      as (c' & Hrun & Hg & Hwf' & Hset & Hkeep); auto; try lia.
    { simpl. apply wf_cap_upd; [apply wf_buf_set_dma | exact Hwf]. }
    exists c'. split; [exact Hrun|]. split; [exact Hg|]. split; [exact Hwf'|]. split.
    + intros p Hp. destruct (Z.eq_dec p p0) as [->|Hne].
      * apply Hkeep. simpl. apply dma_at_invalidate_eq; auto. lia.
      * apply Hset. lia.
    + intros j q Hjq. apply Hkeep. simpl. now apply dma_at_invalidate_keep.
Qed.

Lemma invalidate_buffers_ok (np : nat) (n : nat) :
  forall (i0 : Z) (m : machine),
  wf_cap (cap m) -> 0 <= i0 -> i0 + Z.of_nat n <= VIDEO_MAX_FRAME ->
  Z.of_nat np <= VIDEO_MAX_PLANES ->
  exists c',
    for_each n i0 (fun i =>
      for_each np 0 (fun p => upd_cap (upd_buf i (set_dma_buf_fd p (-1))))) m =
      (Ret tt, set_cap c' m) /\
    geometry c' = geometry (cap m) /\ wf_cap c' /\
    (forall i p, i0 <= i < i0 + Z.of_nat n -> 0 <= p < Z.of_nat np -> dma_at c' i p = -1) /\
    (forall j q, dma_at (cap m) j q = -1 -> dma_at c' j q = -1).
Proof.
  induction n as [|n IH]; intros i0 m Hwf Hi0 Hn Hnp.
  - exists (cap m). split; [destruct m; reflexivity|]. split; [reflexivity|].
    split; [exact Hwf|]. split; [intros i p Hi; lia | auto].
  - simpl.
    destruct (invalidate_planes_ok i0 np 0 m) as (c1 & Hrun1 & Hg1 & Hwf1 & Hset1 & Hkeep1);
      auto; try lia.
    erewrite bind_ret_run by exact Hrun1.
    destruct (IH (i0 + 1) (set_cap c1 m)) as (c' & Hrun & Hg & Hwf' & Hset & Hkeep);
      auto; try lia.
    exists c'. split; [exact Hrun|]. split; [simpl in Hg; congruence|].
    split; [exact Hwf'|]. split.
    + intros i p Hi Hp. destruct (Z.eq_dec i i0) as [->|Hne].
      * apply Hkeep. simpl. apply Hset1. lia.
      * apply Hset; lia.
    + intros j q Hjq. apply Hkeep. simpl. now apply Hkeep1.
Qed.

Lemma invalidate_dma_fds_ok (m : machine) :
  wf_cap (cap m) ->
  0 <= num_buf (cap m) <= VIDEO_MAX_FRAME -> 0 <= num_planes (cap m) <= VIDEO_MAX_PLANES ->
  exists c',
    invalidate_dma_fds m = (Ret tt, set_cap c' m) /\
    geometry c' = geometry (cap m) /\ wf_cap c' /\
    (forall i p, 0 <= i < num_buf (cap m) -> 0 <= p < num_planes (cap m) ->
                 dma_at c' i p = -1).
Proof.
  intros Hwf Hb Hp. unfold invalidate_dma_fds, bind, get_cap. cbn [fst snd].
  destruct (invalidate_buffers_ok (Z.to_nat (num_planes (cap m)))
              (Z.to_nat (num_buf (cap m))) 0 m)
    as (c' & Hrun & Hg & Hwf' & Hset & _); auto; try lia.
  exists c'. split; [exact Hrun|]. split; [exact Hg|]. split; [exact Hwf'|].
  intros i p Hi Hpp. apply Hset; lia.
Qed.

(** *** Mapping *)

Lemma touches_trans (i : Z) (c1 c2 c3 : capture_context) :
  touches i c1 c2 -> touches i c2 c3 -> touches i c1 c3.
Proof.
  intros (Hg1 & Hw1 & Hd1 & Hb1) (Hg2 & Hw2 & Hd2 & Hb2). split; [congruence|].
  split; [auto|]. split.
  - intros j q. now rewrite Hd2, Hd1.
  - intros j Hj. now rewrite Hb2, Hb1.
Qed.

Lemma touches_upd (i : Z) (f : video_buf_map -> video_buf_map) (c : capture_context) :
  (forall b, dma_buf_fd (f b) = dma_buf_fd b) ->
  (forall b, wf_buf b -> wf_buf (f b)) ->
  touches i c (upd_buf i f c).
Proof.
  intros Hd Hw. split; [reflexivity|]. split; [now apply wf_cap_upd|]. split.
  - intros j q. unfold dma_at. now rewrite (buf_at_upd_proj dma_buf_fd).
  - intros j Hj. apply buf_at_upd_ne. auto.
Qed.

Lemma wf_buf_set_addr (p v : Z) (b : video_buf_map) : wf_buf b -> wf_buf (set_addr p v b).
Proof. intros [H1 H2]. split; simpl; [now rewrite length_insert | exact H2]. Qed.

Lemma wf_buf_at (c : capture_context) (i : Z) :
  wf_cap c -> 0 <= i < VIDEO_MAX_FRAME -> wf_buf (buf_at c i).
Proof.
  intros [Hl Hb] Hi. unfold buf_at. apply Forall_lookup_total_1; [exact Hb|].
  rewrite Hl. unfold VIDEO_MAX_FRAME in *. lia.
Qed.

(** One plane is mapped: its address is stored, nothing else of interest
    changes. *)
Lemma map_plane_ok (i p : Z) (m : machine) :
  r_addr (env m (calls m)) <> MAP_FAILED ->
  exists m' e,
    map_plane 0 i p m = (Ret None, m') /\
    env m' = env m /\ calls m' = S (calls m) /\
    trace m' = trace m ++ [e] /\
    (exists l f o a, e = {| ev_call := Mmap l f o; ev_resp := env m (calls m);
                            ev_app := a |}) /\
    touches i (cap m) (cap m') /\
    index_at (cap m') i = index_at (cap m) i /\
    (forall q, Z.to_nat q <> Z.to_nat p -> addr_at (cap m') i q = addr_at (cap m) i q) /\
    (wf_cap (cap m) -> 0 <= i < VIDEO_MAX_FRAME -> 0 <= p < VIDEO_MAX_PLANES ->
     addr_at (cap m') i p = r_addr (env m (calls m))).
Proof.
  intros Hok. unfold map_plane, bind at 1 2, get_cap, upd_cap. cbn [fst snd].
  match goal with |- context [bind (mmap ?l ?f ?o) _ ?m0] =>
    destruct (mmap_run l f o m0) as (m1 & Hrun & Hc & He & Hn & Ht) end.
  erewrite bind_ret_run by exact Hrun.
  unfold bind at 1, upd_cap. cbn [fst snd].
  simpl in Hc, He, Hn, Ht. cbn [env calls set_cap].
  destruct (Z.eqb_spec (r_addr (env m (calls m))) MAP_FAILED) as [Heq|_]; [contradiction|].
  cbn [negb Z.eqb]. unfold ret.
  eexists _, _. split; [reflexivity|]. cbn [env calls trace cap set_cap].
  split; [exact He|]. split; [exact Hn|]. split; [exact Ht|].
  split; [eexists _, _, _, _; reflexivity|]. rewrite Hc.
  split; [|split; [|split]].
  - eapply touches_trans; apply touches_upd; auto using wf_buf_set_addr;
      intros b [H1 H2]; split; auto.
  - unfold index_at.
    now rewrite 2!(buf_at_upd_proj (fun b => buf_index (v4l2buf b))).
  - intros q Hq. unfold addr_at, zget, buf_at, upd_buf. simpl.
    rewrite !list_lookup_total_alter.
    repeat case_decide; simpl; try rewrite list_lookup_total_insert_ne by auto;
      try reflexivity; intuition.
  - intros Hwf Hi Hp. unfold addr_at, zget.
    assert (Hlen : (Z.to_nat i < length (buffers (cap m)))%nat).
    { destruct Hwf as [-> _]. unfold VIDEO_MAX_FRAME in *. lia. }
    rewrite buf_at_upd_eq by (simpl; rewrite length_alter; exact Hlen).
    simpl. apply list_lookup_total_insert_eq.
    rewrite buf_at_upd_eq by exact Hlen. simpl.
    destruct (wf_buf_at _ _ Hwf Hi) as [-> _]. unfold VIDEO_MAX_PLANES in *. lia.
Qed.

(** One buffer is queried and its two planes are mapped. *)
Lemma map_buffer_ok (i : Z) (m : machine) :
  num_planes (cap m) = 2 ->
  0 <= r_ret (env m (calls m)) ->
  r_addr (env m (S (calls m))) <> MAP_FAILED ->
  r_addr (env m (S (S (calls m)))) <> MAP_FAILED ->
  exists m' ext,
    map_buffer 0 i m = (Ret None, m') /\
    env m' = env m /\ calls m' = S (S (S (calls m))) /\
    trace m' = trace m ++ ext /\
    queried ext = [i] /\
    mapped ext = [r_addr (env m (S (calls m))); r_addr (env m (S (S (calls m))))] /\
    Forall (fun e => map_call (ev_call e) = true) ext /\
    touches i (cap m) (cap m') /\
    (wf_cap (cap m) -> 0 <= i < VIDEO_MAX_FRAME ->
     index_at (cap m') i = i /\
     addr_at (cap m') i 0 = r_addr (env m (S (calls m))) /\
     addr_at (cap m') i 1 = r_addr (env m (S (S (calls m))))).
Proof.
  intros Hnp Hq Ha0 Ha1. unfold map_buffer, bind at 1 2, get_cap, upd_cap. cbn [fst snd].
  match goal with |- context [bind (ioctl ?f ?q) _ ?m0] =>
    destruct (ioctl_run f q m0) as (m1 & Hrun1 & Hc1 & _ & He1 & _ & Hn1 & _ & Ht1 & _) end.
  erewrite bind_ret_run by exact Hrun1. cbn [env calls set_cap].
  simpl in Hc1, He1, Hn1, Ht1.
  destruct (Z.ltb_spec (r_ret (env m (calls m))) 0) as [Hlt|_]; [lia|].
  unfold bind at 1, upd_cap. cbn [fst snd].
  rewrite Hnp. change (Z.to_nat 2) with 2%nat. cbn [for_until].
  match goal with |- context [bind (map_plane 0 i 0) _ ?m0] => set (m2 := m0) end.
  assert (He2 : env m2 = env m) by exact He1.
  assert (Hn2 : calls m2 = S (calls m)) by exact Hn1.
  assert (Ht2 : trace m2 = trace m1) by reflexivity.
  destruct (map_plane_ok i 0 m2) as (m3 & e0 & Hrun3 & He3 & Hn3 & Ht3 & Hev0 & Htch3 & Hix3 & Hoth3 & Hadr3).
  { rewrite He2, Hn2. exact Ha0. }
  erewrite bind_ret_run by exact Hrun3.
  destruct (map_plane_ok i (0 + 1) m3) as (m4 & e1 & Hrun4 & He4 & Hn4 & Ht4 & Hev1 & Htch4 & Hix4 & Hoth4 & Hadr4).
  { rewrite He3, Hn3, He2, Hn2. exact Ha1. }
  erewrite bind_ret_run by exact Hrun4. cbn [for_until]. unfold ret.
  destruct Hev0 as (l0 & f0 & o0 & a0 & ->). destruct Hev1 as (l1 & f1 & o1 & a1 & ->).
  rewrite He2, Hn2 in *. rewrite He3, Hn3 in *.
  assert (Htch2 : touches i (cap m) (cap m2)).
  { subst m2. cbn [cap set_cap]. rewrite Hc1.
    eapply touches_trans; apply touches_upd; auto. }
  eexists m4, _. split; [reflexivity|]. split; [congruence|]. split; [congruence|].
  split; [rewrite Ht4, Ht3, Ht2, Ht1, <- !app_assoc; reflexivity|].
  split; [reflexivity|]. split; [reflexivity|].
  split; [repeat constructor|].
  split; [eauto using touches_trans|].
  intros Hwf Hi.
  assert (Hwf2 : wf_cap (cap m2)) by (apply Htch2; exact Hwf).
  assert (Hwf3 : wf_cap (cap m3)) by (apply Htch3; exact Hwf2).
  split; [|split].
  - rewrite Hix4, Hix3. subst m2. cbn [cap set_cap]. rewrite Hc1. unfold index_at.
    rewrite (buf_at_upd_proj (fun b => buf_index (v4l2buf b))) by reflexivity.
    rewrite buf_at_upd_eq; [reflexivity|].
    destruct Hwf as [-> _]. unfold VIDEO_MAX_FRAME in *. lia.
  - rewrite Hoth4 by (simpl; lia). apply Hadr3; auto.
    unfold VIDEO_MAX_PLANES. lia.
  - apply Hadr4; auto. unfold VIDEO_MAX_PLANES. lia.
Qed.

Lemma queried_app (t1 t2 : list event) : queried (t1 ++ t2) = queried t1 ++ queried t2.
Proof. apply omap_app. Qed.

Lemma mapped_app (t1 t2 : list event) : mapped (t1 ++ t2) = mapped t1 ++ mapped t2.
Proof. apply omap_app. Qed.

Lemma queued_app (t1 t2 : list event) : queued (t1 ++ t2) = queued t1 ++ queued t2.
Proof. apply omap_app. Qed.

Lemma unmapped_app (t1 t2 : list event) : unmapped (t1 ++ t2) = unmapped t1 ++ unmapped t2.
Proof. apply omap_app. Qed.

Lemma closed_app (t1 t2 : list event) : closed (t1 ++ t2) = closed t1 ++ closed t2.
Proof. apply omap_app. Qed.

(** All buffers from [i] on are queried and mapped. *)
Lemma map_loop_ok (n : nat) :
  forall (i : Z) (m : machine),
  num_planes (cap m) = 2 -> wf_cap (cap m) ->
  0 <= i -> i + Z.of_nat n <= VIDEO_MAX_FRAME ->
  (forall k, (calls m <= k)%nat -> succeeds (env m k)) ->
  exists m' ext,
    for_until n i (map_buffer 0) m = (Ret None, m') /\
    env m' = env m /\ (calls m <= calls m')%nat /\
    trace m' = trace m ++ ext /\
    queried ext = indices n i /\
    mapped ext = plane_addrs (cap m') n i /\
    Forall valid_address (mapped ext) /\
    Forall (fun e => map_call (ev_call e) = true) ext /\
    geometry (cap m') = geometry (cap m) /\ wf_cap (cap m') /\
    (forall j q, dma_at (cap m') j q = dma_at (cap m) j q) /\
    (forall j, i <= j < i + Z.of_nat n -> index_at (cap m') j = j) /\
    (forall j, 0 <= j < i -> buf_at (cap m') j = buf_at (cap m) j).
Proof.
  induction n as [|n IH]; intros i m Hnp Hwf Hi Hn Hok.
  - exists m, []. simpl. rewrite app_nil_r. unfold ret.
    repeat split; auto; try (destruct Hwf; assumption). intros j Hj. lia.
  - cbn [for_until].
    destruct (map_buffer_ok i m) as
      (m1 & ext1 & Hrun1 & He1 & Hn1 & Ht1 & Hq1 & Hm1 & Hf1 & Htch1 & Hloc1); auto.
    { destruct (Hok (calls m)) as (-> & _); [lia|]. lia. }
    { apply (Hok (S (calls m))). lia. }
    { apply (Hok (S (S (calls m)))). lia. }
    erewrite bind_ret_run by exact Hrun1.
    destruct Htch1 as (Hg1 & Hw1 & Hd1 & Hb1).
    destruct (Hloc1 Hwf ltac:(lia)) as (Hix1 & Ha0 & Ha1).
    destruct (IH (i + 1) m1) as
      (m' & ext2 & Hrun & He & Hc & Ht & Hq & Hm & Hv & Hf & Hg & Hw & Hd & Hix & Hb);
      auto; try lia.
    { unfold geometry in Hg1. congruence. }
    { intros k Hk. rewrite He1. apply Hok. lia. }
    exists m', (ext1 ++ ext2). split; [exact Hrun|]. split; [congruence|].
    split; [lia|]. split; [rewrite Ht, Ht1, <- app_assoc; reflexivity|].
    split; [rewrite queried_app, Hq1, Hq; reflexivity|].
    assert (Hsame : buf_at (cap m') i = buf_at (cap m1) i) by (apply Hb; lia).
    split.
    { rewrite mapped_app, Hm1, Hm. unfold plane_addrs. cbn [indices flat_map].
      assert (H0 : addr_at (cap m') i 0 = addr_at (cap m1) i 0)
        by (unfold addr_at; now rewrite Hsame).
      assert (H1 : addr_at (cap m') i 1 = addr_at (cap m1) i 1)
        by (unfold addr_at; now rewrite Hsame).
      rewrite H0, H1, Ha0, Ha1. reflexivity. }
    split.
    { rewrite mapped_app, Hm1. apply Forall_app_2; [|exact Hv].
      repeat constructor; try (apply (Hok (S (calls m))); lia);
        try (apply (Hok (S (S (calls m)))); lia). }
    split; [apply Forall_app_2; auto|].
    split; [congruence|]. split; [exact Hw|].
    split; [intros j q; now rewrite Hd, Hd1|].
    split.
    { intros j Hj. destruct (Z.eq_dec j i) as [->|Hne].
      - unfold index_at. rewrite Hsame. exact Hix1.
      - apply Hix. lia. }
    intros j Hj. rewrite Hb by lia. apply Hb1. lia.
Qed.

(** *** Queueing *)

Lemma queued_qbuf (fd x : Z) (r : response) (a : application_state) :
  queued [{| ev_call := Ioctl fd (VIDIOC_QBUF x); ev_resp := r; ev_app := a |}] = [x].
Proof. reflexivity. Qed.

Lemma queue_loop_ok (fd : Z) (n : nat) :
  forall (i : Z) (m : machine),
  (forall j, i <= j < i + Z.of_nat n -> index_at (cap m) j = j) ->
  (forall k, (calls m <= k)%nat -> succeeds (env m k)) ->
  exists m' ext,
    queue_loop n i fd 0 m = (Ret 0, m') /\
    cap m' = cap m /\ env m' = env m /\ (calls m <= calls m')%nat /\
    trace m' = trace m ++ ext /\
    queued ext = indices n i /\
    Forall (fun e => is_qbuf (ev_call e) = true) ext.
Proof.
  induction n as [|n IH]; intros i m Hix Hok.
  - exists m, []. simpl. rewrite app_nil_r. unfold ret. auto 10.
  - cbn [queue_loop]. unfold bind at 1, get_cap. cbn [fst snd].
    match goal with |- context [bind (ioctl ?f ?q) _ m] =>
      destruct (ioctl_run f q m) as (m1 & Hrun1 & Hc1 & _ & He1 & _ & Hn1 & _ & Ht1 & _) end.
    erewrite bind_ret_run by exact Hrun1.
    destruct (Hok (calls m)) as (Hr & _); [lia|]. rewrite Hr. cbn [Z.ltb Z.compare].
    destruct (IH (i + 1) m1) as (m' & ext & Hrun & Hc & He & Hn & Ht & Hq & Hf).
    { intros j Hj. rewrite Hc1. apply Hix. lia. }
    { intros k Hk. rewrite He1. apply Hok. lia. }
    eexists m', ([_] ++ ext). split; [exact Hrun|]. split; [congruence|].
    split; [congruence|]. split; [lia|].
    split; [rewrite Ht, Ht1, <- app_assoc; reflexivity|].
    split.
    + rewrite queued_app, queued_qbuf, Hq. fold (index_at (cap m) i).
      rewrite Hix by lia. reflexivity.
    + constructor; [reflexivity | exact Hf].
Qed.

(** *** Unmapping *)

Lemma unmap_plane_ok (i p : Z) (m : machine) :
  dma_at (cap m) i p = -1 -> valid_address (addr_at (cap m) i p) ->
  exists m' e len,
    unmap_plane i p m = (Ret tt, m') /\
    cap m' = cap m /\ env m' = env m /\
    trace m' = trace m ++ [e] /\
    e = {| ev_call := Munmap (addr_at (cap m) i p) len; ev_resp := env m (calls m);
           ev_app := app (cap m) |}.
Proof.
  intros Hd [Hnull Hfail]. unfold unmap_plane, bind at 1 2, get_cap. cbn [fst snd].
  fold (dma_at (cap m) i p). rewrite Hd. cbn [Z.leb Z.compare]. unfold ret at 1.
  unfold bind at 1. cbn [fst snd]. fold (addr_at (cap m) i p).
  destruct (Z.eqb_spec (addr_at (cap m) i p) NULL) as [|_]; [contradiction|].
  destruct (Z.eqb_spec (addr_at (cap m) i p) MAP_FAILED) as [|_]; [contradiction|].
  cbn [negb andb].
  match goal with |- context [bind (munmap ?a ?l) _ m] =>
    destruct (munmap_run a l m) as (m1 & Hrun & Hc & He & _ & Ht) end.
  erewrite bind_ret_run by exact Hrun. unfold ret.
  eexists m1, _, _. split; [reflexivity|]. split; [exact Hc|]. split; [exact He|].
  split; [exact Ht|]. reflexivity.
Qed.

Lemma unmap_loop_ok (n : nat) :
  forall (i : Z) (m : machine),
  num_planes (cap m) = 2 ->
  (forall j q, i <= j < i + Z.of_nat n -> 0 <= q < 2 ->
     dma_at (cap m) j q = -1 /\ valid_address (addr_at (cap m) j q)) ->
  exists m' ext,
    for_each n i (fun i =>
      c <- get_cap ;;
      for_each (Z.to_nat (num_planes c)) 0 (fun p => unmap_plane i p)) m = (Ret tt, m') /\
    cap m' = cap m /\ env m' = env m /\
    trace m' = trace m ++ ext /\
    unmapped ext = plane_addrs (cap m) n i /\ closed ext = [].
Proof.
  induction n as [|n IH]; intros i m Hnp Hpl.
  - exists m, []. simpl. rewrite app_nil_r. unfold ret. auto 10.
  - cbn [for_each]. unfold bind at 1 2, get_cap. cbn [fst snd].
    rewrite Hnp. change (Z.to_nat 2) with 2%nat. cbn [for_each].
    destruct (Hpl i 0 ltac:(lia) ltac:(lia)) as [Hd0 Hv0].
    destruct (Hpl i 1 ltac:(lia) ltac:(lia)) as [Hd1 Hv1].
    destruct (unmap_plane_ok i 0 m Hd0 Hv0) as (m1 & e0 & l0 & Hrun1 & Hc1 & He1 & Ht1 & ->).
    erewrite bind_ret_run by exact Hrun1.
    rewrite <- Hc1 in Hd1, Hv1.
    destruct (unmap_plane_ok i (0 + 1) m1 Hd1 Hv1)
      as (m2 & e1 & l1 & Hrun2 & Hc2 & He2 & Ht2 & ->).
    erewrite bind_ret_run by exact Hrun2. unfold ret at 1.
    destruct (IH (i + 1) m2) as (m' & ext & Hrun & Hc & He & Ht & Hu & Hcl).
    { congruence. }
    { intros j q Hj Hq. rewrite Hc2, Hc1. apply Hpl; lia. }
    eexists m', ([_] ++ [_] ++ ext). split; [exact Hrun|].
    split; [congruence|]. split; [congruence|].
    split; [rewrite Ht, Ht2, Ht1, <- !app_assoc; reflexivity|].
    split.
    + rewrite !unmapped_app, Hu, Hc2, Hc1. reflexivity.
    + rewrite !closed_app, Hcl. reflexivity.
Qed.

Lemma unmap_all_ok (m : machine) :
  num_planes (cap m) = 2 ->
  (forall j q, 0 <= j < num_buf (cap m) -> 0 <= q < 2 ->
     dma_at (cap m) j q = -1 /\ valid_address (addr_at (cap m) j q)) ->
  exists m' ext,
    unmap_all m = (Ret tt, m') /\
    cap m' = cap m /\ env m' = env m /\
    trace m' = trace m ++ ext /\
    unmapped ext = plane_addrs (cap m) (Z.to_nat (num_buf (cap m))) 0 /\ closed ext = [].
Proof.
  intros Hnp Hpl. unfold unmap_all, bind at 1, get_cap. cbn [fst snd].
  apply unmap_loop_ok; [exact Hnp|]. intros j q Hj Hq. apply Hpl; lia.
Qed.

Lemma plane_addrs_valid (c : capture_context) (n : nat) :
  forall i, Forall valid_address (plane_addrs c n i) ->
  forall j q, i <= j < i + Z.of_nat n -> 0 <= q < 2 -> valid_address (addr_at c j q).
Proof.
  unfold plane_addrs. induction n as [|n IH]; intros i Hf j q Hj Hq; [lia|].
  cbn [indices flat_map] in Hf. apply Forall_app in Hf as [Hh Ht].
  destruct (Z.eq_dec j i) as [->|Hne].
  - inversion Hh as [|? ? H0 Hh']; subst. inversion Hh' as [|? ? H1 _]; subst.
    assert (q = 0 \/ q = 1) as [-> | ->] by lia; assumption.
  - apply (IH (i + 1)); [exact Ht | lia | exact Hq].
Qed.

Lemma plane_addrs_length (c : capture_context) (n : nat) :
  forall i, length (plane_addrs c n i) = (2 * n)%nat.
Proof.
  unfold plane_addrs. induction n as [|n IH]; intros i; [reflexivity|].
  cbn [indices flat_map]. rewrite length_app, IH. simpl. lia.
Qed.

(** Calls of one kind leave the other lists empty. *)
Lemma map_calls_not_queued (ext : list event) :
  Forall (fun e => map_call (ev_call e) = true) ext -> queued ext = [].
Proof.
  induction 1 as [|e ext He _ IH]; [reflexivity|].
  change (e :: ext) with ([e] ++ ext). rewrite queued_app, IH.
  unfold queued. simpl.
  destruct (ev_call e) as [| ? []| | | | | | | |]; simpl in *; auto; discriminate.
Qed.

Lemma qbuf_calls_not_mapped (ext : list event) :
  Forall (fun e => is_qbuf (ev_call e) = true) ext -> queried ext = [] /\ mapped ext = [].
Proof.
  induction 1 as [|e ext He _ [IH1 IH2]]; [split; reflexivity|].
  change (e :: ext) with ([e] ++ ext). rewrite queried_app, mapped_app, IH1, IH2.
  unfold queried, mapped. simpl.
  destruct (ev_call e) as [| ? []| | | | | | | |]; simpl in *; auto; discriminate.
Qed.

(** *** Setup when every call succeeds *)

Lemma streamon_not_listed (fd : Z) (r : response) (a : application_state) :
  queried [{| ev_call := Ioctl fd VIDIOC_STREAMON; ev_resp := r; ev_app := a |}] = [] /\
  mapped [{| ev_call := Ioctl fd VIDIOC_STREAMON; ev_resp := r; ev_app := a |}] = [] /\
  queued [{| ev_call := Ioctl fd VIDIOC_STREAMON; ev_resp := r; ev_app := a |}] = [].
Proof. repeat split. Qed.

Lemma map_buffers_ok (m : machine) :
  num_planes (cap m) = 2 -> 0 <= num_buf (cap m) <= VIDEO_MAX_FRAME ->
  wf_cap (cap m) ->
  (forall k, (calls m <= k)%nat -> succeeds (env m k)) ->
  exists m' ext,
    map_buffers 0 m = (Ret 0, m') /\
    env m' = env m /\ (calls m <= calls m')%nat /\
    trace m' = trace m ++ ext /\
    queried ext = indices (Z.to_nat (num_buf (cap m))) 0 /\
    mapped ext = plane_addrs (cap m') (Z.to_nat (num_buf (cap m))) 0 /\
    Forall valid_address (mapped ext) /\
    Forall (fun e => map_call (ev_call e) = true) ext /\
    geometry (cap m') = geometry (cap m) /\
    (forall j q, dma_at (cap m') j q = dma_at (cap m) j q) /\
    (forall j, 0 <= j < num_buf (cap m) -> index_at (cap m') j = j).
Proof.
  intros Hnp Hnb Hwf Hok. unfold map_buffers, bind at 1, get_cap. cbn [fst snd].
  destruct (map_loop_ok (Z.to_nat (num_buf (cap m))) 0 m) as
    (m2 & ext2 & Hrun2 & He2 & Hc2 & Ht2 & Hq2 & Hm2 & Hv2 & Hf2 & Hg2 & Hwf2 & Hd2 & Hix2 & _);
    auto; try lia.
  erewrite bind_ret_run by exact Hrun2. unfold ret.
  exists m2, ext2. split; [reflexivity|]. repeat (split; [assumption|]).
  intros j Hj. apply Hix2. lia.
Qed.

Lemma capture_setup_buffers_ok (m : machine) :
  num_planes (cap m) = 2 -> 0 <= num_buf (cap m) <= VIDEO_MAX_FRAME ->
  wf_cap (cap m) ->
  (forall k, (calls m <= k)%nat -> succeeds (env m k)) ->
  exists m' ext,
    capture_setup_buffers 0 m = (Ret 0, m') /\
    trace m' = trace m ++ ext /\ env m' = env m /\
    geometry (cap m') = geometry (cap m) /\
    queried ext = indices (Z.to_nat (num_buf (cap m))) 0 /\
    mapped ext = plane_addrs (cap m') (Z.to_nat (num_buf (cap m))) 0 /\
    Forall valid_address (mapped ext) /\
    queued ext = indices (Z.to_nat (num_buf (cap m))) 0 /\
    (forall i p, 0 <= i < num_buf (cap m) -> 0 <= p < 2 -> dma_at (cap m') i p = -1).
Proof.
  intros Hnp Hnb Hwf Hok. unfold capture_setup_buffers.
  destruct (invalidate_dma_fds_ok m Hwf Hnb) as (c1 & Hrun1 & Hg1 & Hwf1 & Hd1).
  { rewrite Hnp. unfold VIDEO_MAX_PLANES. lia. }
  erewrite bind_ret_run by exact Hrun1.
  assert (Hnp1 : num_planes c1 = 2) by (unfold geometry in Hg1; congruence).
  assert (Hnb1 : num_buf c1 = num_buf (cap m)) by (unfold geometry in Hg1; congruence).
  destruct (map_buffers_ok (set_cap c1 m)) as
    (m2 & ext2 & Hrun2 & He2 & Hc2 & Ht2 & Hq2 & Hm2 & Hv2 & Hf2 & Hg2 & Hd2 & Hix2);
    auto; try (simpl; rewrite Hnb1; lia).
  erewrite bind_ret_run by exact Hrun2.
  cbn [Z.eqb negb]. unfold bind at 1, get_cap. cbn [fst snd].
  unfold queue_buffers.
  simpl in He2, Hc2, Ht2, Hg2, Hd2, Hq2, Hm2, Hix2.
  assert (Hnb2 : num_buf (cap m2) = num_buf (cap m))
    by (unfold geometry in Hg2; congruence).
  destruct (queue_loop_ok (v4l2_fd (cap m2)) (Z.to_nat (num_buf (cap m2))) 0 m2) as
    (m3 & ext3 & Hrun3 & Hc3 & He3 & Hn3 & Ht3 & Hq3 & Hf3).
  { intros j Hj. apply Hix2. rewrite Hnb1. lia. }
  { intros k Hk. rewrite He2. apply Hok. simpl in Hc2. lia. }
  erewrite bind_ret_run by exact Hrun3.
  cbn [Z.eqb negb]. unfold bind at 1, get_cap, start_stream. cbn [fst snd].
  match goal with |- context [bind (ioctl ?f ?q) _ m3] =>
    destruct (ioctl_run f q m3) as (m4 & Hrun4 & Hc4 & _ & He4 & _ & _ & _ & Ht4 & _) end.
  erewrite bind_ret_run by exact Hrun4.
  destruct (Hok (calls m3)) as (Hr & _); [lia|]. rewrite <- He2, <- He3 in Hr.
  rewrite Hr. unfold ret.
  destruct (qbuf_calls_not_mapped _ Hf3) as [Hq3' Hm3'].
  destruct (streamon_not_listed (v4l2_fd (cap m3)) (env m3 (calls m3)) (app (cap m3)))
    as (Hs1 & Hs2 & Hs3).
  eexists m4, ((ext2 ++ ext3) ++ [_]). split; [reflexivity|].
  split; [rewrite Ht4, Ht3, Ht2, <- !app_assoc; reflexivity|].
  split; [congruence|].
  split; [rewrite Hc4, Hc3; congruence|].
  split; [rewrite !queried_app, Hq2, Hq3', Hs1, Hnb1, !app_nil_r; reflexivity|].
  assert (Hmap : mapped ((ext2 ++ ext3) ++
            [{| ev_call := Ioctl (v4l2_fd (cap m3)) VIDIOC_STREAMON;
                ev_resp := env m3 (calls m3); ev_app := app (cap m3) |}]) = mapped ext2).
  { rewrite !mapped_app, Hm3', Hs2, !app_nil_r. reflexivity. }
  split; [rewrite Hmap, Hm2, Hc4, Hc3, Hnb1; reflexivity|].
  split; [rewrite Hmap; exact Hv2|].
  split.
  - rewrite !queued_app, (map_calls_not_queued _ Hf2), Hq3, Hs3, Hnb2. cbn [app].
    apply app_nil_r.
  - intros i p Hi Hp. rewrite Hc4, Hc3, Hd2. apply Hd1; [exact Hi | lia].
Qed.

Lemma to_int_small (z : Z) : 0 <= z <= VIDEO_MAX_FRAME -> to_int z = z.
Proof.
  unfold to_int, VIDEO_MAX_FRAME. intros H.
  rewrite Z.mod_small by lia. lia.
Qed.

(** C4.  The device is asked for [buffer_count opt] buffers and grants
    [granted] of them, and every call succeeds.  Then [capture_setup] returns
    0 with [granted] stored as the pool size; the buffers it queried and
    mapped and the buffers it queued are exactly those with the indices
    0 .. [granted] - 1, two planes each; and [unmap_buffers] afterwards
    unmaps exactly the addresses that were mapped and closes nothing.  So
    when fewer buffers are granted than requested, no buffer beyond the
    granted ones is queried, mapped, queued or unmapped. *)
Theorem granted_count_is_the_pool (opt : options) (m : machine) (granted : Z) :
  dma_export opt = 0 ->
  0 <= granted <= buffer_count opt -> granted <= VIDEO_MAX_FRAME ->
  wf_cap (cap m) ->
  (forall k, (calls m <= k)%nat -> succeeds (env m k)) ->
  r_val (env m (S (calls m))) = granted ->
  let m1 := snd (capture_setup opt m) in
  fst (capture_setup opt m) = Ret 0 /\
  num_buf (cap m1) = granted /\
  queried (added (capture_setup opt) m) = indices (Z.to_nat granted) 0 /\
  mapped (added (capture_setup opt) m) = plane_addrs (cap m1) (Z.to_nat granted) 0 /\
  length (mapped (added (capture_setup opt) m)) = (2 * Z.to_nat granted)%nat /\
  queued (added (capture_setup opt) m) = indices (Z.to_nat granted) 0 /\
  unmapped (added unmap_buffers m1) = mapped (added (capture_setup opt) m) /\
  closed (added unmap_buffers m1) = [].
Proof.
  intros Hdma Hgr Hmax Hwf Hok Hval. cbn zeta.
  (* the two requests at the head of capture_setup *)
  assert (Hsetup : exists m1 ext,
    capture_setup opt m = (Ret 0, m1) /\ trace m1 = trace m ++ ext /\
    env m1 = env m /\
    num_buf (cap m1) = granted /\ num_planes (cap m1) = 2 /\
    queried ext = indices (Z.to_nat granted) 0 /\
    mapped ext = plane_addrs (cap m1) (Z.to_nat granted) 0 /\
    Forall valid_address (mapped ext) /\
    queued ext = indices (Z.to_nat granted) 0 /\
    (forall i p, 0 <= i < granted -> 0 <= p < 2 -> dma_at (cap m1) i p = -1)).
  { unfold capture_setup, bind at 1 2, upd_cap, get_cap. cbn [fst snd].
    match goal with |- context [bind (ioctl ?f ?q) _ ?m0] =>
      destruct (ioctl_run f q m0) as (ma & Hruna & Hca & _ & Hea & _ & Hna & _ & Hta & _) end.
    erewrite bind_ret_run by exact Hruna.
    simpl in Hca, Hea, Hna, Hta. cbn [env calls set_cap].
    destruct (Hok (calls m)) as (Hr0 & _); [lia|]. rewrite Hr0. cbn [Z.ltb Z.compare].
    match goal with |- context [bind (ioctl ?f ?q) _ ma] =>
      destruct (ioctl_run f q ma) as (mb & Hrunb & Hcb & _ & Heb & _ & Hnb & _ & Htb & _) end.
    erewrite bind_ret_run by exact Hrunb.
    rewrite Hea, Hna in *.
    destruct (Hok (S (calls m))) as (Hr1 & _); [lia|]. rewrite Hr1. cbn [Z.ltb Z.compare].
    unfold bind at 1, upd_cap. cbn [fst snd]. rewrite Hval, Hdma.
    rewrite to_int_small by lia.
    destruct (capture_setup_buffers_ok (set_cap (set_num_buf granted (cap mb)) mb))
      as (m1 & ext & Hrun & Ht & He & Hg & Hq & Hm & Hv & Hqd & Hd).
    { simpl. rewrite Hcb, Hca. reflexivity. }
    { simpl. lia. }
    { simpl. rewrite Hcb, Hca. exact Hwf. }
    { intros k Hk. simpl in Hk |- *. rewrite Heb. apply Hok. lia. }
    simpl in Ht, He, Hg, Hq, Hm, Hqd, Hd.
    unfold geometry in Hg. simpl in Hg. rewrite Hcb, Hca in Hg. simpl in Hg.
    injection Hg as Hg1 Hg2 _ _ _ _.
    eexists m1, ([_] ++ [_] ++ ext). split; [exact Hrun|].
    split; [rewrite Ht, Htb, Hta, <- !app_assoc; reflexivity|].
    split; [congruence|]. split; [exact Hg1|]. split; [exact Hg2|].
    split; [rewrite !queried_app, Hq; reflexivity|].
    split; [rewrite !mapped_app, Hm; reflexivity|].
    split; [rewrite !mapped_app; exact Hv|].
    split; [rewrite !queued_app, Hqd; reflexivity|].
    exact Hd. }
  destruct Hsetup as (m1 & ext & Hrun & Ht & He & Hnb & Hnp & Hq & Hm & Hv & Hqd & Hd).
  rewrite (added_snoc _ _ ext) by (rewrite Hrun; exact Ht).
  rewrite Hrun. cbn [fst snd].
  (* the teardown that follows *)
  assert (Hunmap : exists ext', trace (snd (unmap_buffers m1)) = trace m1 ++ ext' /\
    unmapped ext' = plane_addrs (cap m1) (Z.to_nat granted) 0 /\ closed ext' = []).
  { unfold unmap_buffers.
    destruct (unmap_all_ok m1 Hnp) as (m2 & ext2 & Hrun2 & Hc2 & He2 & Ht2 & Hu2 & Hcl2).
    { intros j q Hj Hq'. rewrite Hnb in Hj. split; [apply Hd; lia|].
      apply (plane_addrs_valid (cap m1) (Z.to_nat granted) 0); [|lia|lia].
      rewrite <- Hm. exact Hv. }
    erewrite bind_ret_run by exact Hrun2. unfold bind at 1, get_cap. cbn [fst snd].
    match goal with |- context [bind (ioctl ?f ?q) _ m2] =>
      destruct (ioctl_run f q m2) as (m3 & Hrun3 & _ & _ & _ & _ & _ & _ & Ht3 & _) end.
    erewrite bind_ret_run by exact Hrun3. unfold ret. cbn [snd].
    eexists (ext2 ++ [_]). split; [rewrite Ht3, Ht2, <- app_assoc; reflexivity|].
    rewrite unmapped_app, closed_app, Hu2, Hcl2, Hnb. split; apply app_nil_r. }
  destruct Hunmap as (ext' & Ht' & Hu & Hcl).
  rewrite (added_snoc _ _ ext' Ht').
  repeat split; auto.
  - rewrite Hm. apply plane_addrs_length.
  - congruence.
Qed.

(** Four buffers are requested and the device grants two. *)
Lemma granted_count_is_the_pool_witness :
  num_buf (cap (snd (capture_setup default_options (boot (env_grants 2) garbage)))) = 2 /\
  queried (added (capture_setup default_options) (boot (env_grants 2) garbage)) = [0; 1] /\
  queued (added (capture_setup default_options) (boot (env_grants 2) garbage)) = [0; 1].
Proof.
  destruct (granted_count_is_the_pool default_options (boot (env_grants 2) garbage) 2)
    as (_ & Hn & Hq & _ & _ & Hqd & _).
  - reflexivity.
  - simpl. lia.
  - unfold VIDEO_MAX_FRAME. lia.
  - split; [reflexivity|]. apply Forall_replicate. split; reflexivity.
  - intros k _. cbn [env boot]. unfold env_grants.
    destruct (k =? 1)%nat; repeat split; vm_compute; first [reflexivity | discriminate].
  - reflexivity.
  - split; [exact Hn|]. split; [exact Hq | exact Hqd].
Defined.

